(** * pyacdc_dvm1: AC-DC difference measurement of thermal converters

    A shallow embedding of [pyacdc_dvm1.py].  Python floats and numpy's
    float64 are IEEE 754 binary64 numbers: they are Rocq's primitive floats,
    so NaN, infinities and rounding behave as they do in the program.  The
    instruments are a world that is threaded through the program: the
    commands written to the bus are logged in order, the detector answers
    from a list of pending responses, and the CSV register is a list of rows.
    Console output, timestamps and the formatting of numbers into command
    strings are left out. *)

From Stdlib Require Import String ZArith List Bool Lia QArith Qround.
From Stdlib Require Import Uint63 Floats.
Import ListNotations.

Set Warnings "-inexact-float".

(** ** Python exceptions and results *)

Inductive exn : Type :=
| NameError (msg : string)
| UnboundLocalError
| IndexError
| ValueError
| VisaIOError
| OSError.

(** The result of running a piece of the program: a value, a raised
    exception, or [Diverge] when a [while] loop was cut off by its fuel. *)
Inductive outcome (A : Type) : Type :=
| Ok (a : A)
| Raise (e : exn)
| Diverge.

Arguments Ok {A} a.
Arguments Raise {A} e.
Arguments Diverge {A}.

Definition obind {A B : Type} (o : outcome A) (k : A -> outcome B) : outcome B :=
  match o with
  | Ok a => k a
  | Raise e => Raise e
  | Diverge => Diverge
  end.

Notation "'let?' x ':=' e 'in' k" := (obind e (fun x => k))
  (at level 10, x name, e at level 100, k at level 200).

(** [l[i]] for a non-negative literal index. *)
Definition index {A : Type} (l : list A) (i : nat) : outcome A :=
  match nth_error l i with
  | Some a => Ok a
  | None => Raise IndexError
  end.

(** [range(a, b)] *)
Definition range (a b : Z) : list Z :=
  map (fun j => (a + Z.of_nat j)%Z) (seq 0 (Z.to_nat (b - a))).

(** [[f(a) for a in l]] where [f] may raise. *)
Fixpoint traverse {A B : Type} (f : A -> outcome B) (l : list A) : outcome (list B) :=
  match l with
  | [] => Ok []
  | a :: l' =>
      let? b := f a in
      let? bs := traverse f l' in
      Ok (b :: bs)
  end.

(** ** numpy on float64 arrays *)

Module numpy.
Local Open Scope float_scope.

(** An integer count converted to float64 (exact below 2^53). *)
Definition count (n : Z) : float := of_uint63 (Uint63.of_Z n).

Fixpoint zip_with {A B C : Type} (f : A -> B -> C) (l : list A) (l' : list B)
  : list C :=
  match l, l' with
  | a :: t, b :: t' => f a b :: zip_with f t t'
  | _, _ => []
  end.

(** The unrolled loop of numpy's [pairwise_sum]: eight running sums [r],
    each taking one element of every further block of eight. *)
Fixpoint unrolled (blocks : nat) (r l : list float) : list float * list float :=
  match blocks with
  | O => (r, l)
  | S b => unrolled b (zip_with add r (firstn 8 l)) (skipn 8 l)
  end.

Definition block_sum (l : list float) : float :=
  let '(r, rest) := unrolled (length l / 8 - 1) (firstn 8 l) (skipn 8 l) in
  match r with
  | [r0; r1; r2; r3; r4; r5; r6; r7] =>
      fold_left add rest (((r0 + r1) + (r2 + r3)) + ((r4 + r5) + (r6 + r7)))
  | _ => fold_left add rest 0
  end.

(** numpy's [pairwise_sum]: a plain left-to-right loop under 8 elements,
    the unrolled block up to 128, two halves beyond.  The fuel bounds the
    halving and is the length of the array. *)
Fixpoint pairwise_sum (fuel : nat) (l : list float) : float :=
  let n := length l in
  if (n <? 8)%nat then fold_left add l 0
  else if (n <=? 128)%nat then block_sum l
  else
    match fuel with
    | O => block_sum l
    | S fuel' =>
        let n2 := (n / 2 - (n / 2) mod 8)%nat in
        pairwise_sum fuel' (firstn n2 l) + pairwise_sum fuel' (skipn n2 l)
    end.

(** [numpy.add.reduce]: the identity 0 plus the pairwise sum. *)
Definition sum (l : list float) : float := 0 + pairwise_sum (length l) l.

(** [numpy.mean(l)] *)
Definition mean (l : list float) : float :=
  sum l / count (Z.of_nat (length l)).

(** [numpy.var(l, ddof=ddof)]: the squared deviations from the mean, summed
    and divided by [max(N - ddof, 0)]. *)
Definition var (ddof : Z) (l : list float) : float :=
  let arrmean := mean l in
  let x := map (fun a => (a - arrmean) * (a - arrmean)) l in
  sum x / count (Z.max (Z.of_nat (length l) - ddof) 0).

(** [numpy.std(l, ddof=ddof)] *)
Definition std (ddof : Z) (l : list float) : float := sqrt (var ddof l).

(** [linear_search(key, arr, len, i0)] of numpy's [interp]: the index of the
    last element, from [i0 - 1] on, that a run of elements not above [key]
    reaches.  [rest] is [arr[i0:]]. *)
Fixpoint linear_search (key : float) (rest : list float) (i : nat) : nat :=
  match rest with
  | [] => (i - 1)%nat
  | a :: rest' => if a <=? key then linear_search key rest' (S i) else (i - 1)%nat
  end.

(** Where [key] falls among the sample points: [binary_search_with_guess]
    for at most four points. *)
Inductive position : Type := Below | Above | At (j : nat).

Definition search (key : float) (arr : list float) : position :=
  if last arr nan <? key then Above
  else if key <? hd nan arr then Below
  else At (linear_search key (tl arr) 1).

(** [numpy.interp(x, xp, fp)] for a scalar [x], with the default [left] and
    [right]: the first and the last value of [fp]. *)
Definition interp (x : float) (xp fp : list float) : outcome float :=
  match xp with
  | [] => Raise ValueError
  | xp_val :: xp' =>
      if negb (length xp =? length fp)%nat then Raise ValueError
      else
        let lval := hd nan fp in
        let rval := last fp nan in
        match xp' with
        | [] => Ok (if x <? xp_val then lval else if xp_val <? x then rval else lval)
        | _ :: _ =>
            if is_nan x then Ok x
            else
              match search x xp with
              | Below => Ok lval
              | Above => Ok rval
              | At j =>
                  if (S j =? length xp)%nat then Ok (nth j fp nan)
                  else if nth j xp nan =? x then Ok (nth j fp nan)
                  else
                    let slope :=
                      (nth (S j) fp nan - nth j fp nan) / (nth (S j) xp nan - nth j xp nan) in
                    let r := slope * (x - nth j xp nan) + nth j fp nan in
                    if is_nan r then
                      let r' := slope * (x - nth (S j) xp nan) + nth (S j) fp nan in
                      if is_nan r' && (nth j fp nan =? nth (S j) fp nan)
                      then Ok (nth j fp nan) else Ok r'
                    else Ok r
              end
        end
  end.
End numpy.

(** ** The data the program passes around *)

(** The dictionary [n_measure] returns. *)
Record n_array : Type := {
  n_results : list float;      (* 'results': mean and std of nX, mean and std of nY *)
  Xi : list float;
  X0 : float;
  Yi : list float;
  Y0 : float;
  k : list Z;
  nX : list float;
  nY : list float
}.

(** The dictionary [measure] returns: the raw answers of the detector. *)
Record leituras : Type := {
  std_readings : list string;
  dut_readings : list string
}.

(** The dictionary [acdc_calc] returns (its timestamp left out). *)
Record acdc : Type := {
  std_array : list float;      (* 'std_readings' *)
  dut_array : list float;      (* 'dut_readings' *)
  dif : float;
  Delta : float;
  adj_dc : float
}.

(** The variables of [main] that its [while] loop reads and writes. *)
Record locals : Type := {
  i : Z;
  first_measure : bool;
  readings : option leituras;
  results : option acdc;
  vdc_atual : float;
  diff_acdc : list float;
  Delta_list : list float        (* the list [Delta] of main *)
}.

(** A sample of the BME280 sensor. *)
Record ambient : Type := {
  temperature : float;
  humidity : float;
  pressure : float
}.

(** ** The instruments *)

(** The three commands of the switch: [chr(2)], [chr(4)], [chr(6)]. *)
Inductive sw_cmd : Type := reset | ac | dc.

(** Commands of the Keysight 33600A.  A command carries the number that the
    program hands to the format of its string, before the formatting: for
    [SOUR_VOLT] the text sent is ['{:.3f}'.format(vrms)], whose value
    [thousandths] below gives; for [SOUR_FREQ] it is [str(hz)]. *)
Inductive source_cmd : Type :=
| RST
| CLS
| OUTP_LOAD (ch : nat) (load : string)
| SOUR_FUNC_SIN (ch : nat)
| SOUR_VOLT (ch : nat) (vrms : float)
| SOUR_FREQ (ch : nat) (hz : float)
| OUTP (ch : nat) (on : bool).

(** Commands of the Keithley 2182A. *)
Inductive dvm_cmd : Type :=
| SENS_VOLT_NPLC_18
| SENS_VOLT_DIG_8
| SENS_CHAN (ch : nat)
| SENS_VOLT_RANG (ch : nat)
| INIT_CONT_OFF
| READ.

Inductive event : Type :=
| bme280_calibration
| ac_source_idn
| ac_source_write (c : source_cmd)
| dvm_write (c : dvm_cmd)
| sw_write_raw (c : sw_cmd)
| time_sleep (slices : nat).     (* so many calls of [time.sleep(0.1)] *)

(** Rows of the CSV register. *)
Inductive row : Type :=
| cabecalho
| frequencia_rows (frequencia : string) (n : n_array) (vac_equilibrio : float)
| linha (results : acdc) (vdc_atual : float) (ca_data : ambient)
| blank
| Media (m : float)
| Desvio_padrao (s : float).

Record world : Type := {
  dvm_pending : list string;     (* what the detector answers to the next queries *)
  bme_pending : list ambient;    (* what the sensor samples next *)
  freq : option float;           (* the global [freq] *)
  bus : list event;              (* commands issued, oldest first *)
  registro : list row            (* rows written, oldest first *)
}.

(** ** Stateful code: a state and exception monad over the world *)

Definition io (A : Type) : Type := world -> outcome A * world.

Definition ret {A : Type} (a : A) : io A := fun w => (Ok a, w).

Definition bind {A B : Type} (m : io A) (f : A -> io B) : io B :=
  fun w =>
    match m w with
    | (Ok a, w') => f a w'
    | (Raise e, w') => (Raise e, w')
    | (Diverge, w') => (Diverge, w')
    end.

Definition raise {A : Type} (e : exn) : io A := fun w => (Raise e, w).

Definition lift {A : Type} (o : outcome A) : io A := fun w => (o, w).

(** [try: m  except: h] with a bare [except]. *)
Definition try_except {A : Type} (m : io A) (h : io A) : io A :=
  fun w =>
    match m w with
    | (Raise _, w') => h w'
    | r => r
    end.

Notation "'let*' x ':=' e 'in' f" := (bind e (fun x => f))
  (at level 10, x name, e at level 100, f at level 200).
Notation "e ';;' f" := (bind e (fun _ => f))
  (at level 61, right associativity).

(** The world after a command went out on the bus. *)
Definition log (e : event) (w : world) : world :=
  {| dvm_pending := dvm_pending w; bme_pending := bme_pending w; freq := freq w;
     bus := bus w ++ [e]; registro := registro w |}.

Definition emit (e : event) : io unit := fun w => (Ok tt, log e w).

(** The world after rows were appended to the register. *)
Definition append_rows (rows : list row) (w : world) : world :=
  {| dvm_pending := dvm_pending w; bme_pending := bme_pending w; freq := freq w;
     bus := bus w; registro := registro w ++ rows |}.

Definition writerows (rows : list row) : io unit := fun w => (Ok tt, append_rows rows w).

(** The world after the global [freq] was assigned. *)
Definition tuned (f : float) (w : world) : world :=
  {| dvm_pending := dvm_pending w; bme_pending := bme_pending w; freq := Some f;
     bus := bus w; registro := registro w |}.

Definition set_freq (f : float) : io unit := fun w => (Ok tt, tuned f w).

Definition get_freq : io float :=
  fun w => match freq w with
           | Some f => (Ok f, w)
           | None => (Raise (NameError "name 'freq' is not defined"), w)
           end.

(** The world after the detector gave its next answer. *)
Definition answered (w : world) : world :=
  {| dvm_pending := tl (dvm_pending w); bme_pending := bme_pending w; freq := freq w;
     bus := bus w; registro := registro w |}.

(** [dvm.query(":READ?")]: the command goes out, the next pending answer
    comes back; with no answer left the read times out. *)
Definition dvm_query_READ : io string :=
  emit (dvm_write READ) ;;
  fun w => match dvm_pending w with
           | x :: _ => (Ok x, answered w)
           | [] => (Raise VisaIOError, w)
           end.

(** The world after the sensor gave its next sample. *)
Definition sampled (w : world) : world :=
  {| dvm_pending := dvm_pending w; bme_pending := tl (bme_pending w); freq := freq w;
     bus := bus w; registro := registro w |}.

(** [bme280.sample(bus, address, calibration_params)] *)
Definition bme280_read : io ambient :=
  fun w => match bme_pending w with
           | a :: _ => (Ok a, sampled w)
           | [] => (Raise OSError, w)
           end.

(** [espera(segundos)]: [int(segundos * 10)] sleeps of a tenth of a second.
    The duration is kept as the exact rational: for the whole seconds of the
    program this is the count of the source; for the halved [wait_time / 2],
    which the source computes in binary64, it is the source's count as long
    as [wait_time] is below [2^50] (five times it is then a binary64 whole
    number). *)
Definition slices (segundos : Q) : nat := Z.to_nat (Qfloor (segundos * 10)).

Definition espera (segundos : Q) : io unit := emit (time_sleep (slices segundos)).

(** ** A bench for running the program

    Answers of the detector as texts, with the number that Python's [float]
    reads in each, a sample of the sensor, and a world to start from. *)

Module Bench.
Local Open Scope float_scope.
Local Open Scope string_scope.

Definition table : list (string * float) :=
  [("0", 0); ("1", 1); ("0.7", 0.7); ("0.9", 0.9); ("0.97", 0.97); ("0.98", 0.98);
   ("0.998", 0.998); ("1.002", 1.002); ("1.02", 1.02); ("1.03", 1.03);
   ("0.9989", 0.9989); ("0.9990", 0.9990); ("0.99901", 0.99901); ("0.9991", 0.9991);
   ("0.9992", 0.9992);
   ("1.0000", 1.0000); ("1.0001", 1.0001); ("1.0002", 1.0002); ("1.0003", 1.0003)].

Fixpoint lookup (t : list (string * float)) (a : string) : option float :=
  match t with
  | [] => None
  | (b, x) :: t' => if String.eqb a b then Some x else lookup t' a
  end.

Definition py_float (a : string) : option float := lookup table a.

Definition ca : ambient := {| temperature := 23; humidity := 50; pressure := 1013 |}.

(** A world in which the detector will give the [answers], with the
    frequency set or not. *)
Definition lab (f : option float) (answers : list string) : world :=
  {| dvm_pending := answers; bme_pending := [ca; ca; ca; ca]; freq := f;
     bus := []; registro := [] |}.

(** Two channels read in turn: the standard, then the device. *)
Fixpoint interleave (std dut : list string) : list string :=
  match std, dut with
  | x :: std', y :: dut' => x :: y :: interleave std' dut'
  | _, _ => []
  end.

(** The cycle of the worked example: the device is 183 ppm off balance. *)
Definition cycle_std : list string := ["1.0000"; "1.0002"; "1.0001"; "1.0003"; "1.0000"].
Definition cycle_dut : list string := ["0.9990"; "0.9991"; "0.9989"; "0.9992"; "0.9990"].
Definition cycle : leituras := {| std_readings := cycle_std; dut_readings := cycle_dut |}.

(** A cycle 10 ppm off balance, one in balance, one 100 ppm off balance, a
    cycle whose device reads zero throughout, and a cycle whose DC reading of the device is far
    below its AC reading. *)
Definition flat : list string := ["1.0000"; "1.0000"; "1.0000"; "1.0000"; "1.0000"].
Definition balanced : list string := ["0.9990"; "0.99901"; "0.9990"; "0.99901"; "0.9990"].
Definition even : list string := ["0.9990"; "0.9990"; "0.9990"; "0.9990"; "0.9990"].
Definition off_balance : list string := ["0.9990"; "0.9991"; "0.9990"; "0.9991"; "0.9990"].
Definition low_dc : list string := ["0.9990"; "0.7"; "0.9990"; "0.7"; "0.9990"].

(** The answers to [n_measure(4)] of a square-law converter (the baseline,
    then +2 percent, -2, +2, -2), and the same with a baseline of zero on the
    standard. *)
Definition linearity : list string :=
  interleave ["1"; "1.02"; "0.98"; "1.02"; "0.98"] ["1"; "1.02"; "0.98"; "1.02"; "0.98"].
Definition linearity_zero : list string :=
  interleave ["0"; "1.02"; "0.98"; "1.02"; "0.98"] ["1"; "1.02"; "0.98"; "1.02"; "0.98"].


(** The answers to [equilibrio]: the target inside the bracket, and below it. *)
Definition bracket : list string := ["1"; "0.998"; "1.002"].
Definition bracket_below : list string := ["0.9"; "0.998"; "1.002"].

(** The coefficients of the worked example. *)
Definition N : list float := [100; 0.1; 98.5; 0.1].

(** A whole frequency point: the linearity, the equilibrium, then an
    accepted repetition, a discarded one and an accepted one. *)
Definition point : list string :=
  linearity ++ bracket ++ interleave flat balanced ++
  tl (tl (interleave flat off_balance)) ++ tl (tl (interleave flat even)).

Definition point_zero : list string :=
  linearity_zero ++ bracket ++ interleave flat balanced ++
  tl (tl (interleave flat off_balance)) ++ tl (tl (interleave flat even)).

(** A frequency point whose first repetition computes a DC correction above
    the bound, with answers left for a second frequency. *)
Definition point_fault : list string :=
  linearity ++ bracket ++ interleave flat low_dc ++ linearity.

(** A detector that may also answer that a reading is no number, as Python's
    [float] reads it, and a channel that answers so throughout a cycle. *)
Definition py_float_nan (a : string) : option float :=
  if String.eqb a "nan" then Some nan else py_float a.
Definition blind : list string := ["nan"; "nan"; "nan"; "nan"; "nan"].

End Bench.

(** ** The program *)

Section Program.
Local Open Scope float_scope.

(** The settings read from [config.ini] when the module is loaded. *)
Variable wait_time : Z.
Variable heating_time : Z.
Variable repeticoes : Z.
Variable voltage : float.
Variable freq_array : list string.
Variable load : string.

(** Python's [float(a.strip())] on the text of an answer; [None] when it
    raises [ValueError]. *)
Variable py_float : string -> option float.

(** Both nominal voltages are read from the same key. *)
Definition vac_nominal : float := voltage.
Definition vdc_nominal : float := voltage.

Definition float_of (a : string) : outcome float :=
  match py_float a with
  | Some x => Ok x
  | None => Raise ValueError
  end.

(** The two functions of the set-up.  Opening the bus of the sensor and the
    three GPIB resources is taken to succeed: the model starts where the
    instruments answer, and the properties of [main] below are stated from
    the world after the set-up, [started]. *)
Definition bme280_init : io unit := emit bme280_calibration.

Definition instrument_init : io unit :=
  emit ac_source_idn ;;
  emit (dvm_write SENS_VOLT_NPLC_18) ;;
  emit (dvm_write SENS_VOLT_DIG_8) ;;
  emit (sw_write_raw reset).

Definition meas_init : io unit :=
  emit (ac_source_write RST) ;;
  emit (ac_source_write CLS) ;;
  emit (ac_source_write (OUTP_LOAD 1 load)) ;;
  emit (ac_source_write (OUTP_LOAD 2 load)) ;;
  emit (ac_source_write (SOUR_FUNC_SIN 1)) ;;
  emit (ac_source_write (SOUR_FUNC_SIN 2)) ;;
  emit (ac_source_write (SOUR_VOLT 1 vdc_nominal)) ;;
  emit (ac_source_write (SOUR_VOLT 2 vac_nominal)) ;;
  emit (ac_source_write (SOUR_FREQ 1 100000)) ;;
  emit (ac_source_write (SOUR_FREQ 2 1000000)) ;;
  espera 2 ;;
  emit (ac_source_write (OUTP 1 true)) ;;
  emit (ac_source_write (OUTP 2 true)) ;;
  espera 10 ;;
  emit (sw_write_raw ac) ;;
  espera 10.

Definition ler_std : io string :=
  emit (dvm_write (SENS_CHAN 2)) ;;
  emit (dvm_write (SENS_VOLT_RANG 2)) ;;
  emit (dvm_write INIT_CONT_OFF) ;;
  dvm_query_READ.

Definition ler_dut : io string :=
  emit (dvm_write (SENS_CHAN 1)) ;;
  emit (dvm_write (SENS_VOLT_RANG 1)) ;;
  emit (dvm_write INIT_CONT_OFF) ;;
  dvm_query_READ.

(** [print_std] and [print_dut] convert the last reading to print it: all
    that is kept of them is the [ValueError] of a malformed answer. *)
Definition print_last (readings : list string) : io unit :=
  lift (let? a := index (rev readings) 0 in
        let? _ := float_of a in
        Ok tt).

Definition print_std : list string -> io unit := print_last.
Definition print_dut : list string -> io unit := print_last.

Definition aquecimento (tempo : Z) : io unit :=
  emit (ac_source_write (SOUR_VOLT 1 vdc_nominal)) ;;
  emit (ac_source_write (SOUR_FREQ 1 100000)) ;;
  emit (sw_write_raw dc) ;;
  espera (inject_Z tempo).

(** [for x in l: s = body(x, s)] *)
Fixpoint for_each {A S : Type} (l : list A) (body : A -> S -> io S) (s : S) : io S :=
  match l with
  | [] => ret s
  | a :: l' => let* s' := body a s in for_each l' body s'
  end.

(** An int64 converted to float64. *)
Definition of_int (z : Z) : float :=
  if (z <? 0)%Z then - numpy.count (- z) else numpy.count z.

(** [a * k] for an array [a] and a list of integers [k] of the same
    length (numpy raises [ValueError] when the shapes do not match). *)
Definition multiply (a : list float) (k : list Z) : outcome (list float) :=
  if (length a =? length k)%nat
  then Ok (numpy.zip_with (fun x kz => x * of_int kz) a k)
  else Raise ValueError.

(** One turn of [n_measure]'s [for] loop, on its three lists. *)
Definition n_measure_step (i : Z) (s : list string * list string * list Z)
  : io (list string * list string * list Z) :=
  let '(std_readings, dut_readings, k) := s in
  let '(Vi, k) :=
    if (i mod 2 =? 0)%Z then (0.99 * vdc_nominal, k ++ [(-100)%Z])
    else (1.01 * vdc_nominal, k ++ [100%Z]) in
  emit (sw_write_raw ac) ;;
  espera 2 ;;
  emit (ac_source_write (SOUR_VOLT 1 Vi)) ;;
  espera 2 ;;
  emit (sw_write_raw dc) ;;
  espera (inject_Z wait_time) ;;
  let* x := ler_std in
  let std_readings := std_readings ++ [x] in
  let* y := ler_dut in
  let dut_readings := dut_readings ++ [y] in
  print_std std_readings ;;
  print_dut dut_readings ;;
  ret (std_readings, dut_readings, k).

(** The last part of [n_measure], under its comment "cálculo do n": the
    coefficients from the readings and the weights. *)
Definition calculo_do_n (std_readings dut_readings : list string) (k : list Z)
  : outcome n_array :=
  let? x0 := index std_readings 0 in
  let? X0 := float_of x0 in
  let? y0 := index dut_readings 0 in
  let? Y0 := float_of y0 in
  let? Xi := traverse float_of (tl std_readings) in
  let? Yi := traverse float_of (tl dut_readings) in
  let? nX := multiply (map (fun a => a / X0 - 1) Xi) k in
  let? nY := multiply (map (fun a => a / Y0 - 1) Yi) k in
  Ok {| n_results := [numpy.mean nX; numpy.std 1 nX; numpy.mean nY; numpy.std 1 nY];
        Xi := Xi; X0 := X0; Yi := Yi; Y0 := Y0; k := k; nX := nX; nY := nY |}.

Definition n_measure (M : Z) : io n_array :=
  let M := if negb (M mod 2 =? 0)%Z then (M + 1)%Z else M in
  emit (ac_source_write (SOUR_VOLT 2 vac_nominal)) ;;
  let* f := get_freq in
  emit (ac_source_write (SOUR_FREQ 2 f)) ;;
  emit (ac_source_write (SOUR_VOLT 1 vdc_nominal)) ;;
  espera 2 ;;
  emit (sw_write_raw dc) ;;
  espera (inject_Z wait_time) ;;
  let* x := ler_std in
  let* y := ler_dut in
  print_std [x] ;;
  print_dut [y] ;;
  let* s := for_each (range 1 (M + 1)) n_measure_step ([x], [y], []) in
  let '(std_readings, dut_readings, k) := s in
  emit (sw_write_raw ac) ;;
  lift (calculo_do_n std_readings dut_readings k).

(** One phase of [measure]: route the switch, wait, read both channels. *)
Definition ciclo (c : sw_cmd) (r : leituras) : io leituras :=
  emit (sw_write_raw c) ;;
  espera (inject_Z wait_time) ;;
  let* x := ler_std in
  let std := std_readings r ++ [x] in
  let* y := ler_dut in
  let dut := dut_readings r ++ [y] in
  print_std std ;;
  print_dut dut ;;
  ret {| std_readings := std; dut_readings := dut |}.

Definition measure (vdc_atual vac_atual : float) (ciclo_ac : list string) : io leituras :=
  emit (ac_source_write (SOUR_VOLT 2 vac_atual)) ;;
  let* f := get_freq in
  emit (ac_source_write (SOUR_FREQ 2 f)) ;;
  emit (ac_source_write (SOUR_VOLT 1 vdc_atual)) ;;
  emit (ac_source_write (SOUR_FREQ 1 100000)) ;;
  espera 2 ;;
  let* r :=
    match ciclo_ac with
    | [] => ciclo ac {| std_readings := []; dut_readings := [] |}
    | _ :: _ =>
        let* x := lift (index ciclo_ac 0) in
        let* y := lift (index ciclo_ac 1) in
        print_std [x] ;;
        print_dut [y] ;;
        ret {| std_readings := [x]; dut_readings := [y] |}
    end in
  let* r := ciclo dc r in
  let* r := ciclo ac r in
  let* r := ciclo dc r in
  ciclo ac r.

Definition acdc_calc (readings : leituras) (N : list float) (vdc_atual : float)
  : outcome acdc :=
  let? n_X := index N 0 in
  let? n_Y := index N 2 in
  let? x := traverse float_of (std_readings readings) in
  let? y := traverse float_of (dut_readings readings) in
  let? x0 := index x 0 in
  let? x2 := index x 2 in
  let? x4 := index x 4 in
  let Xac := numpy.mean [x0; x2; x4] in
  let? x1 := index x 1 in
  let? x3 := index x 3 in
  let Xdc := numpy.mean [x1; x3] in
  let? y0 := index y 0 in
  let? y2 := index y 2 in
  let? y4 := index y 4 in
  let Yac := numpy.mean [y0; y2; y4] in
  let? y1 := index y 1 in
  let? y3 := index y 3 in
  let Ydc := numpy.mean [y1; y3] in
  let X := Xac / Xdc - 1 in
  let Y := Yac / Ydc - 1 in
  let delta_m := 1e6 * ((X / n_X - Y / n_Y) / (1 + Y / n_Y)) in
  let Delta := 1e6 * (Yac - Ydc) in
  let adj_dc := vdc_atual * (1 + (Yac - Ydc) / (n_Y * Ydc)) in
  Ok {| std_array := x; dut_array := y; dif := delta_m; Delta := Delta; adj_dc := adj_dc |}.

Definition equilibrio : io float :=
  let* f := get_freq in
  emit (ac_source_write (SOUR_FREQ 2 f)) ;;
  emit (ac_source_write (SOUR_VOLT 1 vdc_nominal)) ;;
  espera 5 ;;
  emit (sw_write_raw dc) ;;
  espera (inject_Z wait_time / 2) ;;
  emit (ac_source_write (SOUR_VOLT 2 (0.999 * vac_nominal))) ;;
  espera (inject_Z wait_time / 2) ;;
  let* r0 := ler_dut in
  print_dut [r0] ;;
  emit (sw_write_raw ac) ;;
  espera (inject_Z wait_time) ;;
  let* r1 := ler_dut in
  print_dut [r0; r1] ;;
  emit (sw_write_raw dc) ;;
  espera 2 ;;
  emit (ac_source_write (SOUR_VOLT 2 (1.001 * vac_nominal))) ;;
  espera 2 ;;
  emit (sw_write_raw ac) ;;
  espera (inject_Z wait_time) ;;
  let* r2 := ler_dut in
  print_dut [r0; r1; r2] ;;
  emit (sw_write_raw dc) ;;
  lift (let yp := [0.999 * vac_nominal; 1.001 * vac_nominal] in
        let? x1 := float_of r1 in
        let? x2 := float_of r2 in
        let xp := [x1; x2] in
        let? xi := float_of r0 in
        numpy.interp xi xp yp).

Definition stop_instruments : io unit :=
  emit (sw_write_raw reset) ;;
  espera 1 ;;
  emit (ac_source_write (OUTP 1 false)) ;;
  emit (ac_source_write (OUTP 2 false)).

Definition criar_registro : io unit := writerows [cabecalho].

Definition registro_frequencia (frequencia : string) (n : n_array) (vac_equilibrio : float)
  : io unit :=
  writerows [frequencia_rows frequencia n vac_equilibrio].

Definition registro_linha (results : acdc) (vdc_atual : float) (ca_data : ambient)
  : io unit :=
  writerows [linha results vdc_atual ca_data].

Definition registro_media (diferenca : list float) : io unit :=
  writerows [blank; Media (numpy.mean diferenca);
             Desvio_padrao (numpy.std 1 diferenca); blank; blank].

(** The carried-over pair that a turn of the loop hands to [measure]. *)
Definition ciclo_ac (st : locals) : outcome (list string) :=
  if first_measure st then Ok []
  else
    match readings st with
    | None => Raise UnboundLocalError
    | Some r =>
        let? x := index (std_readings r) 4 in
        let? y := index (dut_readings r) 4 in
        Ok [x; y]
    end.

(** One turn of the [while] loop of [main]. *)
Definition repeticao (n_value : list float) (vac_atual : float) (st : locals) : io locals :=
  let* c := lift (ciclo_ac st) in
  let* r := measure (vdc_atual st) vac_atual c in
  let* res := lift (acdc_calc r n_value (vdc_atual st)) in
  let* ca_data := bme280_read in
  let* acc :=
    if 50 <? abs (Delta res) then ret (diff_acdc st, Delta_list st, i st)
    else
      registro_linha res (vdc_atual st) ca_data ;;
      ret (diff_acdc st ++ [dif res], Delta_list st ++ [Delta res], (i st + 1)%Z) in
  let '(diff_acdc', Delta', i') := acc in
  let vdc_atual' := adj_dc res in
  if 1.1 * vdc_nominal <? vdc_atual'
  then raise (NameError "Tensão DC ajustada perigosamente alta!")
  else ret {| i := i'; first_measure := false; readings := Some r; results := Some res;
              vdc_atual := vdc_atual'; diff_acdc := diff_acdc'; Delta_list := Delta' |}.

(** [while (i < repeticoes): ...]; the loop has no bound of its own, so the
    model takes fuel and diverges when it is used up. *)
Fixpoint sampling (fuel : nat) (n_value : list float) (vac_atual : float) (st : locals)
  : io locals :=
  if (i st <? repeticoes)%Z then
    match fuel with
    | O => fun w => (Diverge, w)
    | S fuel' =>
        let* st' := repeticao n_value vac_atual st in
        sampling fuel' n_value vac_atual st'
    end
  else ret st.

(** The body of the [for] loop of [main]: one frequency point. *)
Definition frequency_point (fuel : nat) (value : string) : io unit :=
  let* f := lift (float_of value) in
  set_freq (f * 1000000) ;;
  let* n := n_measure 4 in
  let n_value := n_results n in
  let* vac_atual := equilibrio in
  registro_frequencia value n vac_atual ;;
  (if 1.1 * vac_nominal <? vac_atual
   then raise (NameError "Tensão AC ajustada perigosamente alta!")
   else ret tt) ;;
  let* st := sampling fuel n_value vac_atual
               {| i := 0; first_measure := true; readings := None; results := None;
                  vdc_atual := vdc_nominal; diff_acdc := []; Delta_list := [] |} in
  registro_media (diff_acdc st).

Definition main_try (fuel : nat) : io unit :=
  bme280_init ;;
  instrument_init ;;
  meas_init ;;
  criar_registro ;;
  aquecimento heating_time ;;
  for_each freq_array (fun value _ => frequency_point fuel value) tt ;;
  stop_instruments.

Definition main (fuel : nat) : io unit :=
  try_except (main_try fuel) stop_instruments.

(** ** What the properties speak of *)

(** An answer that [float] accepts. *)
Definition parses (a : string) : Prop := exists x, py_float a = Some x.

(** The commands of one phase of a cycle: route the switch, wait for the
    settling time, read the standard (channel 2), read the device (channel 1). *)
Definition phase_events (c : sw_cmd) : list event :=
  [sw_write_raw c; time_sleep (slices (inject_Z wait_time));
   dvm_write (SENS_CHAN 2); dvm_write (SENS_VOLT_RANG 2); dvm_write INIT_CONT_OFF;
   dvm_write READ;
   dvm_write (SENS_CHAN 1); dvm_write (SENS_VOLT_RANG 1); dvm_write INIT_CONT_OFF;
   dvm_write READ].

(** The commands with which [measure] sets up the source. *)
Definition setup_events (vdc_atual vac_atual f : float) : list event :=
  [ac_source_write (SOUR_VOLT 2 vac_atual); ac_source_write (SOUR_FREQ 2 f);
   ac_source_write (SOUR_VOLT 1 vdc_atual); ac_source_write (SOUR_FREQ 1 100000);
   time_sleep (slices 2)].

(** The commands of [stop_instruments]. *)
Definition shutdown_events : list event :=
  [sw_write_raw reset; time_sleep (slices 1);
   ac_source_write (OUTP 1 false); ac_source_write (OUTP 2 false)].

(** A repetition passes the outlier gate. *)
Definition accepted (res : acdc) : bool := negb (50 <? abs (Delta res)).

(** The turns of the [while] loop, from a state of its variables and of the
    world to a later one, with the result that [acdc_calc] gave in each. *)
Inductive turns (n_value : list float) (vac_atual : float)
  : locals -> world -> list acdc -> locals -> world -> Prop :=
| turns_done st w : turns n_value vac_atual st w [] st w
| turns_step st w st1 w1 res cycles st2 w2 :
    (i st <? repeticoes)%Z = true ->
    repeticao n_value vac_atual st w = (Ok st1, w1) ->
    results st1 = Some res ->
    turns n_value vac_atual st1 w1 cycles st2 w2 ->
    turns n_value vac_atual st w (res :: cycles) st2 w2.

(** The state in which [main] enters the [while] loop. *)
Definition first_turn : locals :=
  {| i := 0; first_measure := true; readings := None; results := None;
     vdc_atual := vdc_nominal; diff_acdc := []; Delta_list := [] |}.

(** What [main] does before its loop over the frequencies, and the world
    it leaves. *)
Definition prelude : io unit :=
  bme280_init ;; instrument_init ;; meas_init ;; criar_registro ;; aquecimento heating_time.

Definition started (w : world) : world := snd (prelude w).

(** The loop of [main] over a list of frequencies. *)
Definition frequencies (fuel : nat) (values : list string) : io unit :=
  for_each values (fun value _ => frequency_point fuel value) tt.

(** A frequency point that runs into one of the two voltage bounds, from the
    world it starts in to the world in which the error is raised: either the
    equilibrium AC voltage exceeds 1.1 times the nominal AC voltage, or after
    some turns of the sampling loop a turn computes a DC correction above 1.1
    times the nominal DC voltage. *)
Inductive safety_fault (fuel : nat) (value : string) (w : world) : world -> Prop :=
| fault_ac f n w1 vac w2 :
    float_of value = Ok f ->
    n_measure 4 (tuned (f * 1000000) w) = (Ok n, w1) ->
    equilibrio w1 = (Ok vac, w2) ->
    (1.1 * vac_nominal <? vac) = true ->
    safety_fault fuel value w (append_rows [frequencia_rows value n vac] w2)
| fault_dc f n w1 vac w2 cycles st w3 c r w4 res ca rest :
    float_of value = Ok f ->
    n_measure 4 (tuned (f * 1000000) w) = (Ok n, w1) ->
    equilibrio w1 = (Ok vac, w2) ->
    (1.1 * vac_nominal <? vac) = false ->
    turns (n_results n) vac first_turn
      (append_rows [frequencia_rows value n vac] w2) cycles st w3 ->
    (length cycles < fuel)%nat ->
    (i st <? repeticoes)%Z = true ->
    ciclo_ac st = Ok c ->
    measure (vdc_atual st) vac c w3 = (Ok r, w4) ->
    acdc_calc r (n_results n) (vdc_atual st) = Ok res ->
    bme_pending w4 = ca :: rest ->
    (1.1 * vdc_nominal <? adj_dc res) = true ->
    safety_fault fuel value w
      (if accepted res then append_rows [linha res (vdc_atual st) ca] (sampled w4)
       else sampled w4).

(** The count of perturbations [n_measure] makes for a request of [M]. *)
Definition rounded_up (M : Z) : Z := if Z.even M then M else (M + 1)%Z.

(** The sign weight and the DC level of the [j]-th perturbation: +100 and
    +1 % of the nominal DC voltage when [j] is odd, -100 and -1 % when even. *)
Definition weight (j : Z) : Z := if Z.odd j then 100%Z else (-100)%Z.

Definition level (j : Z) : float :=
  if Z.odd j then 1.01 * vdc_nominal else 0.99 * vdc_nominal.

(** The commands of a reading of both channels. *)
Definition reading_events : list event :=
  [dvm_write (SENS_CHAN 2); dvm_write (SENS_VOLT_RANG 2); dvm_write INIT_CONT_OFF;
   dvm_write READ;
   dvm_write (SENS_CHAN 1); dvm_write (SENS_VOLT_RANG 1); dvm_write INIT_CONT_OFF;
   dvm_write READ].

(** The commands of the baseline reading of [n_measure] and of its [j]-th
    perturbation. *)
Definition baseline_events (f : float) : list event :=
  [ac_source_write (SOUR_VOLT 2 vac_nominal); ac_source_write (SOUR_FREQ 2 f);
   ac_source_write (SOUR_VOLT 1 vdc_nominal); time_sleep (slices 2);
   sw_write_raw dc; time_sleep (slices (inject_Z wait_time))] ++ reading_events.

Definition perturbation_events (j : Z) : list event :=
  [sw_write_raw ac; time_sleep (slices 2); ac_source_write (SOUR_VOLT 1 (level j));
   time_sleep (slices 2); sw_write_raw dc; time_sleep (slices (inject_Z wait_time))]
  ++ reading_events.

(** The answers of the detector to a list of readings of both channels. *)
Definition answers (pairs : list (string * string)) : list string :=
  flat_map (fun p => [fst p; snd p]) pairs.

(** Code that only writes commands and rows always ends normally. *)
Definition total (m : io unit) : Prop := forall w, m w = (Ok tt, snd (m w)).

(** Code that only adds to the bus: whatever it ends in, the commands that
    were on the bus are still there, in front. *)
Definition grows {A : Type} (m : io A) : Prop :=
  forall w o w', m w = (o, w') -> exists t, bus w' = bus w ++ t.

(** The commands of [equilibrio] up to its first reading of the device. *)
Definition equilibrium_start (f : float) : list event :=
  [ac_source_write (SOUR_FREQ 2 f); ac_source_write (SOUR_VOLT 1 vdc_nominal);
   time_sleep (slices 5); sw_write_raw dc; time_sleep (slices (inject_Z wait_time / 2));
   ac_source_write (SOUR_VOLT 2 (0.999 * vac_nominal));
   time_sleep (slices (inject_Z wait_time / 2));
   dvm_write (SENS_CHAN 1); dvm_write (SENS_VOLT_RANG 1); dvm_write INIT_CONT_OFF;
   dvm_write READ].


(** Code that comes to an end and puts no answer back: it ends in a value or
    in an exception, not cut off, and the answers of the detector that it
    leaves pending are no more than there were. *)
Definition settles {A : Type} (m : io A) : Prop :=
  forall w o w', m w = (o, w') ->
    o <> Diverge /\ (length (dvm_pending w') <= length (dvm_pending w))%nat.

(** Code whose every command is one of the [allowed]: whatever it ends in,
    the commands it has added to the bus all are. *)
Definition emits {A : Type} (allowed : event -> Prop) (m : io A) : Prop :=
  forall w o w', m w = (o, w') -> exists t, bus w' = bus w ++ t /\ Forall allowed t.

(** A command that, if it programs the DC channel of the source, programs
    the voltage [v]. *)
Definition dc_level_is (v : float) (e : event) : Prop :=
  forall u, e = ac_source_write (SOUR_VOLT 1 u) -> u = v.

(** The value of a finite binary64 number in units of [2^-1074], the
    smallest positive one: a whole number. *)
Definition SFscaled (x : spec_float) : option Z :=
  match x with
  | S754_zero _ => Some 0%Z
  | S754_finite s m e => Some ((if s then -1 else 1) * Z.pos m * 2 ^ (e + 1074))%Z
  | _ => None
  end.

Definition scaled (x : float) : option Z := SFscaled (Prim2SF x).

(** [a / b] rounded to the nearest whole number, a tie to the even one. *)
Definition round_half_even (a b : Z) : Z :=
  let q := (a / b)%Z in
  let r := (a mod b)%Z in
  if (2 * r <? b)%Z then q
  else if (b <? 2 * r)%Z then (q + 1)%Z
  else if Z.even q then q else (q + 1)%Z.

(** The voltage that a command carries is formatted with ['{:.3f}']: the
    text reads the exact value of the number rounded to three decimals, a
    tie to the even digit.  [thousandths x] is the number of thousandths
    that the text of a finite [x] reads. *)
Definition thousandths (x : float) : option Z :=
  option_map (fun v => round_half_even (v * 1000) (2 ^ 1074)) (scaled x).

(** A command that, if it programs the AC channel of the source, programs
    the voltage [v]. *)
Definition ac_level_is (v : float) (e : event) : Prop :=
  forall u, e = ac_source_write (SOUR_VOLT 2 u) -> u = v.

(** A command that, if it programs the DC channel of the source, programs
    the nominal voltage or one that the bound of [main] lets through. *)
Definition dc_within_bound (e : event) : Prop :=
  forall u, e = ac_source_write (SOUR_VOLT 1 u) ->
    u = vdc_nominal \/ (1.1 * vdc_nominal <? u) = false.

(** Code that writes no row: whatever it ends in, the register is as it was. *)
Definition keeps_register {A : Type} (m : io A) : Prop :=
  forall w o w', m w = (o, w') -> registro w' = registro w.

(** ** Properties *)

(** *** Reading a list of answers *)

Lemma traverse_float_of (l : list string) (xs : list float) :
  map py_float l = map Some xs -> traverse float_of l = Ok xs.
Proof.
  revert xs; induction l as [|a l IH]; intros [|x xs] H; simpl in *;
    try discriminate; try reflexivity.
  injection H as Ha Hl. unfold float_of at 1. rewrite Ha. simpl.
  rewrite (IH _ Hl). reflexivity.
Qed.

(** *** The mean of the short arrays of [acdc_calc] *)

Lemma mean_of_three (a b c : float) :
  numpy.mean [a; b; c] = (0 + (0 + a + b + c)) / 3.
Proof. reflexivity. Qed.

Lemma mean_of_two (a b : float) :
  numpy.mean [a; b] = (0 + (0 + a + b)) / 2.
Proof. reflexivity. Qed.


(** *** The AC-DC difference, the discard criterion and the DC correction *)

(** C1: for a cycle of five standard readings [x] and five device readings
    [y], coefficients [n_X] and [n_Y] (entries 0 and 2 of [N]) and an applied
    DC voltage [v], [acdc_calc] returns
    [dif = 1e6 * ((X/n_X - Y/n_Y) / (1 + Y/n_Y))] with
    [X = mean(x0,x2,x4)/mean(x1,x3) - 1] and [Y = mean(y0,y2,y4)/mean(y1,y3) - 1],
    [Delta = 1e6 * (Yac - Ydc)] and [adj_dc = v * (1 + (Yac - Ydc)/(n_Y * Ydc))],
    where [Yac = mean(y0,y2,y4)] and [Ydc = mean(y1,y3)].  The mean is the
    sum of the readings, added up from left to right, over their number, 3
    or 2, in binary64 arithmetic; numpy starts its reduction from the
    identity 0 and its summing loop from 0, which shows in the two leading
    zeros.  The denominators are assumed nonzero as in the claim; binary64
    division being total, the equations do not depend on it. *)
Theorem acdc_calc_formulas
  (r : leituras) (N : list float) (v : float)
  (x0 x1 x2 x3 x4 y0 y1 y2 y3 y4 n_X n_Y : float) :
  let mean3 := fun a b c : float => (0 + (0 + a + b + c)) / 3 in
  let mean2 := fun a b : float => (0 + (0 + a + b)) / 2 in
  map py_float (std_readings r) = map Some [x0; x1; x2; x3; x4] ->
  map py_float (dut_readings r) = map Some [y0; y1; y2; y3; y4] ->
  nth_error N 0 = Some n_X ->
  nth_error N 2 = Some n_Y ->
  (n_X =? 0) = false ->
  (n_Y =? 0) = false ->
  (mean2 x1 x3 =? 0) = false ->
  (mean2 y1 y3 =? 0) = false ->
  let Xac := mean3 x0 x2 x4 in
  let Xdc := mean2 x1 x3 in
  let Yac := mean3 y0 y2 y4 in
  let Ydc := mean2 y1 y3 in
  let X := Xac / Xdc - 1 in
  let Y := Yac / Ydc - 1 in
  acdc_calc r N v =
    Ok {| std_array := [x0; x1; x2; x3; x4];
          dut_array := [y0; y1; y2; y3; y4];
          dif := 1e6 * ((X / n_X - Y / n_Y) / (1 + Y / n_Y));
          Delta := 1e6 * (Yac - Ydc);
          adj_dc := v * (1 + (Yac - Ydc) / (n_Y * Ydc)) |}.
Proof.
  intros mean3 mean2 Hx Hy HnX HnY _ _ _ _. unfold acdc_calc, index.
  rewrite HnX, HnY. cbn [obind].
  rewrite (traverse_float_of _ _ Hx), (traverse_float_of _ _ Hy).
  cbn [nth_error obind]. rewrite !mean_of_three, !mean_of_two.
  reflexivity.
Qed.

(** *** Running stateful code *)

Lemma bind_inv {A B : Type} (m : io A) (f : A -> io B) (w : world) (b : B) (w' : world) :
  bind m f w = (Ok b, w') ->
  exists a w1, m w = (Ok a, w1) /\ f a w1 = (Ok b, w').
Proof.
  unfold bind. destruct (m w) as [[a| |] w1]; try discriminate. eauto.
Qed.

Lemma bind_Ok {A B : Type} (m : io A) (f : A -> io B) (w : world) (a : A) (w1 : world) :
  m w = (Ok a, w1) -> bind m f w = f a w1.
Proof. unfold bind. intros ->. reflexivity. Qed.

Lemma bind_Raise {A B : Type} (m : io A) (f : A -> io B) (w : world) (e : exn) (w1 : world) :
  m w = (Raise e, w1) -> bind m f w = (Raise e, w1).
Proof. unfold bind. intros ->. reflexivity. Qed.

Lemma print_last_inv (l : list string) (w : world) (u : unit) (w' : world) :
  print_last l w = (Ok u, w') -> w' = w /\ exists a, index (rev l) 0 = Ok a /\ parses a.
Proof.
  unfold print_last, lift, float_of, parses.
  destruct (index (rev l) 0) as [a| |]; simpl; try discriminate.
  destruct (py_float a) eqn:E; simpl; try discriminate.
  intros H; injection H as _ <-. eauto.
Qed.

Lemma print_last_ok (l : list string) (a : string) (w : world) :
  parses a -> print_last (l ++ [a]) w = (Ok tt, w).
Proof.
  intros [x Hx]. unfold print_last, lift, float_of, index.
  rewrite rev_app_distr. simpl. rewrite Hx. reflexivity.
Qed.

(** One reading of a channel: four commands go out, one answer comes back. *)
Lemma ler_inv (ch : nat) (w : world) (x : string) (w' : world) :
  (emit (dvm_write (SENS_CHAN ch)) ;; emit (dvm_write (SENS_VOLT_RANG ch)) ;;
   emit (dvm_write INIT_CONT_OFF) ;; dvm_query_READ) w = (Ok x, w') ->
  dvm_pending w = x :: dvm_pending w' /\
  bus w' = bus w ++ [dvm_write (SENS_CHAN ch); dvm_write (SENS_VOLT_RANG ch);
                     dvm_write INIT_CONT_OFF; dvm_write READ] /\
  registro w' = registro w /\ freq w' = freq w /\ bme_pending w' = bme_pending w.
Proof.
  unfold dvm_query_READ, bind, emit. simpl.
  destruct (dvm_pending w) as [|a rest] eqn:Hp; try discriminate.
  intros H; injection H as <- <-. simpl. rewrite Hp. simpl.
  rewrite <- !app_assoc. auto.
Qed.

Lemma emit_inv (e : event) (w : world) (u : unit) (w' : world) :
  emit e w = (Ok u, w') -> w' = log e w.
Proof. unfold emit. intros H; injection H as _ <-. reflexivity. Qed.

Lemma ciclo_inv (c : sw_cmd) (r : leituras) (w : world) (r' : leituras) (w' : world) :
  ciclo c r w = (Ok r', w') ->
  exists x y,
    dvm_pending w = x :: y :: dvm_pending w' /\ parses x /\ parses y /\
    r' = {| std_readings := std_readings r ++ [x]; dut_readings := dut_readings r ++ [y] |} /\
    bus w' = bus w ++ phase_events c /\
    registro w' = registro w /\ freq w' = freq w /\ bme_pending w' = bme_pending w.
Proof.
  unfold ciclo. intros H.
  apply bind_inv in H as (u1 & w1 & H1 & H). apply emit_inv in H1 as ->.
  apply bind_inv in H as (u2 & w2 & H2 & H). apply emit_inv in H2 as ->.
  apply bind_inv in H as (x & w3 & Hx & H). apply ler_inv in Hx as (Px & Bx & Rx & Fx & Mx).
  apply bind_inv in H as (y & w4 & Hy & H). apply ler_inv in Hy as (Py & By & Ry & Fy & My).
  apply bind_inv in H as (u5 & w5 & H5 & H). apply print_last_inv in H5 as (-> & a & Ha & Pa).
  apply bind_inv in H as (u6 & w6 & H6 & H). apply print_last_inv in H6 as (-> & b & Hb & Pb).
  injection H as <- <-.
  unfold index in Ha, Hb. rewrite rev_app_distr in Ha, Hb. simpl in Ha, Hb.
  injection Ha as <-. injection Hb as <-.
  exists x, y. simpl in *. rewrite Px, Py, By, Bx, Ry, Rx, Fy, Fx, My, Mx.
  unfold phase_events. simpl. rewrite <- !app_assoc. simpl.
  repeat split; auto.
Qed.

Tactic Notation "step" hyp(H) "as" simple_intropattern(a) simple_intropattern(w) ident(E) :=
  apply bind_inv in H as (a & w & E & H).

Tactic Notation "step_emit" hyp(H) :=
  let u := fresh "u" in
  let w := fresh "w" in
  let E := fresh "E" in
  apply bind_inv in H as (u & w & E & H); apply emit_inv in E as ->; clear u.

Lemma get_freq_inv (w : world) (f : float) (w' : world) :
  get_freq w = (Ok f, w') -> w' = w /\ freq w = Some f.
Proof.
  unfold get_freq. destruct (freq w); try discriminate.
  intros H; injection H as <- <-. auto.
Qed.

(** The set-up of [measure], up to the first phase. *)
Lemma measure_inv (vdc vac : float) (c : list string) (w : world) (r : leituras) (w' : world) :
  measure vdc vac c w = (Ok r, w') ->
  exists f r0 w0 x1 y1 x2 y2 x3 y3 x4 y4,
    freq w = Some f /\
    match c with
    | [] =>
        exists x0 y0, dvm_pending w = x0 :: y0 :: dvm_pending w0 /\ parses x0 /\ parses y0 /\
          r0 = {| std_readings := [x0]; dut_readings := [y0] |} /\
          bus w0 = bus w ++ setup_events vdc vac f ++ phase_events ac
    | s :: c' =>
        exists d, nth_error c' 0 = Some d /\ parses s /\ parses d /\
          dvm_pending w0 = dvm_pending w /\
          r0 = {| std_readings := [s]; dut_readings := [d] |} /\
          bus w0 = bus w ++ setup_events vdc vac f
    end /\
    dvm_pending w0 = [x1; y1; x2; y2; x3; y3; x4; y4] ++ dvm_pending w' /\
    Forall parses [x1; y1; x2; y2; x3; y3; x4; y4] /\
    r = {| std_readings := std_readings r0 ++ [x1; x2; x3; x4];
           dut_readings := dut_readings r0 ++ [y1; y2; y3; y4] |} /\
    bus w' = bus w0 ++ phase_events dc ++ phase_events ac ++ phase_events dc ++ phase_events ac /\
    registro w' = registro w /\ freq w' = freq w /\ bme_pending w' = bme_pending w.
Proof.
  unfold measure. intros H.
  step_emit H.
  step H as f wf E. apply get_freq_inv in E as (-> & Hf).
  step_emit H. step_emit H. step_emit H. step_emit H.
  step H as r0 w0 H0.
  step H as ra wa E. apply ciclo_inv in E as (x1 & y1 & P1 & Px1 & Py1 & -> & B1 & R1 & F1 & M1).
  step H as rb wb E. apply ciclo_inv in E as (x2 & y2 & P2 & Px2 & Py2 & -> & B2 & R2 & F2 & M2).
  step H as rc wc E. apply ciclo_inv in E as (x3 & y3 & P3 & Px3 & Py3 & -> & B3 & R3 & F3 & M3).
  apply ciclo_inv in H as (x4 & y4 & P4 & Px4 & Py4 & -> & B4 & R4 & F4 & M4).
  exists f, r0, w0, x1, y1, x2, y2, x3, y3, x4, y4.
  assert (Hphase0 :
    match c with
    | [] =>
        exists x0 y0, dvm_pending w = x0 :: y0 :: dvm_pending w0 /\ parses x0 /\ parses y0 /\
          r0 = {| std_readings := [x0]; dut_readings := [y0] |} /\
          bus w0 = bus w ++ setup_events vdc vac f ++ phase_events ac
    | s :: c' =>
        exists d, nth_error c' 0 = Some d /\ parses s /\ parses d /\
          dvm_pending w0 = dvm_pending w /\
          r0 = {| std_readings := [s]; dut_readings := [d] |} /\
          bus w0 = bus w ++ setup_events vdc vac f
    end /\ registro w0 = registro w /\ freq w0 = freq w /\ bme_pending w0 = bme_pending w).
  { destruct c as [|s c'].
    - apply ciclo_inv in H0 as (x0 & y0 & P0 & Px0 & Py0 & -> & B0 & R0 & F0 & M0).
      simpl in *. split; [|auto]. exists x0, y0. repeat split; auto.
      rewrite B0. unfold setup_events. rewrite <- !app_assoc. reflexivity.
    - step H0 as s' ws E. unfold lift, index in E; simpl in E. injection E as <- <-.
      step H0 as d wd E. unfold lift, index in E.
      destruct (nth_error (s :: c') 1) as [d'|] eqn:Hd; try discriminate.
      injection E as <- <-.
      step H0 as u1 w1 E. apply (print_last_inv [s]) in E as (-> & a & Ha & Pa).
      step H0 as u2 w2 E. apply (print_last_inv [d']) in E as (-> & b & Hb & Pb).
      injection Ha as <-. injection Hb as <-.
      injection H0 as <- <-. simpl in *. split; [|auto].
      exists d'. repeat split; auto.
      unfold setup_events. rewrite <- !app_assoc. reflexivity. }
  destruct Hphase0 as (Hc & R0 & F0 & M0).
  repeat split; auto.
  - rewrite P1, P2, P3, P4. reflexivity.
  - repeat constructor; auto.
  - simpl. rewrite <- !app_assoc. reflexivity.
  - rewrite B4, B3, B2, B1. rewrite <- !app_assoc. reflexivity.
  - congruence.
  - congruence.
  - congruence.
Qed.

(** *** The cycle sampler *)

(** Without a carried-over cycle all five phases are sampled. *)
Lemma measure_first (vdc vac : float) (w : world) (r : leituras) (w' : world) :
  measure vdc vac [] w = (Ok r, w') ->
  exists f x0 y0 x1 y1 x2 y2 x3 y3 x4 y4,
    freq w = Some f /\
    r = {| std_readings := [x0; x1; x2; x3; x4]; dut_readings := [y0; y1; y2; y3; y4] |} /\
    dvm_pending w = [x0; y0; x1; y1; x2; y2; x3; y3; x4; y4] ++ dvm_pending w' /\
    bus w' = bus w ++ setup_events vdc vac f ++ phase_events ac ++
             phase_events dc ++ phase_events ac ++ phase_events dc ++ phase_events ac.
Proof.
  intros H. apply measure_inv in H
    as (f & r0 & w0 & x1 & y1 & x2 & y2 & x3 & y3 & x4 & y4 & Hf & H0 & Hp & _ & -> & Hb & _).
  destruct H0 as (x0 & y0 & Hp0 & _ & _ & -> & Hb0).
  exists f, x0, y0, x1, y1, x2, y2, x3, y3, x4, y4. repeat split; auto.
  - rewrite Hp0, Hp. reflexivity.
  - rewrite Hb, Hb0. rewrite <- !app_assoc. reflexivity.
Qed.

(** C7: when [measure] is given a carried-over pair [s], [d] and returns, the
    phase-0 readings of the cycle it returns are [s] and [d] themselves; after
    the set-up of the source the bus carries the commands of phases 1 to 4
    only (DC, AC, DC, AC: each routes the switch, waits and reads both
    channels), nothing for phase 0; and exactly the eight answers of phases 1
    to 4 were taken from the detector. *)
Theorem measure_carry_over
  (vdc vac : float) (s d : string) (t : list string) (w : world) (r : leituras) (w' : world) :
  measure vdc vac (s :: d :: t) w = (Ok r, w') ->
  exists f x1 y1 x2 y2 x3 y3 x4 y4,
    freq w = Some f /\
    nth_error (std_readings r) 0 = Some s /\
    nth_error (dut_readings r) 0 = Some d /\
    r = {| std_readings := [s; x1; x2; x3; x4]; dut_readings := [d; y1; y2; y3; y4] |} /\
    dvm_pending w = [x1; y1; x2; y2; x3; y3; x4; y4] ++ dvm_pending w' /\
    bus w' = bus w ++ setup_events vdc vac f ++
             phase_events dc ++ phase_events ac ++ phase_events dc ++ phase_events ac.
Proof.
  intros H. apply measure_inv in H
    as (f & r0 & w0 & x1 & y1 & x2 & y2 & x3 & y3 & x4 & y4 & Hf & H0 & Hp & _ & -> & Hb & _).
  destruct H0 as (d' & Hd & _ & _ & Hp0 & -> & Hb0). injection Hd as <-.
  exists f, x1, y1, x2, y2, x3, y3, x4, y4. repeat split; auto.
  - rewrite <- Hp0. exact Hp.
  - rewrite Hb, Hb0. rewrite <- !app_assoc. reflexivity.
Qed.

(** *** Comparisons of binary64 numbers *)

Ltac sf_cases :=
  repeat match goal with
  | |- context [Z.compare ?a ?b] => destruct (Z.compare_spec a b)
  | |- context [Pos.compare_cont Eq ?a ?b] =>
      change (Pos.compare_cont Eq a b) with (Pos.compare a b);
      destruct (Pos.compare_spec a b)
  | s : bool |- _ => destruct s
  end.

Lemma SFltb_SFleb_SFltb (x a b : spec_float) :
  SFltb x a = true -> SFleb a b = true -> SFltb b x = false.
Proof.
  unfold SFltb, SFleb, SFcompare.
  destruct x as [sx|sx| |sx mx ex], a as [sa|sa| |sa ma ea], b as [sb|sb| |sb mb eb];
    try discriminate; try reflexivity;
    sf_cases; simpl; intros; try discriminate; try reflexivity; try lia.
Qed.

(** [x < a <= b] rules out [b < x]. *)
Lemma ltb_leb_not_ltb (x a b : float) :
  (x <? a) = true -> (a <=? b) = true -> (b <? x) = false.
Proof.
  rewrite !FloatAxioms.ltb_spec, FloatAxioms.leb_spec. apply SFltb_SFleb_SFltb.
Qed.

Lemma is_nan_eq (x : float) : is_nan x = true -> x = nan.
Proof.
  intros H. rewrite <- (SF2Prim_Prim2SF x). unfold Prim2SF. rewrite H. reflexivity.
Qed.

(** No number is below NaN, and NaN is below none. *)
Lemma ltb_nan_r (x : float) : (x <? nan) = false.
Proof.
  rewrite FloatAxioms.ltb_spec. change (Prim2SF nan) with S754_nan.
  unfold SFltb, SFcompare. destruct (Prim2SF x) as [s|s| |s m e]; reflexivity.
Qed.

Lemma ltb_nan_l (x : float) : (nan <? x) = false.
Proof.
  rewrite FloatAxioms.ltb_spec. change (Prim2SF nan) with S754_nan. reflexivity.
Qed.

Lemma Prim2SF_nan (x : float) : Prim2SF x = S754_nan <-> is_nan x = true.
Proof.
  split.
  - unfold Prim2SF. destruct (is_nan x); [reflexivity|].
    destruct (is_zero x); [discriminate|]. destruct (is_infinity x); [discriminate|].
    destruct (Z.frexp x) as [r e]. destruct (shr_fexp _ _ _ _ _) as [shr e'].
    destruct (shr_m shr); discriminate.
  - intros H. unfold Prim2SF. rewrite H. reflexivity.
Qed.

Lemma SFltb_false_iff (a b : spec_float) :
  SFltb b a = false <-> a = S754_nan \/ b = S754_nan \/ SFleb a b = true.
Proof.
  unfold SFltb, SFleb, SFcompare.
  destruct a as [sa|sa| |sa ma ea], b as [sb|sb| |sb mb eb];
    try (split; [intros _; auto | reflexivity]);
    sf_cases; simpl;
    (split; [intros Hx; first [discriminate | solve [auto] | exfalso; lia]
            | intros [Hx|[Hx|Hx]]; first [discriminate | reflexivity | exfalso; lia]]).
Qed.

(** The strict comparison [b < a] is false exactly when one of the two is
    NaN or [a <= b]. *)
Lemma ltb_false_iff (a b : float) :
  (b <? a) = false <-> is_nan a = true \/ is_nan b = true \/ (a <=? b) = true.
Proof.
  rewrite FloatAxioms.ltb_spec, FloatAxioms.leb_spec, SFltb_false_iff, !Prim2SF_nan.
  reflexivity.
Qed.



(** *** One turn of the sampling loop *)

Lemma bme280_read_run (w : world) (ca : ambient) (rest : list ambient) :
  bme_pending w = ca :: rest -> bme280_read w = (Ok ca, sampled w).
Proof. unfold bme280_read. intros ->. reflexivity. Qed.

(** What a turn does once the cycle was sampled, the difference computed and
    the ambient conditions read. *)
Lemma repeticao_run
  (n_value : list float) (vac : float) (st : locals) (w : world)
  (c : list string) (r : leituras) (w1 : world) (res : acdc)
  (ca : ambient) (rest : list ambient) :
  ciclo_ac st = Ok c ->
  measure (vdc_atual st) vac c w = (Ok r, w1) ->
  acdc_calc r n_value (vdc_atual st) = Ok res ->
  bme_pending w1 = ca :: rest ->
  repeticao n_value vac st w =
    let w2 := if accepted res
              then append_rows [linha res (vdc_atual st) ca] (sampled w1)
              else sampled w1 in
    if 1.1 * vdc_nominal <? adj_dc res
    then (Raise (NameError "Tensão DC ajustada perigosamente alta!"), w2)
    else (Ok {| i := if accepted res then (i st + 1)%Z else i st;
                first_measure := false;
                readings := Some r;
                results := Some res;
                vdc_atual := adj_dc res;
                diff_acdc := if accepted res then diff_acdc st ++ [dif res] else diff_acdc st;
                Delta_list := if accepted res then Delta_list st ++ [Delta res]
                              else Delta_list st |}, w2).
Proof.
  intros Hc Hm Ha Hb. unfold repeticao, accepted.
  unfold bind at 1. unfold lift at 1. rewrite Hc.
  unfold bind at 1. rewrite Hm.
  unfold bind at 1. unfold lift at 1. rewrite Ha.
  unfold bind at 1. rewrite (bme280_read_run _ _ _ Hb).
  destruct (50 <? abs (Delta res)); simpl.
  - unfold bind, ret, raise. simpl. destruct (1.1 * vdc_nominal <? adj_dc res); reflexivity.
  - unfold bind, ret, raise, registro_linha, writerows. simpl.
    destruct (1.1 * vdc_nominal <? adj_dc res); reflexivity.
Qed.

(** A cycle that [measure] returns has a trailing AC pair. *)
Lemma measure_trailing (vdc vac : float) (c : list string) (w : world)
  (r : leituras) (w' : world) :
  measure vdc vac c w = (Ok r, w') ->
  registro w' = registro w /\
  exists x4 y4,
    nth_error (std_readings r) 4 = Some x4 /\ nth_error (dut_readings r) 4 = Some y4.
Proof.
  intros H. apply measure_inv in H
    as (f & r0 & w0 & x1 & y1 & x2 & y2 & x3 & y3 & x4 & y4 & _ & H0 & _ & _ & -> & _ & Hr & _).
  split; [exact Hr|]. exists x4, y4.
  destruct c as [|s c'].
  - destruct H0 as (x0 & y0 & _ & _ & _ & -> & _). split; reflexivity.
  - destruct H0 as (d & _ & _ & _ & _ & -> & _). split; reflexivity.
Qed.

(** C2: a turn of the sampling loop whose [|Delta|] exceeds 50 is discarded:
    the count [i] of accepted repetitions, the list [diff_acdc] of accepted
    differences and the list [Delta] stay as they were and no row is written
    to the register; still the applied DC voltage becomes the cycle's
    [adj_dc] (the turn then ends in the DC safety fault when that exceeds the
    bound) and the pair handed to the next turn's [measure] is the cycle's
    trailing (phase-4) pair. *)
Theorem discarded_repetition
  (n_value : list float) (vac : float) (st : locals) (w : world)
  (c : list string) (r : leituras) (w1 : world) (res : acdc)
  (ca : ambient) (rest : list ambient) :
  ciclo_ac st = Ok c ->
  measure (vdc_atual st) vac c w = (Ok r, w1) ->
  acdc_calc r n_value (vdc_atual st) = Ok res ->
  bme_pending w1 = ca :: rest ->
  (50 <? abs (Delta res)) = true ->
  let st' := {| i := i st; first_measure := false; readings := Some r;
                results := Some res; vdc_atual := adj_dc res;
                diff_acdc := diff_acdc st; Delta_list := Delta_list st |} in
  repeticao n_value vac st w =
    (if 1.1 * vdc_nominal <? adj_dc res
     then Raise (NameError "Tensão DC ajustada perigosamente alta!")
     else Ok st', sampled w1) /\
  registro (sampled w1) = registro w /\
  exists x4 y4,
    nth_error (std_readings r) 4 = Some x4 /\
    nth_error (dut_readings r) 4 = Some y4 /\
    ciclo_ac st' = Ok [x4; y4].
Proof.
  intros Hc Hm Ha Hb HD st'.
  rewrite (repeticao_run n_value vac st w c r w1 res ca rest Hc Hm Ha Hb). unfold accepted. rewrite HD. simpl.
  destruct (measure_trailing _ _ _ _ _ _ Hm) as (Hr & x4 & y4 & Hx & Hy).
  repeat split.
  - destruct (1.1 * vdc_nominal <? adj_dc res); reflexivity.
  - exact Hr.
  - exists x4, y4. repeat split; auto.
    unfold ciclo_ac, st', index. cbn [first_measure readings].
    rewrite Hx. cbn [obind]. rewrite Hy. reflexivity.
Qed.


(** *** The sampling loop *)

Lemma bme280_read_inv (w : world) (ca : ambient) (w' : world) :
  bme280_read w = (Ok ca, w') -> bme_pending w = ca :: tl (bme_pending w) /\ w' = sampled w.
Proof.
  unfold bme280_read. destruct (bme_pending w) as [|a rest]; try discriminate.
  intros H; injection H as <- <-. auto.
Qed.

(** A turn that ends normally computed a result, passed the DC bound and
    updated the variables of the loop by it. *)
Lemma repeticao_inv (n_value : list float) (vac : float) (st : locals) (w : world)
  (st' : locals) (w' : world) :
  repeticao n_value vac st w = (Ok st', w') ->
  exists res,
    results st' = Some res /\
    (1.1 * vdc_nominal <? adj_dc res) = false /\
    vdc_atual st' = adj_dc res /\
    i st' = (if accepted res then i st + 1 else i st)%Z /\
    diff_acdc st' = (if accepted res then diff_acdc st ++ [dif res] else diff_acdc st).
Proof.
  intros H. pose proof H as H'. unfold repeticao in H'.
  step H' as c wc Ec. unfold lift in Ec.
  destruct (ciclo_ac st) as [c'| |] eqn:Hc; try discriminate. injection Ec as <- <-.
  step H' as r w1 Hm.
  step H' as res wa Ea. unfold lift in Ea.
  destruct (acdc_calc r n_value (vdc_atual st)) as [res'| |] eqn:Ha; try discriminate.
  injection Ea as <- <-.
  step H' as ca w2 Eb. apply bme280_read_inv in Eb as (Hb & ->). clear H'.
  rewrite (repeticao_run n_value vac st w c' r w1 res' ca _ Hc Hm Ha Hb) in H.
  cbv zeta in H.
  destruct (1.1 * vdc_nominal <? adj_dc res') eqn:Hlt; try discriminate.
  injection H as <- <-. exists res'. simpl. repeat split; auto.
Qed.

(** What the turns of the loop leave in its variables: the differences of
    the accepted repetitions, in order, and their count. *)
Lemma turns_accumulate (n_value : list float) (vac : float) (st : locals) (w : world)
  (cycles : list acdc) (st' : locals) (w' : world) :
  turns n_value vac st w cycles st' w' ->
  diff_acdc st' = diff_acdc st ++ map dif (filter accepted cycles) /\
  i st' = (i st + Z.of_nat (length (filter accepted cycles)))%Z /\
  (i st' <= Z.max (i st) repeticoes)%Z.
Proof.
  induction 1 as [st w | st w st1 w1 res cycles st2 w2 Hi Hrun Hres _ IH].
  - simpl. rewrite app_nil_r. repeat split; lia.
  - apply repeticao_inv in Hrun as (res' & Hres' & _ & _ & Hi1 & Hd1).
    rewrite Hres in Hres'. injection Hres' as <-.
    destruct IH as (IHd & IHi & IHm). apply Z.ltb_lt in Hi.
    rewrite IHd, IHi, Hd1, Hi1 in *. simpl.
    destruct (accepted res); simpl; rewrite <- ?app_assoc; simpl; repeat split; lia.
Qed.

(** A loop that ends normally went through turns and left with the count at
    the target. *)
Lemma sampling_turns (fuel : nat) (n_value : list float) (vac : float) (st : locals)
  (w : world) (st' : locals) (w' : world) :
  sampling fuel n_value vac st w = (Ok st', w') ->
  exists cycles,
    turns n_value vac st w cycles st' w' /\ (i st' <? repeticoes)%Z = false.
Proof.
  revert st w. induction fuel as [|fuel IH]; intros st w H; simpl in H.
  - destruct (i st <? repeticoes)%Z eqn:Hi; try discriminate.
    injection H as <- <-. exists []. split; [constructor | exact Hi].
  - destruct (i st <? repeticoes)%Z eqn:Hi.
    + step H as st1 w1 E.
      destruct (repeticao_inv _ _ _ _ _ _ E) as (res & Hres & _).
      apply IH in H as (cycles & Ht & Hexit).
      exists (res :: cycles). split; [|exact Hexit].
      econstructor; eauto.
    + injection H as <- <-. exists []. split; [constructor | exact Hi].
Qed.

(** With fuel for them, the loop goes through the turns. *)
Lemma turns_sampling (n_value : list float) (vac : float) (st : locals) (w : world)
  (cycles : list acdc) (st' : locals) (w' : world) :
  turns n_value vac st w cycles st' w' ->
  forall fuel,
    sampling (length cycles + fuel) n_value vac st w = sampling fuel n_value vac st' w'.
Proof.
  induction 1 as [st w | st w st1 w1 res cycles st2 w2 Hi Hrun Hres _ IH]; intros fuel.
  - reflexivity.
  - simpl. rewrite Hi. unfold bind at 1. rewrite Hrun. apply IH.
Qed.

(** *** One frequency point *)

Lemma writerows_inv (rows : list row) (w : world) (u : unit) (w' : world) :
  writerows rows w = (Ok u, w') -> w' = append_rows rows w.
Proof. unfold writerows. intros H; injection H as _ <-. reflexivity. Qed.


(** *** Faults and the shutdown *)

Lemma sampling_fault (n_value : list float) (vac : float) (st : locals) (w : world)
  (cycles : list acdc) (st' : locals) (w' : world) (fuel : nat) (e : exn) (w'' : world) :
  turns n_value vac st w cycles st' w' ->
  (length cycles < fuel)%nat ->
  (i st' <? repeticoes)%Z = true ->
  repeticao n_value vac st' w' = (Raise e, w'') ->
  sampling fuel n_value vac st w = (Raise e, w'').
Proof.
  intros Ht Hfuel Hi Hrun.
  replace fuel with (length cycles + S (fuel - S (length cycles)))%nat by lia.
  rewrite (turns_sampling _ _ _ _ _ _ _ Ht). simpl. rewrite Hi.
  unfold bind. rewrite Hrun. reflexivity.
Qed.

(** A frequency point that runs into a voltage bound raises [NameError]
    there. *)
Lemma frequency_point_fault (fuel : nat) (value : string) (w w2 : world) :
  safety_fault fuel value w w2 ->
  exists msg, frequency_point fuel value w = (Raise (NameError msg), w2).
Proof.
  intros [f n w1 vac wv Hf Hn He Hac
         | f n w1 vac wv cycles st w3 c r w4 res ca rest
             Hf Hn He Hac Ht Hfuel Hi Hc Hm Ha Hb Hdc];
    eexists; unfold frequency_point;
    unfold bind at 1; unfold lift at 1; rewrite Hf;
    unfold bind at 1; unfold set_freq at 1;
    unfold bind at 1; rewrite Hn;
    unfold bind at 1; rewrite He;
    unfold bind at 1; unfold registro_frequencia, writerows at 1;
    rewrite Hac.
  - reflexivity.
  - unfold bind at 1. unfold ret at 1. unfold bind at 1.
    erewrite sampling_fault; [reflexivity | exact Ht | exact Hfuel | exact Hi |].
    rewrite (repeticao_run _ _ _ _ c r w4 res ca rest Hc Hm Ha Hb).
    cbv zeta. rewrite Hdc. reflexivity.
Qed.

Lemma frequencies_app (fuel : nat) (done rest : list string) (w w1 : world) :
  frequencies fuel done w = (Ok tt, w1) ->
  frequencies fuel (done ++ rest) w = frequencies fuel rest w1.
Proof.
  unfold frequencies. revert w. induction done as [|v done IH]; intros w H; simpl in *.
  - injection H as <-. reflexivity.
  - unfold bind in *. destruct (frequency_point fuel v w) as [[[]| |] w0]; try discriminate.
    apply IH. exact H.
Qed.

Lemma stop_instruments_run (w : world) :
  exists w', stop_instruments w = (Ok tt, w') /\
    bus w' = bus w ++ shutdown_events /\ registro w' = registro w /\
    dvm_pending w' = dvm_pending w /\ bme_pending w' = bme_pending w.
Proof.
  eexists. split; [reflexivity|]. simpl. rewrite <- !app_assoc. auto.
Qed.

Lemma total_emit (e : event) : total (emit e).
Proof. intros w. reflexivity. Qed.

Lemma total_writerows (rows : list row) : total (writerows rows).
Proof. intros w. reflexivity. Qed.

Lemma total_seq (m1 m2 : io unit) : total m1 -> total m2 -> total (m1 ;; m2).
Proof.
  intros H1 H2 w. unfold bind. rewrite (H1 w). cbn [snd]. rewrite (H2 (snd (m1 w))) at 1.
  reflexivity.
Qed.

Lemma bind_total (m : io unit) (f : unit -> io unit) (w : world) :
  total m -> bind m f w = f tt (snd (m w)).
Proof. intros H. unfold bind. rewrite (H w). reflexivity. Qed.

Lemma total_prelude : total prelude.
Proof.
  unfold prelude, bme280_init, instrument_init, meas_init, criar_registro, aquecimento,
    espera.
  repeat first [apply total_seq | apply total_emit | apply total_writerows].
Qed.

Lemma bind_assoc {A B C : Type} (m : io A) (f : A -> io B) (g : B -> io C) (w : world) :
  bind (bind m f) g w = bind m (fun a => bind (f a) g) w.
Proof. unfold bind. destruct (m w) as [[a| |] w']; reflexivity. Qed.

Lemma bind_ext {A B : Type} (m : io A) (f g : A -> io B) (w : world) :
  (forall a w', f a w' = g a w') -> bind m f w = bind m g w.
Proof. intros H. unfold bind. destruct (m w) as [[a| |] w']; auto. Qed.

Lemma main_try_started (fuel : nat) (w : world) :
  main_try fuel w = (frequencies fuel freq_array ;; stop_instruments) (started w).
Proof.
  unfold started. rewrite <- (bind_total prelude (fun _ => _) w total_prelude).
  unfold main_try, prelude, frequencies.
  repeat (rewrite bind_assoc; apply bind_ext; intros ? ?).
  reflexivity.
Qed.

(** Whatever is raised inside [main], the shutdown follows and nothing else. *)
Lemma main_except (fuel : nat) (w : world) (e : exn) (w1 : world) :
  frequencies fuel freq_array (started w) = (Raise e, w1) ->
  main fuel w = stop_instruments w1.
Proof.
  intros H. unfold main, try_except. rewrite main_try_started.
  unfold bind. rewrite H. reflexivity.
Qed.

(** C3: when a frequency point of the run meets one of the two voltage
    bounds (the equilibrium AC voltage above 1.1 times the nominal AC voltage,
    or a DC correction of the sampling loop above 1.1 times the nominal DC
    voltage), [main] ends right there with the shutdown: after the commands
    issued up to the fault the bus carries the switch reset and the two
    output-off commands and nothing else, no further answer is taken from the
    detector and no further row is written, so the rest of the frequency
    point and the remaining frequencies are not sampled. *)
Theorem safety_fault_halts_the_run
  (fuel : nat) (done : list string) (value : string) (rest : list string)
  (w w1 w2 : world) :
  freq_array = done ++ value :: rest ->
  frequencies fuel done (started w) = (Ok tt, w1) ->
  safety_fault fuel value w1 w2 ->
  exists w',
    main fuel w = (Ok tt, w') /\
    bus w' = bus w2 ++ shutdown_events /\
    dvm_pending w' = dvm_pending w2 /\
    registro w' = registro w2.
Proof.
  intros Hfa Hdone Hfault.
  destruct (frequency_point_fault _ _ _ _ Hfault) as (msg & Hfp).
  assert (Hraise : frequencies fuel freq_array (started w) = (Raise (NameError msg), w2)).
  { rewrite Hfa, (frequencies_app _ _ _ _ _ Hdone).
    unfold frequencies. simpl. unfold bind. rewrite Hfp. reflexivity. }
  rewrite (main_except _ _ _ _ Hraise).
  destruct (stop_instruments_run w2) as (w' & Hs & Hb & Hr & Hd & _).
  exists w'. auto.
Qed.

(** *** The linearity estimator *)

Lemma mod2_even (j : Z) : (j mod 2 =? 0)%Z = Z.even j.
Proof.
  destruct (Z.even j) eqn:E.
  - apply Z.even_spec in E. destruct E as [q ->].
    rewrite Z.mul_comm, Z.mod_mul by lia. reflexivity.
  - apply Z.eqb_neq. intros H0. apply Z.mod_divide in H0; [|lia].
    destruct H0 as [q ->]. rewrite Z.even_mul in E. simpl in E.
    rewrite orb_true_r in E. discriminate.
Qed.

Lemma ler_std_inv (w : world) (x : string) (w' : world) :
  ler_std w = (Ok x, w') ->
  dvm_pending w = x :: dvm_pending w' /\
  bus w' = bus w ++ [dvm_write (SENS_CHAN 2); dvm_write (SENS_VOLT_RANG 2);
                     dvm_write INIT_CONT_OFF; dvm_write READ] /\
  registro w' = registro w /\ freq w' = freq w /\ bme_pending w' = bme_pending w.
Proof. apply ler_inv. Qed.

Lemma ler_dut_inv (w : world) (x : string) (w' : world) :
  ler_dut w = (Ok x, w') ->
  dvm_pending w = x :: dvm_pending w' /\
  bus w' = bus w ++ [dvm_write (SENS_CHAN 1); dvm_write (SENS_VOLT_RANG 1);
                     dvm_write INIT_CONT_OFF; dvm_write READ] /\
  registro w' = registro w /\ freq w' = freq w /\ bme_pending w' = bme_pending w.
Proof. apply ler_inv. Qed.

Lemma n_measure_step_inv (j : Z) (std dut : list string) (ks : list Z) (w : world)
  (s' : list string * list string * list Z) (w' : world) :
  n_measure_step j (std, dut, ks) w = (Ok s', w') ->
  exists x y,
    dvm_pending w = x :: y :: dvm_pending w' /\
    s' = (std ++ [x], dut ++ [y], ks ++ [weight j]) /\
    bus w' = bus w ++ perturbation_events j /\
    freq w' = freq w.
Proof.
  unfold n_measure_step. rewrite mod2_even.
  assert (Hw : weight j = if Z.even j then (-100)%Z else 100%Z)
    by (unfold weight; rewrite <- Z.negb_even; destruct (Z.even j); reflexivity).
  assert (Hl : level j = if Z.even j then 0.99 * vdc_nominal else 1.01 * vdc_nominal)
    by (unfold level; rewrite <- Z.negb_even; destruct (Z.even j); reflexivity).
  rewrite Hw. unfold perturbation_events. rewrite Hl. clear Hw Hl.
  destruct (Z.even j); cbv iota beta; intros H.
  all: step_emit H; step_emit H; step_emit H; step_emit H; step_emit H; step_emit H.
  all: step H as x wx Ex; apply ler_std_inv in Ex as (Px & Bx & Rx & Fx & Mx).
  all: step H as y wy Ey; apply ler_dut_inv in Ey as (Py & By & Ry & Fy & My).
  all: step H as u1 w1 E1; apply print_last_inv in E1 as (-> & _).
  all: step H as u2 w2 E2; apply print_last_inv in E2 as (-> & _).
  all: injection H as <- <-.
  all: exists x, y; simpl in *; rewrite Px, Py, By, Bx, Fy, Fx;
    unfold reading_events; simpl; rewrite <- !app_assoc; auto.
Qed.

Lemma n_measure_loop_inv (l : list Z) (std dut : list string) (ks : list Z) (w : world)
  (s' : list string * list string * list Z) (w' : world) :
  for_each l n_measure_step (std, dut, ks) w = (Ok s', w') ->
  exists pairs,
    length pairs = length l /\
    dvm_pending w = answers pairs ++ dvm_pending w' /\
    s' = (std ++ map fst pairs, dut ++ map snd pairs, ks ++ map weight l) /\
    bus w' = bus w ++ flat_map perturbation_events l /\
    freq w' = freq w.
Proof.
  revert std dut ks w. induction l as [|j l IH]; intros std dut ks w H; simpl in H.
  - injection H as <- <-. exists []. simpl. rewrite !app_nil_r. auto.
  - step H as s1 w1 E. apply n_measure_step_inv in E as (x & y & P & -> & B & F).
    apply IH in H as (pairs & Hlen & P' & -> & B' & F').
    exists ((x, y) :: pairs). simpl. rewrite Hlen, P, P', B', B, F', F.
    rewrite <- !app_assoc. simpl. auto.
Qed.

Lemma range_length (a b : Z) : length (range a b) = Z.to_nat (b - a).
Proof. unfold range. rewrite length_map, length_seq. reflexivity. Qed.

Lemma rounded_up_code (M : Z) :
  (if negb (M mod 2 =? 0)%Z then (M + 1)%Z else M) = rounded_up M.
Proof. unfold rounded_up. rewrite mod2_even. destruct (Z.even M); reflexivity. Qed.

Lemma rounded_up_even (M : Z) : Z.even (rounded_up M) = true /\ (M <= rounded_up M <= M + 1)%Z.
Proof.
  unfold rounded_up. destruct (Z.even M) eqn:E.
  - split; [exact E | lia].
  - split; [|lia]. rewrite Z.even_add, E. reflexivity.
Qed.

(** What a run of [n_measure] that returns has done. *)
Lemma n_measure_inv (M : Z) (w : world) (n : n_array) (w' : world) :
  n_measure M w = (Ok n, w') ->
  exists f x0 y0 pairs,
    freq w = Some f /\
    length pairs = Z.to_nat (rounded_up M) /\
    dvm_pending w = x0 :: y0 :: answers pairs ++ dvm_pending w' /\
    calculo_do_n (x0 :: map fst pairs) (y0 :: map snd pairs)
      (map weight (range 1 (rounded_up M + 1))) = Ok n /\
    bus w' = bus w ++ baseline_events f ++
             flat_map perturbation_events (range 1 (rounded_up M + 1)) ++ [sw_write_raw ac] /\
    freq w' = freq w.
Proof.
  unfold n_measure. rewrite rounded_up_code. intros H.
  step_emit H. step H as f wf Ef. apply get_freq_inv in Ef as (-> & Hf).
  step_emit H. step_emit H. step_emit H. step_emit H. step_emit H.
  step H as x wx Ex. apply ler_std_inv in Ex as (Px & Bx & Rx & Fx & Mx).
  step H as y wy Ey. apply ler_dut_inv in Ey as (Py & By & Ry & Fy & My).
  step H as u1 w1 E1. apply print_last_inv in E1 as (-> & _).
  step H as u2 w2 E2. apply print_last_inv in E2 as (-> & _).
  step H as s ws Es. destruct s as [[std dut] ks].
  apply n_measure_loop_inv in Es as (pairs & Hlen & P & Hs & B & F).
  injection Hs as -> -> ->.
  step_emit H. unfold lift in H.
  destruct (calculo_do_n _ _ _) as [n'| |] eqn:Hcalc; try discriminate.
  injection H as <- <-.
  exists f, x, y, pairs. simpl in *. repeat split; auto.
  - rewrite Hlen, range_length. f_equal. lia.
  - rewrite Px, Py, P. reflexivity.
  - rewrite B, By, Bx. simpl. unfold baseline_events, reading_events.
    rewrite <- !app_assoc. reflexivity.
  - congruence.
Qed.

Lemma calculo_do_n_k (std dut : list string) (ks : list Z) (n : n_array) :
  calculo_do_n std dut ks = Ok n -> k n = ks.
Proof.
  unfold calculo_do_n.
  repeat match goal with
         | |- obind ?o _ = _ -> _ => destruct o; simpl; try discriminate
         end.
  intros H; injection H as <-. reflexivity.
Qed.

Lemma nth_range (a b : Z) (j : nat) :
  (j < Z.to_nat (b - a))%nat -> nth j (range a b) 0%Z = (a + Z.of_nat j)%Z.
Proof.
  intros H. unfold range. set (f := fun j : nat => (a + Z.of_nat j)%Z).
  rewrite (nth_indep _ 0%Z (f 0%nat)) by (rewrite length_map, length_seq; exact H).
  rewrite map_nth, seq_nth by exact H. reflexivity.
Qed.

(** C5: for a request of [M > 0] repetitions, a run of [n_measure] that
    returns made exactly [M] perturbations when [M] is even and [M + 1] when
    [M] is odd, a count that is even and at least [M]: so many pairs of
    answers follow the baseline pair, so many weights are in [k], and after
    the baseline reading the bus carries the commands of exactly that many
    perturbations, then the switch back to AC.  The [j]-th perturbation
    (from 1) applies +1 % of the nominal DC voltage with weight +100 when [j]
    is odd, -1 % with weight -100 when [j] is even. *)
Theorem n_measure_iterations (M : Z) (w : world) (n : n_array) (w' : world) :
  (0 < M)%Z ->
  n_measure M w = (Ok n, w') ->
  let count := if Z.even M then M else (M + 1)%Z in
  Z.even count = true /\ (M <= count)%Z /\
  length (k n) = Z.to_nat count /\
  (forall j, (1 <= j <= count)%Z ->
     nth (Z.to_nat (j - 1)) (k n) 0%Z = (if Z.odd j then 100 else -100)%Z /\
     level j = if Z.odd j then 1.01 * vdc_nominal else 0.99 * vdc_nominal) /\
  exists f x0 y0 pairs,
    length pairs = Z.to_nat count /\
    dvm_pending w = x0 :: y0 :: answers pairs ++ dvm_pending w' /\
    bus w' = bus w ++ baseline_events f ++
             flat_map perturbation_events (range 1 (count + 1)) ++ [sw_write_raw ac].
Proof.
  intros HM H count. fold (rounded_up M) in count. subst count.
  apply n_measure_inv in H as (f & x0 & y0 & pairs & Hf & Hlen & P & Hcalc & B & _).
  apply calculo_do_n_k in Hcalc.
  destruct (rounded_up_even M) as (Heven & Hle).
  repeat split; try exact Heven; try lia.
  - rewrite Hcalc, length_map, range_length. f_equal. lia.
  - rewrite Hcalc.
    rewrite (nth_indep _ 0%Z (weight 0)) by (rewrite length_map, range_length; lia).
    rewrite map_nth, nth_range by lia. unfold weight.
    replace (1 + Z.of_nat (Z.to_nat (j - 1)))%Z with j by lia. reflexivity.
  - exists f, x0, y0, pairs. auto.
Qed.

(** *** The equilibrium solver *)

Lemma SFltb_asym (x y : spec_float) :
  SFltb x y = true -> SFltb y x = false /\ SFleb y x = false /\ SFeqb x y = false.
Proof.
  unfold SFltb, SFleb, SFeqb, SFcompare.
  destruct x as [sx|sx| |sx mx ex], y as [sy|sy| |sy my ey];
    try discriminate; sf_cases; simpl; intros;
    try discriminate; repeat split; try reflexivity; try lia.
Qed.

(** [x < y] rules out [y < x], [y <= x] and [x == y]. *)
Lemma ltb_asym (x y : float) :
  (x <? y) = true -> (y <? x) = false /\ (y <=? x) = false /\ (x =? y) = false.
Proof.
  rewrite !FloatAxioms.ltb_spec, FloatAxioms.leb_spec, FloatAxioms.eqb_spec.
  apply SFltb_asym.
Qed.

Lemma ltb_not_nan (x y : float) : (x <? y) = true -> is_nan x = false /\ is_nan y = false.
Proof.
  intros H. split.
  - destruct (is_nan x) eqn:E; [|reflexivity].
    rewrite (is_nan_eq _ E), ltb_nan_l in H. discriminate.
  - destruct (is_nan y) eqn:E; [|reflexivity].
    rewrite (is_nan_eq _ E), ltb_nan_r in H. discriminate.
Qed.

(** [numpy.interp] on two sample points. *)
Lemma interp_two (x x1 x2 y1 y2 : float) :
  numpy.interp x [x1; x2] [y1; y2] =
    Ok (if is_nan x then x
        else if x2 <? x then y2
        else if x <? x1 then y1
        else if x2 <=? x then y2
        else if x1 =? x then y1
        else
          let slope := (y2 - y1) / (x2 - x1) in
          let r := slope * (x - x1) + y1 in
          if is_nan r then
            let r' := slope * (x - x2) + y2 in
            if is_nan r' && (y1 =? y2) then y1 else r'
          else r).
Proof.
  unfold numpy.interp, numpy.search. simpl.
  destruct (is_nan x); [reflexivity|].
  destruct (x2 <? x); [reflexivity|].
  destruct (x <? x1); [reflexivity|].
  destruct (x2 <=? x); simpl; [reflexivity|].
  destruct (x1 =? x); [reflexivity|].
  destruct (is_nan _); [|reflexivity].
  destruct (is_nan _ && _); reflexivity.
Qed.

Lemma float_of_inv (a : string) (x : float) : float_of a = Ok x -> py_float a = Some x.
Proof. unfold float_of. destruct (py_float a); try discriminate. intros H; injection H as <-. reflexivity. Qed.

(** What a run of [equilibrio] that returns has done. *)
Lemma equilibrio_inv (w : world) (v : float) (w' : world) :
  equilibrio w = (Ok v, w') ->
  exists f r0 r1 r2 xi x1 x2,
    freq w = Some f /\
    dvm_pending w = r0 :: r1 :: r2 :: dvm_pending w' /\
    py_float r0 = Some xi /\ py_float r1 = Some x1 /\ py_float r2 = Some x2 /\
    numpy.interp xi [x1; x2] [0.999 * vac_nominal; 1.001 * vac_nominal] = Ok v /\
    registro w' = registro w.
Proof.
  unfold equilibrio. intros H.
  step H as f wf Ef. apply get_freq_inv in Ef as (-> & Hf).
  step_emit H. step_emit H. step_emit H. step_emit H. step_emit H. step_emit H. step_emit H.
  step H as r0 w0 E0. apply ler_dut_inv in E0 as (P0 & _ & R0 & _).
  step H as u0 wu0 Eu. apply print_last_inv in Eu as (-> & _).
  step_emit H. step_emit H.
  step H as r1 w1 E1. apply ler_dut_inv in E1 as (P1 & _ & R1 & _).
  step H as u1 wu1 Eu. apply print_last_inv in Eu as (-> & _).
  step_emit H. step_emit H. step_emit H. step_emit H. step_emit H. step_emit H.
  step H as r2 w2 E2. apply ler_dut_inv in E2 as (P2 & _ & R2 & _).
  step H as u2 wu2 Eu. apply print_last_inv in Eu as (-> & _).
  step_emit H. unfold lift in H.
  destruct (float_of r1) as [x1| |] eqn:H1; cbn [obind] in H; try discriminate.
  destruct (float_of r2) as [x2| |] eqn:H2; cbn [obind] in H; try discriminate.
  destruct (float_of r0) as [xi| |] eqn:Hi; cbn [obind] in H; try discriminate.
  apply float_of_inv in H1, H2, Hi.
  exists f, r0, r1, r2, xi, x1, x2.
  destruct (numpy.interp xi [x1; x2] _) as [v'| |] eqn:Hv; try discriminate.
  injection H as <- <-.
  cbn [dvm_pending registro log] in *.
  repeat split; auto; try congruence.
Qed.

(** C4 as amended: when [equilibrio] returns, its value is
    [numpy.interp(xi, xp, yp)] for the target reading [xi], the bracket
    readings [xp = (x1, x2)] and [yp = (0.999 * vac_nominal, 1.001 *
    vac_nominal)].  Strictly inside the bracket that is the point of the line
    through the two bracket points (when that computation is a number);
    outside it there is no extrapolation: the value is clamped to [yp[1]]
    above [xp[1]] and to [yp[0]] below [xp[0]] (for an increasing bracket). *)
Theorem equilibrio_interpolates_and_clamps (w : world) (v : float) (w' : world) :
  equilibrio w = (Ok v, w') ->
  exists r0 r1 r2 xi x1 x2,
    dvm_pending w = r0 :: r1 :: r2 :: dvm_pending w' /\
    py_float r0 = Some xi /\ py_float r1 = Some x1 /\ py_float r2 = Some x2 /\
    let y1 := 0.999 * vac_nominal in
    let y2 := 1.001 * vac_nominal in
    numpy.interp xi [x1; x2] [y1; y2] = Ok v /\
    ((x1 <? xi) = true -> (xi <? x2) = true ->
       is_nan ((y2 - y1) / (x2 - x1) * (xi - x1) + y1) = false ->
       v = (y2 - y1) / (x2 - x1) * (xi - x1) + y1) /\
    ((x2 <? xi) = true -> v = y2) /\
    ((xi <? x1) = true -> (x1 <=? x2) = true -> v = y1).
Proof.
  intros H. apply equilibrio_inv in H
    as (f & r0 & r1 & r2 & xi & x1 & x2 & _ & P & H0 & H1 & H2 & Hv & _).
  exists r0, r1, r2, xi, x1, x2. repeat split; auto.
  - intros Hlo Hhi Hnan. rewrite interp_two in Hv.
    destruct (ltb_not_nan _ _ Hlo) as (_ & Hn).
    destruct (ltb_asym _ _ Hlo) as (Ha & _ & Hc).
    destruct (ltb_asym _ _ Hhi) as (Hd & He & _).
    rewrite Hn, Hd, Ha, He, Hc in Hv. cbv zeta in Hv. rewrite Hnan in Hv.
    injection Hv as <-. reflexivity.
  - intros Hhi. rewrite interp_two in Hv.
    destruct (ltb_not_nan _ _ Hhi) as (_ & Hn).
    rewrite Hn, Hhi in Hv. injection Hv as <-. reflexivity.
  - intros Hlo Hinc. rewrite interp_two in Hv.
    destruct (ltb_not_nan _ _ Hlo) as (Hn & _).
    rewrite Hn, (ltb_leb_not_ltb _ _ _ Hlo Hinc), Hlo in Hv.
    injection Hv as <-. reflexivity.
Qed.

(** *** What goes out on the bus stays there *)

Lemma grows_ret {A : Type} (a : A) : grows (ret a).
Proof. intros w o w' H; injection H as _ <-. exists []. symmetry; apply app_nil_r. Qed.

Lemma grows_raise {A : Type} (e : exn) : grows (@raise A e).
Proof. intros w o w' H; injection H as _ <-. exists []. symmetry; apply app_nil_r. Qed.

Lemma grows_lift {A : Type} (o : outcome A) : grows (lift o).
Proof. intros w o' w' H; injection H as _ <-. exists []. symmetry; apply app_nil_r. Qed.

Lemma grows_emit (e : event) : grows (emit e).
Proof. intros w o w' H; injection H as _ <-. exists [e]. reflexivity. Qed.

Lemma grows_writerows (rows : list row) : grows (writerows rows).
Proof. intros w o w' H; injection H as _ <-. exists []. symmetry; apply app_nil_r. Qed.

Lemma grows_set_freq (f : float) : grows (set_freq f).
Proof. intros w o w' H; injection H as _ <-. exists []. symmetry; apply app_nil_r. Qed.

Lemma grows_get_freq : grows get_freq.
Proof.
  intros w o w' H. unfold get_freq in H.
  destruct (freq w); injection H as _ <-; exists []; symmetry; apply app_nil_r.
Qed.

Lemma grows_bme280_read : grows bme280_read.
Proof.
  intros w o w' H. unfold bme280_read in H.
  destruct (bme_pending w); injection H as _ <-; exists []; symmetry; apply app_nil_r.
Qed.

Lemma grows_bind {A B : Type} (m : io A) (f : A -> io B) :
  grows m -> (forall a, grows (f a)) -> grows (bind m f).
Proof.
  intros Hm Hf w o w' H. unfold bind in H.
  destruct (m w) as [[a| |] w1] eqn:E.
  - destruct (Hm _ _ _ E) as (t1 & H1). destruct (Hf a _ _ _ H) as (t2 & H2).
    exists (t1 ++ t2). rewrite H2, H1, app_assoc. reflexivity.
  - injection H as _ <-. exact (Hm _ _ _ E).
  - injection H as _ <-. exact (Hm _ _ _ E).
Qed.

Lemma grows_dvm_query_READ : grows dvm_query_READ.
Proof.
  unfold dvm_query_READ. apply grows_bind; [apply grows_emit|]. intros _ w o w' H.
  destruct (dvm_pending w); injection H as _ <-; exists []; symmetry; apply app_nil_r.
Qed.

Lemma grows_for_each {A S : Type} (l : list A) (body : A -> S -> io S) (s : S) :
  (forall a s', grows (body a s')) -> grows (for_each l body s).
Proof.
  intros Hb. revert s. induction l as [|a l IH]; intros s; simpl.
  - apply grows_ret.
  - apply grows_bind; [apply Hb | exact IH].
Qed.

Ltac grows_step :=
  first
    [ apply grows_ret | apply grows_raise | apply grows_lift | apply grows_emit
    | apply grows_writerows | apply grows_set_freq | apply grows_get_freq
    | apply grows_bme280_read | apply grows_dvm_query_READ
    | apply grows_bind; [|intros ?] ].

Ltac grows_auto := repeat grows_step.

Lemma grows_ler_std : grows ler_std.
Proof. unfold ler_std. grows_auto. Qed.

Lemma grows_ler_dut : grows ler_dut.
Proof. unfold ler_dut. grows_auto. Qed.

Lemma grows_print_last (l : list string) : grows (print_last l).
Proof. unfold print_last. grows_auto. Qed.

Lemma grows_ciclo (c : sw_cmd) (r : leituras) : grows (ciclo c r).
Proof.
  unfold ciclo, espera, print_std, print_dut.
  repeat first [apply grows_ler_std | apply grows_ler_dut | apply grows_print_last | grows_step].
Qed.

Lemma grows_measure (vdc vac : float) (c : list string) : grows (measure vdc vac c).
Proof.
  unfold measure, espera, print_std, print_dut.
  repeat first [apply grows_ciclo | apply grows_print_last | grows_step].
  destruct c; repeat first [apply grows_ciclo | apply grows_print_last | grows_step].
Qed.

Lemma grows_repeticao (n_value : list float) (vac : float) (st : locals) :
  grows (repeticao n_value vac st).
Proof.
  unfold repeticao, registro_linha.
  apply grows_bind; [apply grows_lift | intros c].
  apply grows_bind; [apply grows_measure | intros r].
  apply grows_bind; [apply grows_lift | intros res].
  apply grows_bind; [apply grows_bme280_read | intros ca].
  apply grows_bind.
  - destruct (50 <? abs (Delta res)); grows_auto.
  - intros [[d1 d2] i']. destruct (_ <? _); grows_step.
Qed.

Lemma grows_sampling (fuel : nat) (n_value : list float) (vac : float) (st : locals) :
  grows (sampling fuel n_value vac st).
Proof.
  revert st. induction fuel as [|fuel IH]; intros st; simpl.
  - destruct (i st <? repeticoes)%Z; [|apply grows_ret].
    intros w o w' H; injection H as _ <-. exists []. symmetry; apply app_nil_r.
  - destruct (i st <? repeticoes)%Z; [|apply grows_ret].
    apply grows_bind; [apply grows_repeticao | exact (IH)].
Qed.

Lemma bind_emit {B : Type} (e : event) (f : unit -> io B) (w : world) :
  bind (emit e) f w = f tt (log e w).
Proof. reflexivity. Qed.

Lemma bind_get_freq {B : Type} (g : float -> io B) (w : world) (f : float) :
  freq w = Some f -> bind get_freq g w = g f w.
Proof. intros H. unfold bind, get_freq. rewrite H. reflexivity. Qed.

(** C9 as amended: once the linearity estimation with its fixed count 4 has
    returned, the frequency point goes on to the equilibrium solver and the
    sampling whatever the coefficients are, finite or not: no check is made
    of them anywhere.  What the frequency point ends in is what the
    equilibrium solver and the sampling loop make of the answers, and
    nothing else: an exception of [equilibrio], the fault of the AC bound,
    an exception of the sampling loop, or the normal end with the summary
    written.  In particular, when the equilibrium is within its bound and
    the turns of the loop reach the repetition target, the frequency point
    completes. *)
Theorem linearity_goes_on_to_equilibrium
  (fuel : nat) (value : string) (f : float) (w : world) (n : n_array) (w1 : world) :
  float_of value = Ok f ->
  n_measure 4 (tuned (f * 1000000) w) = (Ok n, w1) ->
  let summary := fun st : locals =>
    [blank; Media (numpy.mean (diff_acdc st));
     Desvio_padrao (numpy.std 1 (diff_acdc st)); blank; blank] in
  frequency_point fuel value w =
    match equilibrio w1 with
    | (Ok vac, w2) =>
        let w3 := append_rows [frequencia_rows value n vac] w2 in
        if 1.1 * vac_nominal <? vac
        then (Raise (NameError "Tensão AC ajustada perigosamente alta!"), w3)
        else
          match sampling fuel (n_results n) vac first_turn w3 with
          | (Ok st, w4) => (Ok tt, append_rows (summary st) w4)
          | (Raise e, w4) => (Raise e, w4)
          | (Diverge, w4) => (Diverge, w4)
          end
    | (Raise e, w2) => (Raise e, w2)
    | (Diverge, w2) => (Diverge, w2)
    end /\
  forall vac w2 cycles st w4,
    equilibrio w1 = (Ok vac, w2) ->
    (1.1 * vac_nominal <? vac) = false ->
    turns (n_results n) vac first_turn
      (append_rows [frequencia_rows value n vac] w2) cycles st w4 ->
    (i st <? repeticoes)%Z = false ->
    (length cycles <= fuel)%nat ->
    frequency_point fuel value w = (Ok tt, append_rows (summary st) w4).
Proof.
  intros Hf Hn summary.
  assert (Heq : frequency_point fuel value w =
    match equilibrio w1 with
    | (Ok vac, w2) =>
        let w3 := append_rows [frequencia_rows value n vac] w2 in
        if 1.1 * vac_nominal <? vac
        then (Raise (NameError "Tensão AC ajustada perigosamente alta!"), w3)
        else
          match sampling fuel (n_results n) vac first_turn w3 with
          | (Ok st, w4) => (Ok tt, append_rows (summary st) w4)
          | (Raise e, w4) => (Raise e, w4)
          | (Diverge, w4) => (Diverge, w4)
          end
    | (Raise e, w2) => (Raise e, w2)
    | (Diverge, w2) => (Diverge, w2)
    end).
  { unfold frequency_point.
    unfold bind at 1. unfold lift at 1. rewrite Hf.
    unfold bind at 1. unfold set_freq at 1.
    unfold bind at 1. rewrite Hn.
    unfold bind at 1. destruct (equilibrio w1) as [[vac|e|] w2]; try reflexivity.
    unfold bind at 1. unfold registro_frequencia, writerows at 1. cbv zeta.
    unfold bind at 1. destruct (1.1 * vac_nominal <? vac); [reflexivity|].
    unfold ret at 1. unfold bind at 1. fold first_turn.
    destruct (sampling fuel (n_results n) vac first_turn
                (append_rows [frequencia_rows value n vac] w2)) as [[st|e|] w4];
      reflexivity. }
  split; [exact Heq|].
  intros vac w2 cycles st w4 He Hac Ht Hexit Hfuel.
  rewrite Heq, He. cbv zeta. rewrite Hac.
  replace fuel with (length cycles + (fuel - length cycles))%nat by lia.
  rewrite (turns_sampling _ _ _ _ _ _ _ Ht).
  destruct (fuel - length cycles)%nat; simpl; rewrite Hexit; reflexivity.
Qed.

(** *** Rounding an integer to binary64 *)

Local Open Scope Z_scope.




Lemma digits2_pos_bound (m : positive) :
  2 ^ (Z.pos (digits2_pos m) - 1) <= Z.pos m.
Proof.
  induction m as [m IH|m IH|]; cbn [digits2_pos].
  - rewrite Pos2Z.inj_succ. replace (Z.succ (Z.pos (digits2_pos m)) - 1)
      with (Z.succ (Z.pos (digits2_pos m) - 1)) by lia.
    rewrite Z.pow_succ_r by lia. lia.
  - rewrite Pos2Z.inj_succ. replace (Z.succ (Z.pos (digits2_pos m)) - 1)
      with (Z.succ (Z.pos (digits2_pos m) - 1)) by lia.
    rewrite Z.pow_succ_r by lia. lia.
  - simpl. lia.
Qed.








Local Close Scope Z_scope.



(** *** Sums, means and standard deviations *)

Section Closed.
Variable P : float -> Prop.
Hypothesis P_zero : P 0.
Hypothesis P_add : forall a b, P a -> P b -> P (a + b).









End Closed.



Lemma traverse_inv (l : list string) (xs : list float) :
  traverse float_of l = Ok xs -> map py_float l = map Some xs.
Proof.
  revert xs. induction l as [|a l IH]; intros xs H; simpl in H.
  - injection H as <-. reflexivity.
  - destruct (float_of a) as [x| |] eqn:Ha; cbn [obind] in H; try discriminate.
    destruct (traverse float_of l) as [xs'| |]; cbn [obind] in H; try discriminate.
    injection H as <-. simpl. rewrite (float_of_inv _ _ Ha), (IH xs' eq_refl). reflexivity.
Qed.

Lemma zip_with_length {A B C : Type} (f : A -> B -> C) (l : list A) (l' : list B) :
  length l = length l' -> length (numpy.zip_with f l l') = length l'.
Proof.
  revert l'. induction l as [|a l IH]; intros [|b l'] H; simpl in *; try discriminate; auto.
Qed.

(** What [calculo_do_n] returns, when it returns. *)
Lemma calculo_do_n_inv (std dut : list string) (ks : list Z) (n : n_array) :
  calculo_do_n std dut ks = Ok n ->
  k n = ks /\
  (exists x0 y0, nth_error std 0 = Some x0 /\ py_float x0 = Some (X0 n) /\
                 nth_error dut 0 = Some y0 /\ py_float y0 = Some (Y0 n)) /\
  map py_float (tl std) = map Some (Xi n) /\
  map py_float (tl dut) = map Some (Yi n) /\
  nX n = numpy.zip_with (fun x kz => x * of_int kz) (map (fun a => a / X0 n - 1) (Xi n)) ks /\
  nY n = numpy.zip_with (fun y kz => y * of_int kz) (map (fun a => a / Y0 n - 1) (Yi n)) ks /\
  length (nX n) = length ks /\ length (nY n) = length ks /\
  n_results n = [numpy.mean (nX n); numpy.std 1 (nX n); numpy.mean (nY n); numpy.std 1 (nY n)].
Proof.
  unfold calculo_do_n, index. intros H.
  destruct (nth_error std 0) as [x0|] eqn:Hx0; cbn [obind] in H; try discriminate.
  destruct (float_of x0) as [vX0| |] eqn:HX0; cbn [obind] in H; try discriminate.
  destruct (nth_error dut 0) as [y0|] eqn:Hy0; cbn [obind] in H; try discriminate.
  destruct (float_of y0) as [vY0| |] eqn:HY0; cbn [obind] in H; try discriminate.
  destruct (traverse float_of (tl std)) as [vXi| |] eqn:HXi; cbn [obind] in H; try discriminate.
  destruct (traverse float_of (tl dut)) as [vYi| |] eqn:HYi; cbn [obind] in H; try discriminate.
  unfold multiply in H. rewrite !length_map in H.
  destruct (length vXi =? length ks)%nat eqn:LX; cbn [obind] in H; try discriminate.
  destruct (length vYi =? length ks)%nat eqn:LY; cbn [obind] in H; try discriminate.
  injection H as <-. cbn [k X0 Y0 Xi Yi nX nY n_results].
  apply Nat.eqb_eq in LX, LY.
  repeat split; auto.
  - exists x0, y0. auto using float_of_inv.
  - apply traverse_inv. exact HXi.
  - apply traverse_inv. exact HYi.
  - apply zip_with_length. rewrite length_map. exact LX.
  - apply zip_with_length. rewrite length_map. exact LY.
Qed.


(** ** Further properties of the program *)

(** *** The cycle sampler *)

(** The answers that a cycle of [measure] takes: ten without a carried-over
    pair, eight with one. *)
Lemma measure_lengths
  (vdc vac : float) (c : list string) (w : world) (r : leituras) (w' : world) :
  measure vdc vac c w = (Ok r, w') ->
  length (std_readings r) = 5%nat /\ length (dut_readings r) = 5%nat /\
  length (dvm_pending w) =
    (length (dvm_pending w') + match c with [] => 10 | _ :: _ => 8 end)%nat.
Proof.
  intros H. apply measure_inv in H
    as (f & r0 & w0 & x1 & y1 & x2 & y2 & x3 & y3 & x4 & y4 & _ & H0 & Hp & _ & -> & _).
  destruct c as [|s c'].
  - destruct H0 as (x0 & y0 & Hp0 & _ & _ & -> & _).
    rewrite Hp0, Hp. simpl. repeat split; lia.
  - destruct H0 as (d & _ & _ & _ & Hp0 & -> & _).
    rewrite <- Hp0, Hp. simpl. repeat split; lia.
Qed.

(** X1: a cycle that [measure] returns has exactly five readings per channel,
    whether or not a pair was carried over, and every one of them is an
    answer that [float] accepts; ten answers of the detector were taken for
    it without a carried-over pair, eight with one. *)
Theorem measure_five_readings
  (vdc vac : float) (c : list string) (w : world) (r : leituras) (w' : world) :
  measure vdc vac c w = (Ok r, w') ->
  length (std_readings r) = 5%nat /\ length (dut_readings r) = 5%nat /\
  Forall parses (std_readings r) /\ Forall parses (dut_readings r) /\
  length (dvm_pending w) =
    (length (dvm_pending w') + match c with [] => 10 | _ :: _ => 8 end)%nat.
Proof.
  intros H. destruct (measure_lengths _ _ _ _ _ _ H) as (Hs & Hd & Hp).
  repeat split; auto;
    apply measure_inv in H
      as (f & r0 & w0 & x1 & y1 & x2 & y2 & x3 & y3 & x4 & y4 & _ & H0 & _ & Hall & -> & _);
    repeat match goal with H : Forall _ (_ :: _) |- _ => inversion_clear H end;
    (destruct c as [|s c'];
     [ destruct H0 as (x0 & y0 & _ & Hx0 & Hy0 & -> & _)
     | destruct H0 as (d & _ & Hx0 & Hy0 & _ & -> & _) ]);
    simpl; repeat constructor; assumption.
Qed.

(** X2: a carried-over cycle of a single reading makes [measure] raise
    [IndexError], after the source was set up and before any switching or
    reading. *)
Theorem measure_single_carry_over
  (vdc vac : float) (s : string) (w : world) (f : float) :
  freq w = Some f ->
  exists w',
    measure vdc vac [s] w = (Raise IndexError, w') /\
    bus w' = bus w ++ setup_events vdc vac f /\
    dvm_pending w' = dvm_pending w.
Proof.
  intros Hf. eexists. split.
  - unfold measure. rewrite bind_emit. rewrite (bind_get_freq _ _ f) by exact Hf.
    unfold espera. rewrite !bind_emit. reflexivity.
  - simpl. unfold setup_events. rewrite <- !app_assoc. auto.
Qed.

(** X3: when the detector has no answer left, [measure] without a carried-over
    pair raises [VisaIOError] at its first read, with the switch on AC. *)
Theorem measure_detector_timeout (vdc vac : float) (w : world) (f : float) :
  freq w = Some f ->
  dvm_pending w = [] ->
  exists w',
    measure vdc vac [] w = (Raise VisaIOError, w') /\
    bus w' = bus w ++ setup_events vdc vac f ++
             [sw_write_raw ac; time_sleep (slices (inject_Z wait_time));
              dvm_write (SENS_CHAN 2); dvm_write (SENS_VOLT_RANG 2);
              dvm_write INIT_CONT_OFF; dvm_write READ].
Proof.
  intros Hf Hp. eexists. split.
  - unfold measure. rewrite bind_emit. rewrite (bind_get_freq _ _ f) by exact Hf.
    unfold espera. rewrite !bind_emit.
    unfold ciclo, espera, ler_std, dvm_query_READ.
    rewrite !bind_assoc, bind_emit. rewrite !bind_assoc, bind_emit.
    rewrite !bind_assoc, bind_emit. rewrite !bind_assoc, bind_emit.
    rewrite !bind_assoc, bind_emit. rewrite !bind_assoc, bind_emit.
    unfold bind. cbn [dvm_pending log]. rewrite Hp. reflexivity.
  - simpl. unfold setup_events. rewrite <- !app_assoc. reflexivity.
Qed.

(** *** The sampling loop, turn by turn *)

(** Everything a turn that ends normally has done. *)
Lemma repeticao_inv_full (n_value : list float) (vac : float) (st : locals) (w : world)
  (st' : locals) (w' : world) :
  repeticao n_value vac st w = (Ok st', w') ->
  exists c r w1 res ca,
    ciclo_ac st = Ok c /\
    measure (vdc_atual st) vac c w = (Ok r, w1) /\
    acdc_calc r n_value (vdc_atual st) = Ok res /\
    bme_pending w1 = ca :: tl (bme_pending w1) /\
    (1.1 * vdc_nominal <? adj_dc res) = false /\
    st' = {| i := if accepted res then (i st + 1)%Z else i st;
             first_measure := false;
             readings := Some r;
             results := Some res;
             vdc_atual := adj_dc res;
             diff_acdc := if accepted res then diff_acdc st ++ [dif res] else diff_acdc st;
             Delta_list := if accepted res then Delta_list st ++ [Delta res]
                           else Delta_list st |} /\
    w' = (if accepted res then append_rows [linha res (vdc_atual st) ca] (sampled w1)
          else sampled w1).
Proof.
  intros H. pose proof H as H'. unfold repeticao in H'.
  step H' as c wc Ec. unfold lift in Ec.
  destruct (ciclo_ac st) as [c'| |] eqn:Hc; try discriminate. injection Ec as <- <-.
  step H' as r w1 Hm.
  step H' as res wa Ea. unfold lift in Ea.
  destruct (acdc_calc r n_value (vdc_atual st)) as [res'| |] eqn:Ha; try discriminate.
  injection Ea as <- <-.
  step H' as ca w2 Eb. apply bme280_read_inv in Eb as (Hb & ->). clear H'.
  rewrite (repeticao_run n_value vac st w c' r w1 res' ca _ Hc Hm Ha Hb) in H.
  cbv zeta in H.
  destruct (1.1 * vdc_nominal <? adj_dc res') eqn:Hlt; try discriminate.
  injection H as <- <-. exists c', r, w1, res', ca. repeat split; auto.
Qed.

Lemma turns_last (n_value : list float) (vac : float) (st : locals) (w : world)
  (cycles : list acdc) (st' : locals) (w' : world) :
  turns n_value vac st w cycles st' w' ->
  cycles <> [] ->
  exists st0 w0 prev res,
    cycles = prev ++ [res] /\
    turns n_value vac st w prev st0 w0 /\
    (i st0 <? repeticoes)%Z = true /\
    repeticao n_value vac st0 w0 = (Ok st', w') /\
    results st' = Some res.
Proof.
  induction 1 as [st w | st w st1 w1 res cycles st2 w2 Hi Hrun Hres Ht IH]; intros Hne.
  - contradiction.
  - destruct cycles as [|res' cycles'].
    + inversion Ht; subst. exists st, w, [], res. repeat split; auto. constructor.
    + destruct IH as (st0 & w0 & prev & res0 & Hc & Ht0 & Hi0 & Hrun0 & Hres0);
        [discriminate|].
      exists st0, w0, (res :: prev), res0. rewrite Hc. repeat split; auto.
      econstructor; eauto.
Qed.

(** X4: after its first turn the loop always has the trailing pair of the last
    cycle to hand to [measure]: the state it is in holds that cycle, whose
    phase-4 readings are the next carried-over pair; and the DC voltage it
    will apply is the last correction, which did not exceed the bound. *)
Theorem loop_state_after_turns
  (n_value : list float) (vac : float) (st : locals) (w : world)
  (cycles : list acdc) (st' : locals) (w' : world) :
  turns n_value vac st w cycles st' w' ->
  cycles <> [] ->
  exists r x y earlier res,
    readings st' = Some r /\
    nth_error (std_readings r) 4 = Some x /\
    nth_error (dut_readings r) 4 = Some y /\
    ciclo_ac st' = Ok [x; y] /\
    cycles = earlier ++ [res] /\ results st' = Some res /\
    vdc_atual st' = adj_dc res /\
    (1.1 * vdc_nominal <? vdc_atual st') = false.
Proof.
  intros Ht Hne.
  destruct (turns_last _ _ _ _ _ _ _ Ht Hne)
    as (st0 & w0 & prev & res & -> & _ & _ & Hrun & Hres).
  apply repeticao_inv_full in Hrun
    as (c & r & w1 & res' & ca & _ & Hm & _ & _ & Hlt & -> & _).
  cbn [results] in Hres. injection Hres as ->.
  destruct (measure_trailing _ _ _ _ _ _ Hm) as (_ & x & y & Hx & Hy).
  exists r, x, y, prev, res. cbn [readings results vdc_atual].
  repeat split; auto.
  unfold ciclo_ac, index. cbn [first_measure readings].
  rewrite Hx. cbn [obind]. rewrite Hy. reflexivity.
Qed.

(** The first turn of a frequency point takes ten answers of the detector,
    every later turn eight. *)
Lemma turns_take_answers
  (n_value : list float) (vac : float) (w : world)
  (cycles : list acdc) (st' : locals) (w' : world) :
  turns n_value vac first_turn w cycles st' w' ->
  length (dvm_pending w) =
    (length (dvm_pending w') +
     match cycles with [] => 0 | _ :: later => 10 + 8 * length later end)%nat.
Proof.
  assert (Hlater : forall st w cycles st' w',
            turns n_value vac st w cycles st' w' -> first_measure st = false ->
            length (dvm_pending w) = (length (dvm_pending w') + 8 * length cycles)%nat).
  { induction 1 as [st0 w0 | st0 w0 st1 w1 res cs st2 w2 Hi Hrun Hres Ht IH]; intros Hf.
    - simpl. lia.
    - apply repeticao_inv_full in Hrun
        as (c & r & wm & res' & ca & Hc & Hm & _ & _ & _ & -> & ->).
      specialize (IH eq_refl).
      unfold ciclo_ac in Hc. rewrite Hf in Hc.
      destruct (readings st0) as [r0|]; try discriminate.
      destruct (index (std_readings r0) 4) as [x| |]; cbn [obind] in Hc; try discriminate.
      destruct (index (dut_readings r0) 4) as [y| |]; cbn [obind] in Hc; try discriminate.
      injection Hc as <-.
      destruct (measure_lengths _ _ _ _ _ _ Hm) as (_ & _ & Hp).
      rewrite Hp. destruct (accepted res'); cbn [dvm_pending append_rows sampled] in IH;
        rewrite IH; simpl; lia. }
  intros Ht. inversion Ht as [| st0 w0 st1 w1 res cs st2 w2 Hi Hrun Hres Ht']; subst.
  - simpl. lia.
  - apply repeticao_inv_full in Hrun
      as (c & r & wm & res' & ca & Hc & Hm & _ & _ & _ & -> & ->).
    injection Hc as <-.
    destruct (measure_lengths _ _ _ _ _ _ Hm) as (_ & _ & Hp).
    apply Hlater in Ht'; [|reflexivity].
    rewrite Hp. destruct (accepted res'); cbn [dvm_pending append_rows sampled] in Ht';
      rewrite Ht'; simpl; lia.
Qed.

(** The rows that the loop writes to the register are exactly one per
    accepted repetition, in order, each with the result of its cycle. *)
Lemma turns_write_rows
  (n_value : list float) (vac : float) (st : locals) (w : world)
  (cycles : list acdc) (st' : locals) (w' : world) :
  turns n_value vac st w cycles st' w' ->
  exists rows,
    registro w' = registro w ++ rows /\
    Forall2 (fun row res => exists v ca, row = linha res v ca) rows (filter accepted cycles).
Proof.
  induction 1 as [st w | st w st1 w1 res cycles st2 w2 Hi Hrun Hres _ IH].
  - exists []. rewrite app_nil_r. split; [reflexivity | constructor].
  - destruct IH as (rows & Hr & Hf).
    apply repeticao_inv_full in Hrun
      as (c & r & wm & res' & ca & _ & Hm & _ & _ & _ & -> & ->).
    cbn [results] in Hres. injection Hres as ->.
    destruct (measure_trailing _ _ _ _ _ _ Hm) as (Hreg & _).
    simpl. destruct (accepted res).
    + exists (linha res (vdc_atual st) ca :: rows). split.
      * rewrite Hr. cbn [registro append_rows sampled]. rewrite Hreg, <- app_assoc.
        reflexivity.
      * constructor; [eauto | exact Hf].
    + exists rows. split; [|exact Hf].
      rewrite Hr. cbn [registro sampled]. rewrite Hreg. reflexivity.
Qed.

(** *** The run comes to an end *)

Lemma obind_decided {A B : Type} (o : outcome A) (k : A -> outcome B) :
  o <> Diverge -> (forall a, k a <> Diverge) -> obind o k <> Diverge.
Proof. intros Ho Hk. destruct o; simpl; [apply Hk | discriminate | contradiction]. Qed.

Lemma index_decided {A : Type} (l : list A) (n : nat) : index l n <> Diverge.
Proof. unfold index. destruct (nth_error l n); discriminate. Qed.

Lemma float_of_decided (a : string) : float_of a <> Diverge.
Proof. unfold float_of. destruct (py_float a); discriminate. Qed.

Lemma traverse_decided {A B : Type} (f : A -> outcome B) (l : list A) :
  (forall a, f a <> Diverge) -> traverse f l <> Diverge.
Proof.
  intros Hf. induction l as [|a l IH]; simpl; [discriminate|].
  apply obind_decided; [apply Hf | intros b].
  apply obind_decided; [exact IH | discriminate].
Qed.

Lemma multiply_decided (a : list float) (k : list Z) : multiply a k <> Diverge.
Proof. unfold multiply. destruct (_ =? _)%nat; discriminate. Qed.

Lemma interp_decided (x : float) (xp fp : list float) : numpy.interp x xp fp <> Diverge.
Proof.
  unfold numpy.interp.
  repeat match goal with
         | |- context [match ?c with _ => _ end] => destruct c
         end; discriminate.
Qed.

Ltac decided_auto :=
  repeat first
    [ apply index_decided | apply float_of_decided | apply multiply_decided
    | apply interp_decided
    | apply traverse_decided; intros ?
    | apply obind_decided; [|intros ?]
    | discriminate ].

Lemma acdc_calc_decided (r : leituras) (N : list float) (v : float) :
  acdc_calc r N v <> Diverge.
Proof. unfold acdc_calc. decided_auto. Qed.

Lemma calculo_do_n_decided (std dut : list string) (k : list Z) :
  calculo_do_n std dut k <> Diverge.
Proof. unfold calculo_do_n. decided_auto. Qed.

Lemma ciclo_ac_decided (st : locals) : ciclo_ac st <> Diverge.
Proof.
  unfold ciclo_ac. destruct (first_measure st); [discriminate|].
  destruct (readings st); decided_auto.
Qed.

Lemma settles_ret {A : Type} (a : A) : settles (ret a).
Proof. intros w o w' H; injection H as <- <-. split; [discriminate | lia]. Qed.

Lemma settles_raise {A : Type} (e : exn) : settles (@raise A e).
Proof. intros w o w' H; injection H as <- <-. split; [discriminate | lia]. Qed.

Lemma settles_lift {A : Type} (o : outcome A) : o <> Diverge -> settles (lift o).
Proof. intros Ho w o' w' H; injection H as <- <-. split; [exact Ho | lia]. Qed.

Lemma settles_emit (e : event) : settles (emit e).
Proof. intros w o w' H; injection H as <- <-. split; [discriminate | simpl; lia]. Qed.

Lemma settles_writerows (rows : list row) : settles (writerows rows).
Proof. intros w o w' H; injection H as <- <-. split; [discriminate | simpl; lia]. Qed.

Lemma settles_set_freq (f : float) : settles (set_freq f).
Proof. intros w o w' H; injection H as <- <-. split; [discriminate | simpl; lia]. Qed.

Lemma settles_get_freq : settles get_freq.
Proof.
  intros w o w' H. unfold get_freq in H.
  destruct (freq w); injection H as <- <-; (split; [discriminate | lia]).
Qed.

Lemma settles_bme280_read : settles bme280_read.
Proof.
  intros w o w' H. unfold bme280_read in H.
  destruct (bme_pending w); injection H as <- <-; (split; [discriminate | simpl; lia]).
Qed.

Lemma settles_bind {A B : Type} (m : io A) (f : A -> io B) :
  settles m -> (forall a, settles (f a)) -> settles (bind m f).
Proof.
  intros Hm Hf w o w' H. unfold bind in H.
  destruct (m w) as [[a| |] w1] eqn:E.
  - destruct (Hm _ _ _ E) as (_ & H1). destruct (Hf a _ _ _ H) as (Ho & H2).
    split; [exact Ho | lia].
  - injection H as <- <-. split; [discriminate | exact (proj2 (Hm _ _ _ E))].
  - exfalso. exact (proj1 (Hm _ _ _ E) eq_refl).
Qed.

Lemma settles_dvm_query_READ : settles dvm_query_READ.
Proof.
  unfold dvm_query_READ. apply settles_bind; [apply settles_emit|]. intros _ w o w' H.
  destruct (dvm_pending w) eqn:E; injection H as <- <-;
    (split; [discriminate | simpl; rewrite ?E; simpl; lia]).
Qed.

Lemma settles_for_each {A S : Type} (l : list A) (body : A -> S -> io S) (s : S) :
  (forall a s', settles (body a s')) -> settles (for_each l body s).
Proof.
  intros Hb. revert s. induction l as [|a l IH]; intros s; simpl.
  - apply settles_ret.
  - apply settles_bind; [apply Hb | exact IH].
Qed.

Ltac settles_step :=
  first
    [ apply settles_ret | apply settles_raise | apply settles_emit
    | apply settles_writerows | apply settles_set_freq | apply settles_get_freq
    | apply settles_bme280_read | apply settles_dvm_query_READ
    | apply settles_lift; decided_auto
    | apply settles_bind; [|intros ?] ].

Ltac settles_auto := repeat settles_step.

Lemma settles_ler_std : settles ler_std.
Proof. unfold ler_std. settles_auto. Qed.

Lemma settles_ler_dut : settles ler_dut.
Proof. unfold ler_dut. settles_auto. Qed.

Lemma settles_print_last (l : list string) : settles (print_last l).
Proof. unfold print_last. settles_auto. Qed.

Ltac settles_more :=
  repeat first [ apply settles_ler_std | apply settles_ler_dut | apply settles_print_last
               | settles_step ].

Lemma settles_ciclo (c : sw_cmd) (r : leituras) : settles (ciclo c r).
Proof. unfold ciclo, espera, print_std, print_dut. settles_more. Qed.

Lemma settles_measure (vdc vac : float) (c : list string) : settles (measure vdc vac c).
Proof.
  unfold measure, espera, print_std, print_dut.
  repeat first [apply settles_ciclo | settles_step].
  destruct c; repeat first [apply settles_ciclo | apply settles_print_last | settles_step].
Qed.

Lemma settles_n_measure_step (j : Z) (s : list string * list string * list Z) :
  settles (n_measure_step j s).
Proof.
  destruct s as [[std dut] k]. unfold n_measure_step, espera, print_std, print_dut.
  destruct (j mod 2 =? 0)%Z; settles_more.
Qed.

Lemma settles_n_measure (M : Z) : settles (n_measure M).
Proof.
  unfold n_measure, espera, print_std, print_dut. cbv zeta.
  repeat first [ apply settles_ler_std | apply settles_ler_dut | apply settles_print_last
               | apply settles_for_each; intros ? ?; apply settles_n_measure_step
               | settles_step ].
  match goal with s : (list string * list string * list Z)%type |- _ =>
    destruct s as [[std dut] k] end.
  apply settles_bind; [apply settles_emit | intros _].
  apply settles_lift. apply calculo_do_n_decided.
Qed.

Lemma settles_equilibrio : settles equilibrio.
Proof. unfold equilibrio, espera, print_dut. settles_more. Qed.

Lemma settles_stop_instruments : settles stop_instruments.
Proof. unfold stop_instruments, espera. settles_auto. Qed.

Lemma settles_prelude : settles prelude.
Proof.
  unfold prelude, bme280_init, instrument_init, meas_init, criar_registro, aquecimento,
    espera.
  settles_auto.
Qed.

(** A turn of the loop comes to an end, and one that ends normally has
    taken at least eight answers. *)
Lemma repeticao_settles (n_value : list float) (vac : float) (st : locals) (w : world)
  (o : outcome locals) (w' : world) :
  repeticao n_value vac st w = (o, w') ->
  o <> Diverge /\
  (length (dvm_pending w') <= length (dvm_pending w))%nat /\
  (forall st', o = Ok st' -> (length (dvm_pending w') + 8 <= length (dvm_pending w))%nat).
Proof.
  intros H.
  assert (Hs : settles (repeticao n_value vac st)).
  { unfold repeticao, registro_linha.
    apply settles_bind; [apply settles_lift, ciclo_ac_decided | intros c].
    apply settles_bind; [apply settles_measure | intros r].
    apply settles_bind; [apply settles_lift, acdc_calc_decided | intros res].
    apply settles_bind; [apply settles_bme280_read | intros ca].
    apply settles_bind.
    - destruct (50 <? abs (Delta res)); settles_auto.
    - intros [[d1 d2] i']. destruct (_ <? _); settles_step. }
  destruct (Hs _ _ _ H) as (Ho & Hl). repeat split; auto.
  intros st' ->. apply repeticao_inv_full in H
    as (c & r & w1 & res & ca & _ & Hm & _ & _ & _ & _ & ->).
  destruct (measure_lengths _ _ _ _ _ _ Hm) as (_ & _ & Hp).
  rewrite Hp. destruct (accepted res), c; simpl; lia.
Qed.

Lemma sampling_settles (n_value : list float) (vac : float) (fuel : nat) :
  forall (st : locals) (w : world) (o : outcome locals) (w' : world),
  (length (dvm_pending w) < 8 * fuel)%nat ->
  sampling fuel n_value vac st w = (o, w') ->
  o <> Diverge /\ (length (dvm_pending w') <= length (dvm_pending w))%nat.
Proof.
  induction fuel as [|fuel IH]; intros st w o w' Hfuel H; [lia|].
  simpl in H. destruct (i st <? repeticoes)%Z.
  - unfold bind in H. destruct (repeticao n_value vac st w) as [[st1| |] w1] eqn:E.
    + destruct (repeticao_settles _ _ _ _ _ _ E) as (_ & _ & H8).
      specialize (H8 st1 eq_refl).
      destruct (IH st1 w1 o w') as (Ho & Hl); [lia | exact H |].
      split; [exact Ho | lia].
    + injection H as <- <-. destruct (repeticao_settles _ _ _ _ _ _ E) as (_ & Hl & _).
      split; [discriminate | exact Hl].
    + destruct (repeticao_settles _ _ _ _ _ _ E) as (Ho & _). contradiction.
  - injection H as <- <-. split; [discriminate | lia].
Qed.

Lemma frequency_point_settles (fuel : nat) (value : string) (w : world)
  (o : outcome unit) (w' : world) :
  (length (dvm_pending w) < 8 * fuel)%nat ->
  frequency_point fuel value w = (o, w') ->
  o <> Diverge /\ (length (dvm_pending w') <= length (dvm_pending w))%nat.
Proof.
  intros Hfuel H. unfold frequency_point in H.
  unfold bind at 1 in H. unfold lift at 1 in H.
  destruct (float_of value) as [f| |] eqn:Ef;
    [| injection H as <- <-; split; [discriminate | lia]
     | exfalso; exact (float_of_decided _ Ef)].
  unfold bind at 1 in H. unfold set_freq at 1 in H.
  unfold bind at 1 in H.
  destruct (n_measure 4 (tuned (f * 1000000) w)) as [[n| |] w1] eqn:En;
    destruct (settles_n_measure _ _ _ _ En) as (Hn & Hln); simpl in Hln;
    [| injection H as <- <-; split; [discriminate | lia] | contradiction].
  unfold bind at 1 in H.
  destruct (equilibrio w1) as [[vac| |] w2] eqn:Ee;
    destruct (settles_equilibrio _ _ _ Ee) as (He & Hle);
    [| injection H as <- <-; split; [discriminate | lia] | contradiction].
  unfold bind at 1 in H. unfold registro_frequencia, writerows at 1 in H.
  unfold bind at 1 in H.
  destruct (1.1 * vac_nominal <? vac).
  { unfold raise at 1 in H. injection H as <- <-. split; [discriminate | simpl; lia]. }
  unfold ret at 1 in H. unfold bind at 1 in H.
  match type of H with
  | context [sampling fuel ?n ?v ?s ?x] =>
      assert (Hx : (length (dvm_pending x) < 8 * fuel)%nat)
        by (cbn [dvm_pending append_rows]; lia);
      destruct (sampling fuel n v s x) as [[st| |] w3] eqn:Es;
      destruct (sampling_settles _ _ _ _ _ _ _ Hx Es) as (Hs & Hls);
      cbn [dvm_pending append_rows] in Hls
  end;
    [| injection H as <- <-; split; [discriminate | lia] | contradiction].
  unfold registro_media, writerows in H. injection H as <- <-.
  split; [discriminate | simpl; lia].
Qed.

(** X6: the loop over the frequencies cannot go on for ever on a finite
    supply of answers: every turn of a sampling loop that ends normally takes
    at least eight answers of the detector, and nothing gives answers back,
    so with fuel for more turns than an eighth of the answers pending no
    sampling loop is cut off: the loop over the frequencies ends, normally
    or with an exception, with no more answers pending than there were. *)
Theorem frequencies_come_to_an_end (fuel : nat) (values : list string) :
  forall (w : world) (o : outcome unit) (w' : world),
  (length (dvm_pending w) < 8 * fuel)%nat ->
  frequencies fuel values w = (o, w') ->
  o <> Diverge /\ (length (dvm_pending w') <= length (dvm_pending w))%nat.
Proof.
  unfold frequencies. induction values as [|v values IH]; intros w o w' Hfuel H; simpl in H.
  - injection H as <- <-. split; [discriminate | lia].
  - unfold bind in H. destruct (frequency_point fuel v w) as [[[]| |] w1] eqn:E;
      destruct (frequency_point_settles _ _ _ _ _ Hfuel E) as (Ho & Hl).
    + destruct (IH w1 o w') as (Ho' & Hl'); [lia | exact H |]. split; [exact Ho' | lia].
    + injection H as <- <-. split; [discriminate | exact Hl].
    + contradiction.
Qed.

Lemma started_pending (w : world) : dvm_pending (started w) = dvm_pending w.
Proof. reflexivity. Qed.

Lemma started_bus (w : world) : exists t, bus (started w) = bus w ++ t.
Proof.
  unfold started. destruct (prelude w) as [o w1] eqn:E. simpl.
  revert w o w1 E. change (grows prelude).
  unfold prelude, bme280_init, instrument_init, meas_init, criar_registro, aquecimento,
    espera.
  grows_auto.
Qed.

Lemma grows_n_measure_step (j : Z) (s : list string * list string * list Z) :
  grows (n_measure_step j s).
Proof.
  destruct s as [[std dut] k]. unfold n_measure_step, espera, print_std, print_dut.
  destruct (j mod 2 =? 0)%Z;
    repeat first [apply grows_ler_std | apply grows_ler_dut | apply grows_print_last
                 | grows_step].
Qed.

Lemma grows_n_measure (M : Z) : grows (n_measure M).
Proof.
  unfold n_measure, espera, print_std, print_dut. cbv zeta.
  repeat first [ apply grows_ler_std | apply grows_ler_dut | apply grows_print_last
               | apply grows_for_each; intros ? ?; apply grows_n_measure_step
               | grows_step ].
  match goal with s : (list string * list string * list Z)%type |- _ =>
    destruct s as [[std dut] k] end.
  grows_auto.
Qed.

Lemma grows_equilibrio : grows equilibrio.
Proof.
  unfold equilibrio, espera, print_dut.
  repeat first [apply grows_ler_dut | apply grows_print_last | grows_step].
Qed.

Lemma grows_frequency_point (fuel : nat) (value : string) :
  grows (frequency_point fuel value).
Proof.
  unfold frequency_point, registro_frequencia, registro_media.
  apply grows_bind; [apply grows_lift | intros f].
  apply grows_bind; [apply grows_set_freq | intros _].
  apply grows_bind; [apply grows_n_measure | intros n].
  apply grows_bind; [apply grows_equilibrio | intros vac].
  apply grows_bind; [apply grows_writerows | intros _].
  apply grows_bind; [destruct (_ <? _); grows_step | intros _].
  apply grows_bind; [apply grows_sampling | intros st]. apply grows_writerows.
Qed.

Lemma grows_frequencies (fuel : nat) (values : list string) :
  grows (frequencies fuel values).
Proof. unfold frequencies. apply grows_for_each. intros v []. apply grows_frequency_point. Qed.

(** X5: once the set-up has returned and the run is in its loop over the
    frequencies, [main] lets no exception of that loop out: however the loop
    ends, normally or with an exception of any kind (a timeout of the
    detector, an answer that is no number, a failing sensor, a voltage
    bound), the commands of the shutdown follow its last command and nothing
    else, no further row is written, no further answer is taken, and [main]
    returns normally.  (Writing to the instruments is taken to succeed, in
    the shutdown as elsewhere.) *)
Theorem main_returns_after_shutdown
  (fuel : nat) (w : world) (o : outcome unit) (w1 : world) :
  frequencies fuel freq_array (started w) = (o, w1) ->
  o <> Diverge ->
  exists w2,
    main fuel w = (Ok tt, w2) /\
    bus w2 = bus w1 ++ shutdown_events /\
    registro w2 = registro w1 /\
    dvm_pending w2 = dvm_pending w1.
Proof.
  intros E Ho.
  destruct (stop_instruments_run w1) as (w2 & Hs & Hb & Hr & Hp & _).
  exists w2. split; [|auto].
  destruct o as [[]|e|]; [| |contradiction].
  - unfold main, try_except. rewrite main_try_started.
    unfold bind. rewrite E, Hs. reflexivity.
  - rewrite (main_except _ _ _ _ E). exact Hs.
Qed.

(** *** The DC voltage that the sampling loop programs *)

Lemma emits_ret {A : Type} (P : event -> Prop) (a : A) : emits P (ret a).
Proof. intros w o w' H; injection H as _ <-. exists []. split; [symmetry; apply app_nil_r | constructor]. Qed.

Lemma emits_raise {A : Type} (P : event -> Prop) (e : exn) : emits P (@raise A e).
Proof. intros w o w' H; injection H as _ <-. exists []. split; [symmetry; apply app_nil_r | constructor]. Qed.

Lemma emits_lift {A : Type} (P : event -> Prop) (o : outcome A) : emits P (lift o).
Proof. intros w o' w' H; injection H as _ <-. exists []. split; [symmetry; apply app_nil_r | constructor]. Qed.

Lemma emits_emit (P : event -> Prop) (e : event) : P e -> emits P (emit e).
Proof. intros He w o w' H; injection H as _ <-. exists [e]. split; [reflexivity | auto]. Qed.

Lemma emits_writerows (P : event -> Prop) (rows : list row) : emits P (writerows rows).
Proof. intros w o w' H; injection H as _ <-. exists []. split; [symmetry; apply app_nil_r | constructor]. Qed.

Lemma emits_get_freq (P : event -> Prop) : emits P get_freq.
Proof.
  intros w o w' H. unfold get_freq in H.
  destruct (freq w); injection H as _ <-; exists [];
    (split; [symmetry; apply app_nil_r | constructor]).
Qed.

Lemma emits_bme280_read (P : event -> Prop) : emits P bme280_read.
Proof.
  intros w o w' H. unfold bme280_read in H.
  destruct (bme_pending w); injection H as _ <-; exists [];
    (split; [symmetry; apply app_nil_r | constructor]).
Qed.

Lemma emits_bind {A B : Type} (P : event -> Prop) (m : io A) (f : A -> io B) :
  emits P m -> (forall a, emits P (f a)) -> emits P (bind m f).
Proof.
  intros Hm Hf w o w' H. unfold bind in H.
  destruct (m w) as [[a| |] w1] eqn:E; destruct (Hm _ _ _ E) as (t1 & H1 & P1).
  - destruct (Hf a _ _ _ H) as (t2 & H2 & P2).
    exists (t1 ++ t2). split; [rewrite H2, H1, app_assoc; reflexivity|].
    apply Forall_app; auto.
  - injection H as _ <-. eauto.
  - injection H as _ <-. eauto.
Qed.

Lemma emits_weaken {A : Type} (P Q : event -> Prop) (m : io A) :
  (forall e, P e -> Q e) -> emits P m -> emits Q m.
Proof.
  intros HPQ Hm w o w' H. destruct (Hm _ _ _ H) as (t & Ht & HP).
  exists t. split; [exact Ht|]. eapply Forall_impl; eauto.
Qed.

Lemma emits_dvm_query_READ (P : event -> Prop) :
  P (dvm_write READ) -> emits P dvm_query_READ.
Proof.
  intros HP. unfold dvm_query_READ. apply emits_bind; [apply emits_emit, HP|].
  intros _ w o w' H.
  destruct (dvm_pending w); injection H as _ <-; exists [];
    (split; [symmetry; apply app_nil_r | constructor]).
Qed.

Ltac other_command := intros ? ?; discriminate.

Ltac emits_step :=
  first
    [ apply emits_ret | apply emits_raise | apply emits_lift | apply emits_writerows
    | apply emits_get_freq | apply emits_bme280_read
    | apply emits_dvm_query_READ; other_command
    | apply emits_emit; first [other_command | intros ? [= <-]; reflexivity]
    | apply emits_bind; [|intros ?] ].

Lemma emits_ciclo (v : float) (c : sw_cmd) (r : leituras) : emits (dc_level_is v) (ciclo c r).
Proof.
  unfold ciclo, espera, ler_std, ler_dut, print_std, print_dut, print_last.
  repeat emits_step.
Qed.

(** [measure] programs the DC channel with the voltage it was called with,
    and with no other. *)
Lemma emits_measure (vdc vac : float) (c : list string) :
  emits (dc_level_is vdc) (measure vdc vac c).
Proof.
  unfold measure, espera, print_std, print_dut, print_last.
  repeat first [apply emits_ciclo | emits_step].
  destruct c; repeat first [apply emits_ciclo | emits_step].
Qed.

Lemma emits_repeticao (n_value : list float) (vac : float) (st : locals) :
  emits (dc_level_is (vdc_atual st)) (repeticao n_value vac st).
Proof.
  unfold repeticao, registro_linha.
  apply emits_bind; [apply emits_lift | intros c].
  apply emits_bind; [apply emits_measure | intros r].
  apply emits_bind; [apply emits_lift | intros res].
  apply emits_bind; [apply emits_bme280_read | intros ca].
  apply emits_bind.
  - destruct (50 <? abs (Delta res)); repeat emits_step.
  - intros [[d1 d2] i']. destruct (_ <? _); emits_step.
Qed.

Lemma emits_sampling (n_value : list float) (vac : float) (fuel : nat) :
  forall st : locals,
  vdc_atual st = vdc_nominal \/ (1.1 * vdc_nominal <? vdc_atual st) = false ->
  emits dc_within_bound (sampling fuel n_value vac st).
Proof.
  induction fuel as [|fuel IH]; intros st Hst; simpl.
  - destruct (i st <? repeticoes)%Z; [|apply emits_ret].
    intros w o w' H; injection H as _ <-. exists [].
    split; [symmetry; apply app_nil_r | constructor].
  - destruct (i st <? repeticoes)%Z; [|apply emits_ret].
    intros w o w' H. unfold bind in H.
    destruct (repeticao n_value vac st w) as [[st1| |] w1] eqn:E;
      destruct (emits_repeticao _ _ _ _ _ _ E) as (t1 & H1 & P1);
      assert (Q1 : Forall dc_within_bound t1)
        by (eapply Forall_impl; [|exact P1]; intros ev He u Hu;
            rewrite (He u Hu); exact Hst).
    + apply repeticao_inv_full in E
        as (c & r & wm & res & ca & _ & _ & _ & _ & Hlt & -> & _).
      edestruct IH as (t2 & H2 & P2); [| exact H |]; [right; exact Hlt|].
      exists (t1 ++ t2). split; [rewrite H2, H1, app_assoc; reflexivity|].
      apply Forall_app; auto.
    + injection H as _ <-. eauto.
    + injection H as _ <-. eauto.
Qed.

(** *** The voltage text that the sampling loop sends *)

Local Open Scope Z_scope.

Lemma round_half_even_mono (b a1 a2 : Z) :
  0 < b -> a1 <= a2 -> round_half_even a1 b <= round_half_even a2 b.
Proof.
  intros Hb Ha. unfold round_half_even.
  pose proof (Z.div_mod a1 b ltac:(lia)) as E1.
  pose proof (Z.div_mod a2 b ltac:(lia)) as E2.
  pose proof (Z.mod_pos_bound a1 b Hb) as B1.
  pose proof (Z.mod_pos_bound a2 b Hb) as B2.
  pose proof (Z.div_le_mono a1 a2 b Hb Ha) as Hq.
  set (q1 := a1 / b) in *. set (q2 := a2 / b) in *.
  set (r1 := a1 mod b) in *. set (r2 := a2 mod b) in *.
  destruct (Z.eq_dec q1 q2) as [Heq|Hne].
  - rewrite <- Heq in *. assert (r1 <= r2) by lia.
    destruct (Z.ltb_spec (2 * r1) b), (Z.ltb_spec (2 * r2) b),
      (Z.ltb_spec b (2 * r1)), (Z.ltb_spec b (2 * r2)); destruct (Z.even q1); lia.
  - assert (q1 + 1 <= q2) by lia.
    destruct (Z.ltb_spec (2 * r1) b), (Z.ltb_spec (2 * r2) b),
      (Z.ltb_spec b (2 * r1)), (Z.ltb_spec b (2 * r2));
      destruct (Z.even q1), (Z.even q2); lia.
Qed.

Lemma digits2_pos_upper (m : positive) : Z.pos m < 2 ^ Z.pos (digits2_pos m).
Proof.
  induction m as [m IH|m IH|]; cbn [digits2_pos].
  - rewrite Pos2Z.inj_succ, Z.pow_succ_r by lia. lia.
  - rewrite Pos2Z.inj_succ, Z.pow_succ_r by lia. lia.
  - reflexivity.
Qed.

(** What validity says of a binary64 mantissa and exponent. *)
Lemma bounded_inv (m : positive) (e : Z) :
  bounded prec emax m e = true ->
  -1074 <= e /\ Z.pos m < 2 ^ 53 /\ (-1074 < e -> 2 ^ 52 <= Z.pos m).
Proof.
  unfold bounded, canonical_mantissa, fexp, SpecFloat.emin, prec, emax.
  intros H. apply andb_prop in H as (H & _). apply Z.eqb_eq in H.
  pose proof (digits2_pos_upper m) as U. pose proof (digits2_pos_bound m) as L.
  set (d := Z.pos (digits2_pos m)) in *.
  assert (Hd : d <= 53) by lia.
  split; [lia|]. split.
  - apply Z.lt_le_trans with (1 := U). apply Z.pow_le_mono_r; lia.
  - intros He. assert (d = 53) by lia. subst d.
    replace 52 with (Z.pos (digits2_pos m) - 1) by lia. exact L.
Qed.

(** Of two valid positive numbers the one with the smaller exponent is the
    smaller. *)
Lemma exponent_order (m1 m2 : positive) (e1 e2 : Z) :
  bounded prec emax m1 e1 = true -> bounded prec emax m2 e2 = true ->
  e1 < e2 ->
  Z.pos m1 * 2 ^ (e1 + 1074) < Z.pos m2 * 2 ^ (e2 + 1074).
Proof.
  intros H1 H2 He.
  apply bounded_inv in H1 as (L1 & U1 & _). apply bounded_inv in H2 as (L2 & _ & N2).
  specialize (N2 ltac:(lia)).
  replace (e2 + 1074) with ((e1 + 1074) + (e2 - e1)) by lia.
  rewrite (Z.pow_add_r 2 (e1 + 1074) (e2 - e1)) by lia.
  assert (HP : 0 < 2 ^ (e1 + 1074)) by (apply Z.pow_pos_nonneg; lia).
  assert (HD : 2 ^ 1 <= 2 ^ (e2 - e1)) by (apply Z.pow_le_mono_r; lia).
  change (2 ^ 1) with 2 in HD. change (2 ^ 53) with 9007199254740992 in U1.
  change (2 ^ 52) with 4503599627370496 in N2.
  set (P := 2 ^ (e1 + 1074)) in *. set (D := 2 ^ (e2 - e1)) in *.
  assert (A1 : Z.pos m1 * P < 9007199254740992 * P)
    by (apply Z.mul_lt_mono_pos_r; assumption).
  assert (A2 : 9007199254740992 <= Z.pos m2 * D).
  { change 9007199254740992 with (4503599627370496 * 2).
    apply Z.mul_le_mono_nonneg; lia. }
  assert (A3 : 9007199254740992 * P <= Z.pos m2 * D * P)
    by (apply Z.mul_le_mono_nonneg_r; lia).
  replace (Z.pos m2 * (P * D)) with (Z.pos m2 * D * P) by ring. lia.
Qed.

Lemma SFleb_scaled (x y : spec_float) (a b : Z) :
  SpecFloat.valid_binary prec emax x = true ->
  SpecFloat.valid_binary prec emax y = true ->
  SFleb x y = true ->
  SFscaled x = Some a -> SFscaled y = Some b ->
  a <= b.
Proof.
  intros Vx Vy H Hx Hy.
  destruct x as [sx|sx| |sx mx ex], y as [sy|sy| |sy my ey]; try discriminate;
    cbn [SFscaled] in Hx, Hy; injection Hx as <-; injection Hy as <-;
    unfold SFleb, SFcompare in H; cbn [SpecFloat.valid_binary] in Vx, Vy.
  - lia.
  - assert (0 < 2 ^ (ey + 1074)) by (apply Z.pow_pos_nonneg; apply bounded_inv in Vy; lia).
    destruct sy; [discriminate | nia].
  - assert (0 < 2 ^ (ex + 1074)) by (apply Z.pow_pos_nonneg; apply bounded_inv in Vx; lia).
    destruct sx; [nia | discriminate].
  - assert (Px : 0 < 2 ^ (ex + 1074)) by (apply Z.pow_pos_nonneg; apply bounded_inv in Vx; lia).
    assert (Py : 0 < 2 ^ (ey + 1074)) by (apply Z.pow_pos_nonneg; apply bounded_inv in Vy; lia).
    destruct sx, sy; try discriminate; try nia.
    + destruct (Z.compare_spec ex ey) as [E|E|E]; try discriminate.
      * subst ey. change (Pos.compare_cont Eq mx my) with (Pos.compare mx my) in H.
        destruct (Pos.compare_spec mx my); try discriminate; simpl in H; nia.
      * pose proof (exponent_order _ _ _ _ Vy Vx E). lia.
    + destruct (Z.compare_spec ex ey) as [E|E|E]; try discriminate.
      * subst ey. change (Pos.compare_cont Eq mx my) with (Pos.compare mx my) in H.
        destruct (Pos.compare_spec mx my); try discriminate; nia.
      * pose proof (exponent_order _ _ _ _ Vx Vy E). lia.
Qed.

Lemma thousandths_mono (u b : float) (a c : Z) :
  (u <=? b)%float = true ->
  thousandths u = Some a -> thousandths b = Some c -> a <= c.
Proof.
  intros H Hu Hb. unfold thousandths, scaled in *.
  rewrite FloatAxioms.leb_spec in H.
  destruct (SFscaled (Prim2SF u)) as [vu|] eqn:Eu; [|discriminate].
  destruct (SFscaled (Prim2SF b)) as [vb|] eqn:Eb; [|discriminate].
  injection Hu as <-. injection Hb as <-.
  apply round_half_even_mono; [reflexivity|].
  pose proof (SFleb_scaled _ _ _ _ (Prim2SF_valid u) (Prim2SF_valid b) H Eu Eb). lia.
Qed.

Local Close Scope Z_scope.

Lemma thousandths_nan (x : float) : is_nan x = true -> thousandths x = None.
Proof.
  intros H. unfold thousandths, scaled. apply Prim2SF_nan in H. rewrite H. reflexivity.
Qed.

(** X7: the sampling loop of a frequency point never programs a DC voltage
    that the bound of [main] would refuse: every number it hands to the
    voltage command of the DC channel is the nominal voltage (in the first
    turn) or the correction of the turn before, which was not above 1.1
    times the nominal voltage.  The command renders the number with three
    decimals: what the text of such a correction reads is at most what the
    bound reads when rendered in the same way (it can be above the bound
    itself, by less than half a thousandth).  This holds for all the
    commands issued, however the loop ends. *)
Theorem sampling_dc_within_bound
  (fuel : nat) (n_value : list float) (vac : float)
  (w : world) (o : outcome locals) (w' : world) :
  sampling fuel n_value vac first_turn w = (o, w') ->
  exists t,
    bus w' = bus w ++ t /\
    forall u, In (ac_source_write (SOUR_VOLT 1 u)) t ->
      u = vdc_nominal \/
      ((1.1 * vdc_nominal <? u) = false /\
       forall sent bound : Z,
         thousandths u = Some sent ->
         thousandths (1.1 * vdc_nominal) = Some bound ->
         (sent <= bound)%Z).
Proof.
  intros H.
  destruct (emits_sampling n_value vac fuel first_turn (or_introl eq_refl) _ _ _ H)
    as (t & Ht & HP).
  exists t. split; [exact Ht|]. intros u Hu.
  rewrite Forall_forall in HP. destruct (HP _ Hu u eq_refl) as [Hn|Hlt]; [left; exact Hn|].
  right. split; [exact Hlt|]. intros sent bound Hs Hb.
  apply ltb_false_iff in Hlt as [Hnan|[Hnan|Hle]].
  - rewrite (thousandths_nan _ Hnan) in Hs. discriminate.
  - rewrite (thousandths_nan _ Hnan) in Hb. discriminate.
  - exact (thousandths_mono _ _ _ _ Hle Hs Hb).
Qed.

(** *** When the calculation of a cycle has a result *)

Lemma parses_all (l : list string) :
  Forall parses l -> exists xs, map py_float l = map Some xs.
Proof.
  induction 1 as [|a l [x Hx] _ [xs IH]].
  - exists []. reflexivity.
  - exists (x :: xs). simpl. rewrite Hx, IH. reflexivity.
Qed.

Lemma all_parse (l : list string) (xs : list float) :
  map py_float l = map Some xs -> Forall parses l /\ length xs = length l.
Proof.
  revert xs. induction l as [|a l IH]; intros [|x xs] H; simpl in H; try discriminate.
  - split; [constructor | reflexivity].
  - injection H as Ha Hl. destruct (IH _ Hl) as (Hf & Hlen).
    split; [constructor; [exists x; exact Ha | exact Hf] | simpl; congruence].
Qed.

Lemma index_Ok {A : Type} (l : list A) (n : nat) (a : A) :
  index l n = Ok a -> (n < length l)%nat.
Proof.
  unfold index. destruct (nth_error l n) eqn:E; [|discriminate].
  intros _. apply nth_error_Some. congruence.
Qed.

Lemma index_short {A : Type} (l : list A) (n : nat) :
  (length l <= n)%nat -> index l n = Raise IndexError.
Proof. intros H. unfold index. apply nth_error_None in H. rewrite H. reflexivity. Qed.

Lemma traverse_unparsed (l : list string) :
  Exists (fun a => py_float a = None) l -> traverse float_of l = Raise ValueError.
Proof.
  induction 1 as [a l Ha | a l _ IH]; simpl.
  - unfold float_of at 1. rewrite Ha. reflexivity.
  - unfold float_of at 1. destruct (py_float a); [|reflexivity].
    cbn [obind]. rewrite IH. reflexivity.
Qed.

Lemma traverse_raises (l : list string) (e : exn) :
  traverse float_of l = Raise e -> e = ValueError.
Proof.
  revert e. induction l as [|a l IH]; simpl; intros e H; [discriminate|].
  unfold float_of at 1 in H. destruct (py_float a); cbn [obind] in H.
  - destruct (traverse float_of l) as [xs|e'|]; cbn [obind] in H; try discriminate.
    injection H as <-. apply IH. reflexivity.
  - injection H as <-. reflexivity.
Qed.

(** X8: [acdc_calc] has a result exactly when the list of coefficients has its
    third element, each channel has at least five readings, and every
    reading of the cycle, also one past the fifth, is an answer that [float]
    accepts. *)
Theorem acdc_calc_returns_iff (r : leituras) (N : list float) (v : float) :
  (exists res, acdc_calc r N v = Ok res) <->
  (3 <= length N)%nat /\
  (5 <= length (std_readings r))%nat /\ (5 <= length (dut_readings r))%nat /\
  Forall parses (std_readings r) /\ Forall parses (dut_readings r).
Proof.
  split.
  - intros (res & H). unfold acdc_calc in H.
    destruct (index N 0) as [nx| |] eqn:E0; try discriminate.
    destruct (index N 2) as [ny| |] eqn:E2; try discriminate.
    destruct (traverse float_of (std_readings r)) as [x| |] eqn:Ex; try discriminate.
    destruct (traverse float_of (dut_readings r)) as [y| |] eqn:Ey; try discriminate.
    cbn [obind] in H.
    destruct (index x 0) as [x0| |]; try discriminate.
    destruct (index x 2) as [x2| |]; try discriminate.
    destruct (index x 4) as [x4| |] eqn:Ex4; try discriminate.
    cbn [obind] in H.
    destruct (index x 1) as [x1| |]; try discriminate.
    destruct (index x 3) as [x3| |]; try discriminate.
    cbn [obind] in H.
    destruct (index y 0) as [y0| |]; try discriminate.
    destruct (index y 2) as [y2| |]; try discriminate.
    destruct (index y 4) as [y4| |] eqn:Ey4; try discriminate.
    apply index_Ok in E2, Ex4, Ey4.
    apply traverse_inv, all_parse in Ex as (Hx & Lx).
    apply traverse_inv, all_parse in Ey as (Hy & Ly).
    repeat split; auto; lia.
  - intros (HN & Ls & Ld & Hs & Hd).
    apply parses_all in Hs as (x & Hx). apply parses_all in Hd as (y & Hy).
    destruct (all_parse _ _ Hx) as (_ & Lx). destruct (all_parse _ _ Hy) as (_ & Ly).
    apply traverse_float_of in Hx, Hy.
    destruct N as [|n0 [|n1 [|n2 N']]]; simpl in HN; try lia.
    destruct x as [|x0 [|x1 [|x2 [|x3 [|x4 x']]]]]; simpl in Lx; try lia.
    destruct y as [|y0 [|y1 [|y2 [|y3 [|y4 y']]]]]; simpl in Ly; try lia.
    unfold acdc_calc. rewrite Hx, Hy. eexists. reflexivity.
Qed.

(** X9: the exceptions of [acdc_calc]: [IndexError] when the list of
    coefficients has no third element, whatever the readings; otherwise
    [ValueError] when a reading of either channel is no number, however many
    readings there are; otherwise [IndexError] when a channel has fewer than
    five readings. *)
Theorem acdc_calc_exceptions (r : leituras) (N : list float) (v : float) :
  ((length N < 3)%nat -> acdc_calc r N v = Raise IndexError) /\
  ((3 <= length N)%nat ->
   Exists (fun a => py_float a = None) (std_readings r ++ dut_readings r) ->
   acdc_calc r N v = Raise ValueError) /\
  ((3 <= length N)%nat ->
   Forall parses (std_readings r) -> Forall parses (dut_readings r) ->
   (length (std_readings r) < 5)%nat \/ (length (dut_readings r) < 5)%nat ->
   acdc_calc r N v = Raise IndexError).
Proof.
  repeat split.
  - intros HN. unfold acdc_calc.
    destruct N as [|n0 [|n1 [|n2 N']]]; simpl in HN; try lia; reflexivity.
  - intros HN He. unfold acdc_calc.
    destruct N as [|n0 [|n1 [|n2 N']]]; simpl in HN; try lia.
    cbn [index nth_error obind].
    destruct (traverse float_of (std_readings r)) as [x|e|] eqn:Ex.
    + cbn [obind]. apply Exists_app in He as [He|He].
      * rewrite (traverse_unparsed _ He) in Ex. discriminate.
      * rewrite (traverse_unparsed _ He). reflexivity.
    + rewrite (traverse_raises _ _ Ex). reflexivity.
    + exfalso. revert Ex. apply traverse_decided. intros a. apply float_of_decided.
  - intros HN Hs Hd Hshort. unfold acdc_calc.
    destruct N as [|n0 [|n1 [|n2 N']]]; simpl in HN; try lia.
    cbn [index nth_error obind].
    apply parses_all in Hs as (x & Hx). apply parses_all in Hd as (y & Hy).
    destruct (all_parse _ _ Hx) as (_ & Lx). destruct (all_parse _ _ Hy) as (_ & Ly).
    apply traverse_float_of in Hx, Hy. rewrite Hx, Hy. cbn [obind].
    rewrite <- Lx, <- Ly in Hshort. clear Hx Hy Lx Ly.
    destruct x as [|x0 [|x1 [|x2 [|x3 [|x4 x']]]]]; try reflexivity.
    destruct y as [|y0 [|y1 [|y2 [|y3 [|y4 y']]]]]; try reflexivity.
    simpl in Hshort. lia.
Qed.

(** *** Answers that are no numbers *)

Lemma ler_run (ch : nat) (w : world) (x : string) (rest : list string) :
  dvm_pending w = x :: rest ->
  exists w',
    (emit (dvm_write (SENS_CHAN ch)) ;; emit (dvm_write (SENS_VOLT_RANG ch)) ;;
     emit (dvm_write INIT_CONT_OFF) ;; dvm_query_READ) w = (Ok x, w') /\
    dvm_pending w' = rest /\
    bus w' = bus w ++ [dvm_write (SENS_CHAN ch); dvm_write (SENS_VOLT_RANG ch);
                       dvm_write INIT_CONT_OFF; dvm_write READ] /\
    freq w' = freq w.
Proof.
  intros Hp. eexists. split.
  - rewrite !bind_emit. unfold dvm_query_READ. rewrite bind_emit.
    cbn [dvm_pending log]. rewrite Hp. reflexivity.
  - cbn [dvm_pending bus freq answered log]. rewrite Hp, <- !app_assoc. auto.
Qed.

(** A phase whose reading of the standard is no number raises [ValueError]
    after the device was read as well. *)
Lemma ciclo_bad_answer (c : sw_cmd) (r : leituras) (w : world)
  (x y : string) (rest : list string) :
  dvm_pending w = x :: y :: rest ->
  py_float x = None ->
  exists w',
    ciclo c r w = (Raise ValueError, w') /\
    dvm_pending w' = rest /\ bus w' = bus w ++ phase_events c.
Proof.
  intros Hp Hx.
  destruct (ler_run 2 (log (time_sleep (slices (inject_Z wait_time)))
                         (log (sw_write_raw c) w)) x (y :: rest) Hp)
    as (w1 & E1 & P1 & B1 & _).
  destruct (ler_run 1 w1 y rest P1) as (w2 & E2 & P2 & B2 & _).
  exists w2. split; [|split; [exact P2|]].
  - unfold ciclo, espera. rewrite !bind_emit.
    unfold ler_std. rewrite (bind_Ok _ _ _ _ _ E1).
    unfold ler_dut. rewrite (bind_Ok _ _ _ _ _ E2).
    unfold print_std, print_last, lift, bind.
    rewrite rev_unit. cbn [index nth_error obind]. unfold float_of. rewrite Hx.
    reflexivity.
  - rewrite B2, B1. cbn [bus log]. unfold phase_events. rewrite <- !app_assoc.
    reflexivity.
Qed.

(** X10: when the first answer of a cycle is no number, [measure] raises
    [ValueError], but only after both channels were read: the answer of the
    device has been taken too, and nothing was switched after the first
    phase. *)
Theorem measure_bad_answer
  (vdc vac : float) (w : world) (f : float) (x y : string) (rest : list string) :
  freq w = Some f ->
  dvm_pending w = x :: y :: rest ->
  py_float x = None ->
  exists w',
    measure vdc vac [] w = (Raise ValueError, w') /\
    dvm_pending w' = rest /\
    bus w' = bus w ++ setup_events vdc vac f ++ phase_events ac.
Proof.
  intros Hf Hp Hx.
  unfold measure. rewrite bind_emit. rewrite (bind_get_freq _ _ f) by exact Hf.
  unfold espera. rewrite !bind_emit.
  match goal with
  | |- context [bind (ciclo ac ?r) _ ?w0] =>
      destruct (ciclo_bad_answer ac r w0 x y rest Hp Hx) as (w1 & E & P & B)
  end.
  exists w1. rewrite (bind_Raise _ _ _ _ _ E). repeat split; auto.
  rewrite B. cbn [bus log]. unfold setup_events. rewrite <- !app_assoc. reflexivity.
Qed.

(** *** A frequency that is no number *)

(** X11: when a frequency of the list is no number, [main] stops there: the
    frequencies before it were measured, then [float] raises before any
    command of the frequency point goes out, and the shutdown follows at
    once; the register and the answers left are those of the frequencies
    before, and no later frequency is measured. *)
Theorem main_bad_frequency
  (fuel : nat) (done : list string) (value : string) (rest : list string)
  (w w1 : world) :
  freq_array = done ++ value :: rest ->
  frequencies fuel done (started w) = (Ok tt, w1) ->
  py_float value = None ->
  exists w2,
    main fuel w = (Ok tt, w2) /\
    bus w2 = bus w1 ++ shutdown_events /\
    registro w2 = registro w1 /\
    dvm_pending w2 = dvm_pending w1.
Proof.
  intros Hl Hd Hv.
  assert (E : frequencies fuel freq_array (started w) = (Raise ValueError, w1)).
  { rewrite Hl, (frequencies_app _ _ _ _ _ Hd). unfold frequencies. cbn [for_each].
    unfold bind at 1. unfold frequency_point. unfold bind at 1.
    unfold lift, float_of. rewrite Hv. reflexivity. }
  rewrite (main_except _ _ _ _ E).
  destruct (stop_instruments_run w1) as (w2 & Hs & Hb & Hr & Hp & _).
  exists w2. auto.
Qed.

(** *** A frequency point that completes *)

Lemma keeps_ret {A : Type} (a : A) : keeps_register (ret a).
Proof. intros w o w' H; injection H as _ <-. reflexivity. Qed.

Lemma keeps_lift {A : Type} (o : outcome A) : keeps_register (lift o).
Proof. intros w o' w' H; injection H as _ <-. reflexivity. Qed.

Lemma keeps_emit (e : event) : keeps_register (emit e).
Proof. intros w o w' H; injection H as _ <-. reflexivity. Qed.

Lemma keeps_get_freq : keeps_register get_freq.
Proof.
  intros w o w' H. unfold get_freq in H. destruct (freq w); injection H as _ <-; reflexivity.
Qed.

Lemma keeps_bind {A B : Type} (m : io A) (f : A -> io B) :
  keeps_register m -> (forall a, keeps_register (f a)) -> keeps_register (bind m f).
Proof.
  intros Hm Hf w o w' H. unfold bind in H.
  destruct (m w) as [[a| |] w1] eqn:E; pose proof (Hm _ _ _ E) as H1.
  - rewrite (Hf a _ _ _ H). exact H1.
  - injection H as _ <-. exact H1.
  - injection H as _ <-. exact H1.
Qed.

Lemma keeps_dvm_query_READ : keeps_register dvm_query_READ.
Proof.
  unfold dvm_query_READ. apply keeps_bind; [apply keeps_emit|]. intros _ w o w' H.
  destruct (dvm_pending w); injection H as _ <-; reflexivity.
Qed.

Lemma keeps_for_each {A S : Type} (l : list A) (body : A -> S -> io S) (s : S) :
  (forall a s', keeps_register (body a s')) -> keeps_register (for_each l body s).
Proof.
  intros Hb. revert s. induction l as [|a l IH]; intros s; simpl.
  - apply keeps_ret.
  - apply keeps_bind; [apply Hb | exact IH].
Qed.

Ltac keeps_step :=
  first
    [ apply keeps_ret | apply keeps_lift | apply keeps_emit | apply keeps_get_freq
    | apply keeps_dvm_query_READ | apply keeps_bind; [|intros ?] ].

Lemma keeps_n_measure_step (j : Z) (s : list string * list string * list Z) :
  keeps_register (n_measure_step j s).
Proof.
  destruct s as [[std dut] k].
  unfold n_measure_step, espera, ler_std, ler_dut, print_std, print_dut, print_last.
  destruct (j mod 2 =? 0)%Z; repeat keeps_step.
Qed.

(** [n_measure] writes no row. *)
Lemma keeps_n_measure (M : Z) : keeps_register (n_measure M).
Proof.
  unfold n_measure, espera, ler_std, ler_dut, print_std, print_dut, print_last. cbv zeta.
  repeat first [ apply keeps_for_each; intros ? ?; apply keeps_n_measure_step
               | keeps_step ].
  match goal with s : (list string * list string * list Z)%type |- _ =>
    destruct s as [[std dut] k] end.
  repeat keeps_step.
Qed.

(** X12: a frequency point that completes has taken thirteen answers for the
    coefficients and the equilibrium, ten more for the first turn of its
    loop and eight for every later turn; in the register it has written its
    heading, then one row for each accepted repetition, in order, then the
    five rows of the summary. *)
Theorem frequency_point_completes (fuel : nat) (value : string) (w w' : world) :
  frequency_point fuel value w = (Ok tt, w') ->
  exists n vac cycles rows st,
    length (dvm_pending w) =
      (length (dvm_pending w') + 13 +
       match cycles with [] => 0 | _ :: later => 10 + 8 * length later end)%nat /\
    Z.of_nat (length (filter accepted cycles)) = Z.max 0 repeticoes /\
    Forall2 (fun row res => exists v ca, row = linha res v ca) rows
      (filter accepted cycles) /\
    registro w' =
      registro w ++ [frequencia_rows value n vac] ++ rows ++
      [blank; Media (numpy.mean (diff_acdc st)); Desvio_padrao (numpy.std 1 (diff_acdc st));
       blank; blank] /\
    diff_acdc st = map dif (filter accepted cycles).
Proof.
  unfold frequency_point. intros H.
  step H as f wf Ef. unfold lift in Ef.
  destruct (float_of value) as [f'| |]; try discriminate. injection Ef as <- <-.
  step H as u1 w1 E1. injection E1 as _ <-.
  step H as n wn En. pose proof (keeps_n_measure _ _ _ _ En) as Hrn.
  step H as vac wv Ev.
  step H as u2 w2 E2. apply writerows_inv in E2 as ->.
  step H as u3 w3 E3.
  assert (w3 = append_rows [frequencia_rows value n vac] wv) as ->.
  { destruct (1.1 * vac_nominal <? vac); [discriminate | injection E3 as _ <-; reflexivity]. }
  step H as st w4 Es. apply writerows_inv in H as ->.
  apply sampling_turns in Es as (cycles & Ht & Hexit).
  destruct (turns_accumulate _ _ _ _ _ _ _ Ht) as (Hd & Hi & Hm).
  cbn [diff_acdc first_turn i app] in Hd, Hi, Hm.
  destruct (turns_write_rows _ _ _ _ _ _ _ Ht) as (rows & Hr & Hrows).
  pose proof (turns_take_answers _ _ _ _ _ _ Ht) as Ha.
  apply n_measure_inv in En as (fn & x0 & y0 & pairs & _ & Hlen & Hpn & _ & _ & _).
  apply equilibrio_inv in Ev as (fe & r0 & r1 & r2 & xi & x1 & x2 & _ & Hpe & _ & _ & _ & _ & Hre).
  exists n, vac, cycles, rows, st. repeat split; auto.
  - cbn [dvm_pending tuned append_rows] in Hpn, Ha |- *. rewrite Hpn, Hpe.
    cbn [length]. rewrite length_app.
    assert (Hpairs : length (answers pairs) = (2 * length pairs)%nat).
    { unfold answers. clear. induction pairs as [|p l IH]; simpl; [reflexivity | lia]. }
    rewrite Hpairs, Hlen. change (rounded_up 4) with 4%Z. cbn [length].
    change (Z.to_nat 4) with 4%nat. lia.
  - apply Z.ltb_ge in Hexit. lia.
  - cbn [registro append_rows]. rewrite Hr. cbn [registro append_rows].
    rewrite Hre, Hrn. cbn [registro tuned]. rewrite <- !app_assoc. reflexivity.
Qed.

(** *** Edges of the coefficients and of the outlier gate *)

(** X13: asked for no perturbation ([M] zero or negative), [n_measure] reads the
    baseline only, switches to AC and returns without an error; its four
    coefficients are NaN, the mean and the deviation of no value. *)
Theorem n_measure_without_perturbation (M : Z) (w : world) (n : n_array) (w' : world) :
  (M <= 0)%Z ->
  n_measure M w = (Ok n, w') ->
  n_results n = [nan; nan; nan; nan] /\ k n = [] /\
  exists f x0 y0,
    freq w = Some f /\
    dvm_pending w = x0 :: y0 :: dvm_pending w' /\
    bus w' = bus w ++ baseline_events f ++ [sw_write_raw ac].
Proof.
  intros HM H.
  apply n_measure_inv in H as (f & x0 & y0 & pairs & Hf & Hlen & Hp & Hc & Hb & _).
  assert (Hr : (rounded_up M <= 0)%Z).
  { unfold rounded_up. destruct (Z.even M) eqn:E; [lia|].
    assert (M <> 0%Z) by (intros ->; discriminate). lia. }
  assert (Hn : Z.to_nat (rounded_up M) = 0%nat) by lia.
  rewrite Hn in Hlen. destruct pairs; [|discriminate].
  assert (Hrange : range 1 (rounded_up M + 1) = []).
  { unfold range. replace (Z.to_nat (rounded_up M + 1 - 1)) with 0%nat by lia. reflexivity. }
  rewrite Hrange in Hc, Hb. cbn [map flat_map answers app] in Hc, Hb, Hp.
  unfold calculo_do_n in Hc. cbn [index nth_error obind tl traverse] in Hc.
  destruct (float_of x0) as [X| |]; try discriminate. cbn [obind] in Hc.
  destruct (float_of y0) as [Y| |]; try discriminate. cbn [obind map] in Hc.
  injection Hc as <-. cbn [n_results k].
  repeat split. exists f, x0, y0. auto.
Qed.

(** X15: a repetition whose difference between the AC and DC readings of the
    device is NaN passes the outlier gate: it is counted, its AC-DC
    difference joins the list of results and its row is written. *)
Theorem nan_difference_is_accepted
  (n_value : list float) (vac : float) (st : locals) (w : world)
  (st' : locals) (w' : world) (res : acdc) :
  repeticao n_value vac st w = (Ok st', w') ->
  results st' = Some res ->
  is_nan (Delta res) = true ->
  i st' = (i st + 1)%Z /\
  diff_acdc st' = diff_acdc st ++ [dif res] /\
  exists ca, registro w' = registro w ++ [linha res (vdc_atual st) ca].
Proof.
  intros H Hres Hnan.
  apply repeticao_inv_full in H
    as (c & r & w1 & res' & ca & _ & Hm & _ & _ & _ & -> & ->).
  cbn [results] in Hres. injection Hres as ->.
  assert (Hacc : accepted res = true).
  { unfold accepted. rewrite (is_nan_eq _ Hnan).
    change (abs nan) with nan. rewrite ltb_nan_r. reflexivity. }
  rewrite Hacc. cbn [i diff_acdc]. repeat split.
  exists ca. cbn [registro append_rows sampled].
  destruct (measure_trailing _ _ _ _ _ _ Hm) as (-> & _). reflexivity.
Qed.

(** *** With answers that are numbers, the measurements return *)

Lemma ler_std_run (w : world) (x : string) (rest : list string) :
  dvm_pending w = x :: rest ->
  exists w',
    ler_std w = (Ok x, w') /\ dvm_pending w' = rest /\
    bus w' = bus w ++ [dvm_write (SENS_CHAN 2); dvm_write (SENS_VOLT_RANG 2);
                       dvm_write INIT_CONT_OFF; dvm_write READ] /\
    freq w' = freq w.
Proof. exact (ler_run 2 w x rest). Qed.

Lemma ler_dut_run (w : world) (x : string) (rest : list string) :
  dvm_pending w = x :: rest ->
  exists w',
    ler_dut w = (Ok x, w') /\ dvm_pending w' = rest /\
    bus w' = bus w ++ [dvm_write (SENS_CHAN 1); dvm_write (SENS_VOLT_RANG 1);
                       dvm_write INIT_CONT_OFF; dvm_write READ] /\
    freq w' = freq w.
Proof. exact (ler_run 1 w x rest). Qed.

Lemma read_both_run {B : Type} (w : world) (x y : string) (rest : list string)
  (g : string -> string -> io B) :
  dvm_pending w = x :: y :: rest ->
  exists w',
    (let* a := ler_std in let* b := ler_dut in g a b) w = g x y w' /\
    dvm_pending w' = rest /\ bus w' = bus w ++ reading_events /\ freq w' = freq w.
Proof.
  intros Hp.
  destruct (ler_std_run w x (y :: rest) Hp) as (w1 & E1 & P1 & B1 & F1).
  destruct (ler_dut_run w1 y rest P1) as (w2 & E2 & P2 & B2 & F2).
  exists w2. rewrite (bind_Ok _ _ _ _ _ E1), (bind_Ok _ _ _ _ _ E2).
  repeat split; auto; try congruence.
  rewrite B2, B1, <- app_assoc. reflexivity.
Qed.

Lemma ciclo_run (c : sw_cmd) (r : leituras) (w : world) (x y : string) (rest : list string) :
  dvm_pending w = x :: y :: rest ->
  parses x -> parses y ->
  exists w',
    ciclo c r w = (Ok {| std_readings := std_readings r ++ [x];
                         dut_readings := dut_readings r ++ [y] |}, w') /\
    dvm_pending w' = rest /\ bus w' = bus w ++ phase_events c /\ freq w' = freq w.
Proof.
  intros Hp Hx Hy. unfold ciclo, espera. rewrite !bind_emit.
  match goal with
  | |- context [bind ler_std _ ?w0] =>
      destruct (read_both_run w0 x y rest
                  (fun x y =>
                     print_std (std_readings r ++ [x]) ;;
                     print_dut (dut_readings r ++ [y]) ;;
                     ret {| std_readings := std_readings r ++ [x];
                            dut_readings := dut_readings r ++ [y] |}) Hp)
        as (w1 & E & P & B & F)
  end.
  exists w1. split; [|split; [exact P | split; [|exact F]]].
  - etransitivity; [exact E|]. unfold print_std, print_dut.
    unfold bind. rewrite (print_last_ok _ _ _ Hx), (print_last_ok _ _ _ Hy). reflexivity.
  - rewrite B. cbn [bus log]. unfold phase_events, reading_events.
    rewrite <- !app_assoc. reflexivity.
Qed.

Ltac run_ciclo x y P w' E P' B' :=
  match goal with
  | |- context [bind (ciclo ?c ?r0) _ ?w0] =>
      destruct (ciclo_run c r0 w0 x y _ P) as (w' & E & P' & B' & _); auto;
      rewrite (bind_Ok _ _ _ _ _ E)
  end.

(** X16: with the frequency set and ten answers pending that are numbers,
    [measure] returns them as the five readings of each channel; given the
    first pair as carried over, it returns the same cycle from the eight
    answers that follow, without the first phase. *)
Theorem measure_returns
  (vdc vac : float) (w : world) (f : float)
  (x0 y0 x1 y1 x2 y2 x3 y3 x4 y4 : string) (rest : list string) :
  freq w = Some f ->
  Forall parses [x0; y0; x1; y1; x2; y2; x3; y3; x4; y4] ->
  let r := {| std_readings := [x0; x1; x2; x3; x4];
              dut_readings := [y0; y1; y2; y3; y4] |} in
  let later := phase_events dc ++ phase_events ac ++ phase_events dc ++ phase_events ac in
  (dvm_pending w = [x0; y0; x1; y1; x2; y2; x3; y3; x4; y4] ++ rest ->
   exists w',
     measure vdc vac [] w = (Ok r, w') /\ dvm_pending w' = rest /\
     bus w' = bus w ++ setup_events vdc vac f ++ phase_events ac ++ later) /\
  (dvm_pending w = [x1; y1; x2; y2; x3; y3; x4; y4] ++ rest ->
   exists w',
     measure vdc vac [x0; y0] w = (Ok r, w') /\ dvm_pending w' = rest /\
     bus w' = bus w ++ setup_events vdc vac f ++ later).
Proof.
  intros Hf Hall r later.
  repeat match goal with H : Forall _ (_ :: _) |- _ => inversion_clear H end.
  split; intros Hp.
  - unfold measure. rewrite bind_emit. rewrite (bind_get_freq _ _ f) by exact Hf.
    unfold espera. rewrite !bind_emit.
    run_ciclo x0 y0 Hp w1 E1 P1 B1. run_ciclo x1 y1 P1 w2 E2 P2 B2.
    run_ciclo x2 y2 P2 w3 E3 P3 B3. run_ciclo x3 y3 P3 w4 E4 P4 B4.
    match goal with
    | |- context [ciclo ac ?r0 w4] =>
        destruct (ciclo_run ac r0 w4 x4 y4 _ P4) as (w5 & E5 & P5 & B5 & _); auto
    end.
    exists w5. split; [exact E5 | split; [exact P5|]].
    rewrite B5, B4, B3, B2, B1. cbn [bus log]. unfold later, setup_events.
    rewrite <- !app_assoc. reflexivity.
  - unfold measure. rewrite bind_emit. rewrite (bind_get_freq _ _ f) by exact Hf.
    unfold espera. rewrite !bind_emit.
    rewrite !bind_assoc. unfold lift at 1. unfold bind at 1. cbn [index nth_error].
    rewrite !bind_assoc. unfold lift at 1. unfold bind at 1. cbn [index nth_error].
    rewrite !bind_assoc. unfold print_std at 1. unfold bind at 1.
    rewrite (print_last_ok [] x0) by assumption.
    rewrite !bind_assoc. unfold print_dut at 1. unfold bind at 1.
    rewrite (print_last_ok [] y0) by assumption.
    unfold bind at 1. unfold ret at 1.
    run_ciclo x1 y1 Hp w2 E2 P2 B2.
    run_ciclo x2 y2 P2 w3 E3 P3 B3. run_ciclo x3 y3 P3 w4 E4 P4 B4.
    match goal with
    | |- context [ciclo ac ?r0 w4] =>
        destruct (ciclo_run ac r0 w4 x4 y4 _ P4) as (w5 & E5 & P5 & B5 & _); auto
    end.
    exists w5. split; [exact E5 | split; [exact P5|]].
    rewrite B5, B4, B3, B2. cbn [bus log]. unfold later, setup_events.
    rewrite <- !app_assoc. reflexivity.
Qed.

(** X17: with the frequency set and three answers pending that are numbers,
    [equilibrio] returns: the interpolation always has a value.  Three
    answers are taken, all of the device, and the switch is left on DC. *)
Theorem equilibrio_returns
  (w : world) (f : float) (r0 r1 r2 : string) (rest : list string) (xi x1 x2 : float) :
  freq w = Some f ->
  dvm_pending w = r0 :: r1 :: r2 :: rest ->
  py_float r0 = Some xi -> py_float r1 = Some x1 -> py_float r2 = Some x2 ->
  let reading := [dvm_write (SENS_CHAN 1); dvm_write (SENS_VOLT_RANG 1);
                  dvm_write INIT_CONT_OFF; dvm_write READ] in
  exists v w',
    equilibrio w = (Ok v, w') /\
    numpy.interp xi [x1; x2] [0.999 * vac_nominal; 1.001 * vac_nominal] = Ok v /\
    dvm_pending w' = rest /\
    bus w' = bus w ++ equilibrium_start f ++
             [sw_write_raw ac; time_sleep (slices (inject_Z wait_time))] ++ reading ++
             [sw_write_raw dc; time_sleep (slices 2);
              ac_source_write (SOUR_VOLT 2 (1.001 * vac_nominal)); time_sleep (slices 2);
              sw_write_raw ac; time_sleep (slices (inject_Z wait_time))] ++ reading ++
             [sw_write_raw dc].
Proof.
  intros Hf Hp H0 H1 H2 reading.
  assert (P0 : parses r0) by (eexists; eauto).
  assert (P1 : parses r1) by (eexists; eauto).
  assert (P2 : parses r2) by (eexists; eauto).
  destruct (numpy.interp xi [x1; x2] [0.999 * vac_nominal; 1.001 * vac_nominal])
    as [v| |] eqn:Ei; try (rewrite interp_two in Ei; discriminate).
  unfold equilibrio, espera. rewrite (bind_get_freq _ _ f) by exact Hf.
  rewrite !bind_emit.
  match goal with
  | |- context [bind ler_dut _ ?w0] =>
      destruct (ler_dut_run w0 r0 _ Hp) as (wa & Ea & Pa & Ba & _)
  end.
  rewrite (bind_Ok _ _ _ _ _ Ea). unfold print_dut at 1. unfold bind at 1.
  rewrite (print_last_ok [] r0) by assumption. rewrite !bind_emit.
  match goal with
  | |- context [bind ler_dut _ ?w0] =>
      destruct (ler_dut_run w0 r1 _ Pa) as (wb & Eb & Pb & Bb & _)
  end.
  rewrite (bind_Ok _ _ _ _ _ Eb). unfold print_dut at 1. unfold bind at 1.
  rewrite (print_last_ok [r0] r1) by assumption. rewrite !bind_emit.
  match goal with
  | |- context [bind ler_dut _ ?w0] =>
      destruct (ler_dut_run w0 r2 _ Pb) as (wc & Ec & Pc & Bc & _)
  end.
  rewrite (bind_Ok _ _ _ _ _ Ec). unfold print_dut at 1. unfold bind at 1.
  rewrite (print_last_ok [r0; r1] r2) by assumption. rewrite !bind_emit.
  unfold lift, float_of. rewrite H0, H1, H2. cbn [obind]. rewrite Ei.
  eexists. eexists. split; [reflexivity|]. split; [reflexivity|].
  cbn [dvm_pending bus log]. split; [exact Pc|].
  rewrite Bc. cbn [bus log]. rewrite Bb. cbn [bus log]. rewrite Ba. cbn [bus log].
  unfold equilibrium_start, reading. rewrite <- !app_assoc. reflexivity.
Qed.

Lemma n_measure_step_run (j : Z) (std dut : list string) (ks : list Z) (w : world)
  (x y : string) (rest : list string) :
  dvm_pending w = x :: y :: rest ->
  parses x -> parses y ->
  exists w',
    n_measure_step j (std, dut, ks) w = (Ok (std ++ [x], dut ++ [y], ks ++ [weight j]), w') /\
    dvm_pending w' = rest /\ freq w' = freq w.
Proof.
  intros Hp Hx Hy. unfold n_measure_step, weight. rewrite mod2_even, <- Z.negb_even.
  destruct (Z.even j); cbn [negb]; unfold espera; rewrite !bind_emit;
    match goal with
    | |- context [bind ler_std _ ?w0] =>
        destruct (ler_std_run w0 x (y :: rest) Hp) as (w1 & E1 & P1 & _ & F1)
    end;
    rewrite (bind_Ok _ _ _ _ _ E1);
    destruct (ler_dut_run w1 y rest P1) as (w2 & E2 & P2 & _ & F2);
    rewrite (bind_Ok _ _ _ _ _ E2);
    unfold print_std, print_dut, bind;
    rewrite (print_last_ok _ _ _ Hx), (print_last_ok _ _ _ Hy);
    exists w2; (split; [reflexivity | split; [exact P2 | rewrite F2, F1; reflexivity]]).
Qed.

Lemma n_measure_loop_run (l : list Z) :
  forall (std dut : list string) (ks : list Z) (w : world)
         (pairs : list (string * string)) (rest : list string),
  length pairs = length l ->
  dvm_pending w = answers pairs ++ rest ->
  Forall (fun p => parses (fst p) /\ parses (snd p)) pairs ->
  exists w',
    for_each l n_measure_step (std, dut, ks) w =
      (Ok (std ++ map fst pairs, dut ++ map snd pairs, ks ++ map weight l), w') /\
    dvm_pending w' = rest /\ freq w' = freq w.
Proof.
  induction l as [|j l IH]; intros std dut ks w [|[x y] pairs] rest Hlen Hp Hall;
    try discriminate.
  - exists w. simpl. rewrite !app_nil_r. auto.
  - inversion_clear Hall as [|? ? [Hx Hy] Hall'].
    destruct (n_measure_step_run j std dut ks w x y (answers pairs ++ rest) Hp Hx Hy)
      as (w1 & E1 & P1 & F1).
    destruct (IH (std ++ [x]) (dut ++ [y]) (ks ++ [weight j]) w1 pairs rest)
      as (w2 & E2 & P2 & F2); auto.
    exists w2. cbn [for_each]. rewrite (bind_Ok _ _ _ _ _ E1), E2.
    cbn [map fst snd]. rewrite <- !app_assoc. repeat split; auto. congruence.
Qed.

(** X18: with the frequency set, and pending the baseline pair and one pair of
    answers for every perturbation, all of them numbers, [n_measure]
    returns: its own arithmetic raises nothing.  It has taken exactly those
    answers and gives one coefficient sample per perturbation and channel. *)
Theorem n_measure_returns
  (M : Z) (w : world) (f : float) (x0 y0 : string) (pairs : list (string * string))
  (rest : list string) :
  freq w = Some f ->
  length pairs = Z.to_nat (rounded_up M) ->
  dvm_pending w = x0 :: y0 :: answers pairs ++ rest ->
  parses x0 -> parses y0 ->
  Forall (fun p => parses (fst p) /\ parses (snd p)) pairs ->
  exists n w',
    n_measure M w = (Ok n, w') /\
    dvm_pending w' = rest /\
    length (nX n) = length pairs /\ length (nY n) = length pairs /\
    k n = map weight (range 1 (rounded_up M + 1)).
Proof.
  intros Hf Hlen Hp Hx0 Hy0 Hall.
  assert (Hcalc : exists n,
             calculo_do_n (x0 :: map fst pairs) (y0 :: map snd pairs)
               (map weight (range 1 (rounded_up M + 1))) = Ok n).
  { destruct Hx0 as (X & HX). destruct Hy0 as (Y & HY).
    assert (Hs : Forall parses (map fst pairs))
      by (apply Forall_map; eapply Forall_impl; [|exact Hall]; intros ? []; assumption).
    assert (Hd : Forall parses (map snd pairs))
      by (apply Forall_map; eapply Forall_impl; [|exact Hall]; intros ? []; assumption).
    apply parses_all in Hs as (xs & Hxs). apply parses_all in Hd as (ys & Hys).
    destruct (all_parse _ _ Hxs) as (_ & Lx). destruct (all_parse _ _ Hys) as (_ & Ly).
    rewrite length_map in Lx, Ly.
    apply traverse_float_of in Hxs, Hys.
    unfold calculo_do_n. cbn [index nth_error obind tl]. unfold float_of at 1 2.
    rewrite HX, HY. cbn [obind]. rewrite Hxs, Hys. cbn [obind].
    unfold multiply. rewrite !length_map, range_length.
    replace (Z.to_nat (rounded_up M + 1 - 1)) with (length pairs) by lia.
    rewrite Lx, Ly, Nat.eqb_refl. cbn [obind]. eexists. reflexivity. }
  destruct Hcalc as (n & Hn).
  unfold n_measure. rewrite rounded_up_code. unfold espera.
  rewrite bind_emit. rewrite (bind_get_freq _ _ f) by exact Hf. rewrite !bind_emit.
  match goal with
  | |- context [bind ler_std ?g ?w0] =>
      destruct (read_both_run w0 x0 y0 (answers pairs ++ rest)
                  (fun x y =>
                     print_std [x] ;; print_dut [y] ;;
                     let* s := for_each (range 1 (rounded_up M + 1)) n_measure_step
                                 ([x], [y], []) in
                     let '(std_readings, dut_readings, k) := s in
                     emit (sw_write_raw ac) ;;
                     lift (calculo_do_n std_readings dut_readings k)) Hp)
        as (w1 & E & P & _ & F)
  end.
  destruct (n_measure_loop_run (range 1 (rounded_up M + 1)) [x0] [y0] [] w1 pairs rest)
    as (w2 & E2 & P2 & F2); auto.
  { rewrite range_length. lia. }
  exists n. eexists. split.
  - etransitivity; [exact E|]. unfold print_std, print_dut.
    unfold bind at 1. rewrite (print_last_ok [] x0) by assumption.
    unfold bind at 1. rewrite (print_last_ok [] y0) by assumption.
    rewrite (bind_Ok _ _ _ _ _ E2). cbn [app]. rewrite bind_emit. unfold lift.
    rewrite Hn. reflexivity.
  - cbn [dvm_pending log]. split; [exact P2|].
    apply calculo_do_n_inv in Hn as (Hk & _ & _ & _ & _ & _ & LX & LY & _).
    rewrite LX, LY, Hk. rewrite !length_map, range_length. repeat split; lia.
Qed.

(** *** The AC voltage of the sampling loop, and a loop of no repetition *)

Lemma emits_ciclo_ac (v : float) (c : sw_cmd) (r : leituras) :
  emits (ac_level_is v) (ciclo c r).
Proof.
  unfold ciclo, espera, ler_std, ler_dut, print_std, print_dut, print_last.
  repeat emits_step.
Qed.

Lemma emits_measure_ac (vdc vac : float) (c : list string) :
  emits (ac_level_is vac) (measure vdc vac c).
Proof.
  unfold measure, espera, print_std, print_dut, print_last.
  repeat first [apply emits_ciclo_ac | emits_step].
  destruct c; repeat first [apply emits_ciclo_ac | emits_step].
Qed.

Lemma emits_repeticao_ac (n_value : list float) (vac : float) (st : locals) :
  emits (ac_level_is vac) (repeticao n_value vac st).
Proof.
  unfold repeticao, registro_linha.
  apply emits_bind; [apply emits_lift | intros c].
  apply emits_bind; [apply emits_measure_ac | intros r].
  apply emits_bind; [apply emits_lift | intros res].
  apply emits_bind; [apply emits_bme280_read | intros ca].
  apply emits_bind.
  - destruct (50 <? abs (Delta res)); repeat emits_step.
  - intros [[d1 d2] i']. destruct (_ <? _); emits_step.
Qed.

Lemma emits_sampling_ac (n_value : list float) (vac : float) (fuel : nat) (st : locals) :
  emits (ac_level_is vac) (sampling fuel n_value vac st).
Proof.
  revert st. induction fuel as [|fuel IH]; intros st; simpl.
  - destruct (i st <? repeticoes)%Z; [|apply emits_ret].
    intros w o w' H; injection H as _ <-. exists [].
    split; [symmetry; apply app_nil_r | constructor].
  - destruct (i st <? repeticoes)%Z; [|apply emits_ret].
    apply emits_bind; [apply emits_repeticao_ac | exact IH].
Qed.

(** X19: the sampling loop never adjusts the AC voltage: every voltage it sets
    on the AC channel of the source is the one it was started with, the
    equilibrium voltage, in all turns and however the loop ends. *)
Theorem sampling_ac_level_fixed
  (fuel : nat) (n_value : list float) (vac : float) (st : locals)
  (w : world) (o : outcome locals) (w' : world) :
  sampling fuel n_value vac st w = (o, w') ->
  exists t,
    bus w' = bus w ++ t /\
    forall u, In (ac_source_write (SOUR_VOLT 2 u)) t -> u = vac.
Proof.
  intros H. destruct (emits_sampling_ac n_value vac fuel st _ _ _ H) as (t & Ht & HP).
  exists t. split; [exact Ht|]. intros u Hu.
  rewrite Forall_forall in HP. exact (HP _ Hu u eq_refl).
Qed.

(** X20: with no repetition asked for ([repeticoes] zero or negative) a frequency
    point that completes has run no cycle: after the thirteen answers of the
    coefficients and the equilibrium it takes none, and in the register its
    heading is followed at once by a summary whose mean and deviation are
    NaN. *)
Theorem frequency_point_without_repetition (fuel : nat) (value : string) (w w' : world) :
  (repeticoes <= 0)%Z ->
  frequency_point fuel value w = (Ok tt, w') ->
  length (dvm_pending w) = (length (dvm_pending w') + 13)%nat /\
  exists n vac,
    registro w' =
      registro w ++
      [frequencia_rows value n vac; blank; Media nan; Desvio_padrao nan; blank; blank].
Proof.
  intros Hrep. unfold frequency_point. intros H.
  step H as f wf Ef. unfold lift in Ef.
  destruct (float_of value) as [f'| |]; try discriminate. injection Ef as <- <-.
  step H as u1 w1 E1. injection E1 as _ <-.
  step H as n wn En. pose proof (keeps_n_measure _ _ _ _ En) as Hrn.
  step H as vac wv Ev.
  step H as u2 w2 E2. apply writerows_inv in E2 as ->.
  step H as u3 w3 E3.
  assert (w3 = append_rows [frequencia_rows value n vac] wv) as ->.
  { destruct (1.1 * vac_nominal <? vac); [discriminate | injection E3 as _ <-; reflexivity]. }
  step H as st w4 Es. apply writerows_inv in H as ->.
  assert (Hst : st = first_turn /\ w4 = append_rows [frequencia_rows value n vac] wv).
  { destruct fuel; simpl in Es; replace (0 <? repeticoes)%Z with false in Es
      by (symmetry; apply Z.ltb_ge; exact Hrep);
      injection Es as <- <-; split; reflexivity. }
  destruct Hst as (-> & ->).
  apply n_measure_inv in En as (fn & x0 & y0 & pairs & _ & Hlen & Hpn & _ & _ & _).
  apply equilibrio_inv in Ev
    as (fe & r0 & r1 & r2 & xi & x1 & x2 & _ & Hpe & _ & _ & _ & _ & Hre).
  split.
  - cbn [dvm_pending tuned append_rows] in Hpn |- *. rewrite Hpn, Hpe.
    cbn [length]. rewrite length_app.
    assert (Hpairs : length (answers pairs) = (2 * length pairs)%nat).
    { unfold answers. clear. induction pairs as [|p l IH]; simpl; [reflexivity | lia]. }
    rewrite Hpairs, Hlen. change (rounded_up 4) with 4%Z. cbn [length].
    change (Z.to_nat 4) with 4%nat. lia.
  - exists n, vac. cbn [registro append_rows]. rewrite Hre, Hrn. cbn [registro tuned].
    rewrite <- !app_assoc. reflexivity.
Qed.

(** *** A sensor that fails *)

(** X21: when the sensor of the ambient conditions fails after a cycle was
    measured and calculated, the turn raises the sensor's exception: the
    answers of the cycle have been taken, but no row is written for it. *)
Theorem sensor_failure_loses_the_cycle
  (n_value : list float) (vac : float) (st : locals) (w : world)
  (c : list string) (r : leituras) (w1 : world) (res : acdc) :
  ciclo_ac st = Ok c ->
  measure (vdc_atual st) vac c w = (Ok r, w1) ->
  acdc_calc r n_value (vdc_atual st) = Ok res ->
  bme_pending w1 = [] ->
  repeticao n_value vac st w = (Raise OSError, w1) /\
  registro w1 = registro w /\
  length (dvm_pending w) =
    (length (dvm_pending w1) + match c with [] => 10 | _ :: _ => 8 end)%nat.
Proof.
  intros Hc Hm Ha Hb. split; [|split].
  - unfold repeticao. unfold bind at 1. unfold lift at 1. rewrite Hc.
    unfold bind at 1. rewrite Hm. unfold bind at 1. unfold lift at 1. rewrite Ha.
    unfold bind at 1. unfold bme280_read. rewrite Hb. reflexivity.
  - destruct (measure_trailing _ _ _ _ _ _ Hm) as (Hreg & _). exact Hreg.
  - destruct (measure_lengths _ _ _ _ _ _ Hm) as (_ & _ & Hp). exact Hp.
Qed.

End Program.

(** ** The properties on the bench *)

Local Open Scope float_scope.

Lemma acdc_calc_formulas_witness :
  let Xac := (0 + (0 + 1.0000 + 1.0001 + 1.0000)) / 3 in
  let Xdc := (0 + (0 + 1.0002 + 1.0003)) / 2 in
  let Yac := (0 + (0 + 0.9990 + 0.9989 + 0.9990)) / 3 in
  let Ydc := (0 + (0 + 0.9991 + 0.9992)) / 2 in
  let X := Xac / Xdc - 1 in
  let Y := Yac / Ydc - 1 in
  acdc_calc Bench.py_float Bench.cycle Bench.N 10 =
    Ok {| std_array := [1.0000; 1.0002; 1.0001; 1.0003; 1.0000];
          dut_array := [0.9990; 0.9991; 0.9989; 0.9992; 0.9990];
          dif := 1e6 * ((X / 100 - Y / 98.5) / (1 + Y / 98.5));
          Delta := 1e6 * (Yac - Ydc);
          adj_dc := 10 * (1 + (Yac - Ydc) / (98.5 * Ydc)) |} /\
  (1e6 * ((X / 100 - Y / 98.5) / (1 + Y / 98.5)) =? -0.3032901751057883) = true /\
  (1e6 * (Yac - Ydc) =? -183.33333333331313) = true.
Proof.
  split; [|vm_compute; split; reflexivity].
  exact (acdc_calc_formulas Bench.py_float Bench.cycle Bench.N 10
           1.0000 1.0002 1.0001 1.0003 1.0000 0.9990 0.9991 0.9989 0.9992 0.9990 100 98.5
           eq_refl eq_refl eq_refl eq_refl eq_refl eq_refl eq_refl eq_refl).
Defined.

Lemma measure_carry_over_witness :
  let w := Bench.lab (Some 1000000)
             (tl (tl (Bench.interleave Bench.cycle_std Bench.cycle_dut))) in
  let w' := snd (measure 1 Bench.py_float 10 10 ["1.0000"; "0.9990"]%string w) in
  measure 1 Bench.py_float 10 10 ["1.0000"; "0.9990"]%string w = (Ok Bench.cycle, w') /\
  dvm_pending w' = [] /\
  exists f x1 y1 x2 y2 x3 y3 x4 y4,
    freq w = Some f /\
    nth_error (std_readings Bench.cycle) 0 = Some "1.0000"%string /\
    nth_error (dut_readings Bench.cycle) 0 = Some "0.9990"%string /\
    Bench.cycle = {| std_readings := ["1.0000"%string; x1; x2; x3; x4];
                     dut_readings := ["0.9990"%string; y1; y2; y3; y4] |} /\
    dvm_pending w = [x1; y1; x2; y2; x3; y3; x4; y4] ++ dvm_pending w' /\
    bus w' = bus w ++ setup_events 10 10 f ++
             phase_events 1 dc ++ phase_events 1 ac ++ phase_events 1 dc ++ phase_events 1 ac.
Proof.
  intros w w'.
  assert (H : measure 1 Bench.py_float 10 10 ["1.0000"; "0.9990"]%string w
              = (Ok Bench.cycle, w')) by (vm_compute; reflexivity).
  split; [exact H|]. split; [vm_compute; reflexivity|].
  exact (measure_carry_over 1 Bench.py_float 10 10 _ _ [] w Bench.cycle w' H).
Defined.

(** The value and the world that a piece of the program computes. *)
Ltac run_as a w' m :=
  let r := eval vm_compute in m in
  lazymatch r with
  | (Ok ?x, ?y) => pose (a := x); pose (w' := y)
  end.

Ltac value_as a o :=
  let r := eval vm_compute in o in
  lazymatch r with
  | Ok ?x => pose (a := x)
  end.

Lemma discarded_repetition_witness :
  let w := Bench.lab (Some 1000000) (Bench.interleave Bench.cycle_std Bench.cycle_dut) in
  exists st' w',
    repeticao 1 10 Bench.py_float Bench.N 10 (first_turn 10) w = (Ok st', w') /\
    i st' = 0%Z /\ diff_acdc st' = [] /\ Delta_list st' = [] /\ registro w' = [] /\
    option_map adj_dc (results st') = Some (vdc_atual st') /\
    ciclo_ac st' = Ok ["1.0000"; "0.9990"]%string.
Proof.
  intros w.
  run_as r w1 (measure 1 Bench.py_float 10 10 [] w).
  value_as res (acdc_calc Bench.py_float r Bench.N 10).
  destruct (discarded_repetition 1 10 Bench.py_float Bench.N 10 (first_turn 10) w
              [] r w1 res Bench.ca [Bench.ca; Bench.ca; Bench.ca])
    as (Hrun & Hreg & x4 & y4 & Hx & Hy & Hc);
    try (vm_compute; reflexivity).
  change (1.1 * vdc_nominal 10 <? adj_dc res) with false in Hrun.
  eexists. eexists. split; [exact Hrun|].
  injection Hx as <-. injection Hy as <-.
  repeat split; try reflexivity; assumption.
Defined.



Lemma n_measure_iterations_witness :
  let w := Bench.lab (Some 1000000) Bench.linearity in
  exists n w',
    n_measure 1 10 Bench.py_float 3 w = (Ok n, w') /\
    k n = [100; -100; 100; -100]%Z /\
    length (k n) = Z.to_nat 4 /\
    exists f x0 y0 pairs,
      length pairs = Z.to_nat 4 /\
      dvm_pending w = x0 :: y0 :: answers pairs ++ dvm_pending w' /\
      bus w' = bus w ++ baseline_events 1 10 f ++
               flat_map (perturbation_events 1 10) (range 1 (4 + 1)) ++ [sw_write_raw ac].
Proof.
  intros w.
  run_as n w' (n_measure 1 10 Bench.py_float 3 w).
  assert (H : n_measure 1 10 Bench.py_float 3 w = (Ok n, w')) by (vm_compute; reflexivity).
  destruct (n_measure_iterations 1 10 Bench.py_float 3 w n w' eq_refl H)
    as (_ & _ & Hlen & _ & Hex).
  exists n, w'. split; [exact H|]. split; [reflexivity|]. split; [exact Hlen|]. exact Hex.
Defined.


Lemma equilibrio_interpolates_and_clamps_witness :
  let w := Bench.lab (Some 1000000) Bench.bracket in
  let w' := snd (equilibrio 1 10 Bench.py_float w) in
  equilibrio 1 10 Bench.py_float w = (Ok 10, w') /\
  exists r0 r1 r2 xi x1 x2,
    dvm_pending w = r0 :: r1 :: r2 :: dvm_pending w' /\
    Bench.py_float r0 = Some xi /\ Bench.py_float r1 = Some x1 /\
    Bench.py_float r2 = Some x2 /\
    let y1 := 0.999 * vac_nominal 10 in
    let y2 := 1.001 * vac_nominal 10 in
    numpy.interp xi [x1; x2] [y1; y2] = Ok 10 /\
    ((x1 <? xi) = true -> (xi <? x2) = true ->
       is_nan ((y2 - y1) / (x2 - x1) * (xi - x1) + y1) = false ->
       10 = (y2 - y1) / (x2 - x1) * (xi - x1) + y1) /\
    ((x2 <? xi) = true -> 10 = y2) /\
    ((xi <? x1) = true -> (x1 <=? x2) = true -> 10 = y1).
Proof.
  intros w w'.
  assert (H : equilibrio 1 10 Bench.py_float w = (Ok 10, w')) by (vm_compute; reflexivity).
  split; [exact H|].
  exact (equilibrio_interpolates_and_clamps 1 10 Bench.py_float w 10 w' H).
Defined.

Lemma linearity_goes_on_to_equilibrium_witness :
  let w := Bench.lab None Bench.point_zero in
  let w' := snd (frequency_point 1 2 10 Bench.py_float 5 "1" w) in
  exists n w1,
    n_measure 1 10 Bench.py_float 4 (tuned (1 * 1000000) w) = (Ok n, w1) /\
    option_map is_finite (nth_error (n_results n) 0) = Some false /\
    option_map is_nan (nth_error (n_results n) 1) = Some true /\
    frequency_point 1 2 10 Bench.py_float 5 "1" w = (Ok tt, w') /\
    dvm_pending w' = [] /\
    length (registro w') = 8%nat.
Proof.
  intros w w'.
  run_as n w1 (n_measure 1 10 Bench.py_float 4 (tuned (1 * 1000000) w)).
  assert (Hn : n_measure 1 10 Bench.py_float 4 (tuned (1 * 1000000) w) = (Ok n, w1))
    by (vm_compute; reflexivity).
  exists n, w1. split; [exact Hn|].
  split; [vm_compute; reflexivity|]. split; [vm_compute; reflexivity|].
  destruct (linearity_goes_on_to_equilibrium 1 2 10 Bench.py_float 5 "1" 1 w n w1
              eq_refl Hn) as (Heq & _).
  split; [|split; vm_compute; reflexivity].
  rewrite Heq. vm_compute. reflexivity.
Defined.

Lemma safety_fault_halts_the_run_witness :
  let w := Bench.lab None Bench.point_fault in
  exists w2 w',
    safety_fault 1 2 10 Bench.py_float 5 "1" (started 2 10 "50" w) w2 /\
    main 1 2 2 10 ["1"; "1"]%string "50" Bench.py_float 5 w = (Ok tt, w') /\
    bus w' = bus w2 ++ shutdown_events /\
    dvm_pending w' = Bench.linearity /\
    registro w' = registro w2.
Proof.
  intros w.
  pose (w0 := started 2 10 "50" w).
  run_as n w1 (n_measure 1 10 Bench.py_float 4 (tuned (1 * 1000000) w0)).
  run_as vac wv (equilibrio 1 10 Bench.py_float w1).
  pose (w3 := append_rows [frequencia_rows "1" n vac] wv).
  run_as r w4 (measure 1 Bench.py_float 10 vac [] w3).
  value_as res (acdc_calc Bench.py_float r (n_results n) 10).
  assert (Hfault : safety_fault 1 2 10 Bench.py_float 5 "1" w0 (sampled w4)).
  { apply (fault_dc 1 2 10 Bench.py_float 5 "1" w0 1 n w1 vac wv [] (first_turn 10) w3
             [] r w4 res Bench.ca [Bench.ca; Bench.ca; Bench.ca]);
      try (vm_compute; reflexivity).
    - apply turns_done.
    - simpl. lia. }
  destruct (safety_fault_halts_the_run 1 2 2 10 ["1"; "1"]%string "50" Bench.py_float 5
              [] "1" ["1"]%string w w0 (sampled w4) eq_refl eq_refl Hfault)
    as (w' & Hmain & Hbus & Hpending & Hreg).
  exists (sampled w4), w'. split; [exact Hfault|]. split; [exact Hmain|].
  split; [exact Hbus|]. split; [|exact Hreg].
  rewrite Hpending. vm_compute. reflexivity.
Defined.

(** C4, a counterexample: with the target reading 0.9 below the bracket
    (0.998, 1.002), [equilibrio] returns the lower bracket voltage
    [0.999 * vac_nominal], not the point 9.5 of the line through the bracket
    points. *)
Lemma equilibrio_does_not_extrapolate :
  let w := Bench.lab (Some 1000000) Bench.bracket_below in
  let y1 := 0.999 * vac_nominal 10 in
  let y2 := 1.001 * vac_nominal 10 in
  let line := (y2 - y1) / (1.002 - 0.998) * (0.9 - 0.998) + y1 in
  fst (equilibrio 1 10 Bench.py_float w) = Ok y1 /\
  (0.9 <? 0.998) = true /\
  (y1 =? line) = false /\
  (line <? 9.6) = true.
Proof. vm_compute. repeat split; reflexivity. Qed.


(** C9, a counterexample: with a baseline reading of zero on the standard,
    [n_measure(4)] returns a mean of the standard's coefficient that is NaN,
    and the frequency point runs on through the equilibrium and the sampling
    to its summary. *)
Lemma nonfinite_linearity_is_no_fault :
  let w := Bench.lab None Bench.point_zero in
  let w' := snd (frequency_point 1 2 10 Bench.py_float 5 "1" w) in
  (exists n w1,
     n_measure 1 10 Bench.py_float 4 (tuned (1 * 1000000) w) = (Ok n, w1) /\
     option_map is_finite (nth_error (n_results n) 0) = Some false) /\
  frequency_point 1 2 10 Bench.py_float 5 "1" w = (Ok tt, w') /\
  length (registro w') = 8%nat /\
  dvm_pending w' = [].
Proof.
  intros w w'. split.
  - run_as n w1 (n_measure 1 10 Bench.py_float 4 (tuned (1 * 1000000) w)).
    exists n, w1. vm_compute. split; reflexivity.
  - vm_compute. repeat split; reflexivity.
Qed.


(** ** The further properties on the bench *)

Lemma measure_five_readings_witness :
  let w := Bench.lab (Some 1000000) (Bench.interleave Bench.cycle_std Bench.cycle_dut) in
  let w' := snd (measure 1 Bench.py_float 10 10 [] w) in
  measure 1 Bench.py_float 10 10 [] w = (Ok Bench.cycle, w') /\
  length (std_readings Bench.cycle) = 5%nat /\
  length (dut_readings Bench.cycle) = 5%nat /\
  Forall (parses Bench.py_float) (std_readings Bench.cycle) /\
  Forall (parses Bench.py_float) (dut_readings Bench.cycle) /\
  length (dvm_pending w) = (length (dvm_pending w') + 10)%nat.
Proof.
  intros w w'.
  assert (H : measure 1 Bench.py_float 10 10 [] w = (Ok Bench.cycle, w'))
    by (vm_compute; reflexivity).
  split; [exact H|].
  exact (measure_five_readings 1 Bench.py_float 10 10 [] w Bench.cycle w' H).
Defined.

Lemma measure_single_carry_over_witness :
  let w := Bench.lab (Some 1000000) (Bench.interleave Bench.cycle_std Bench.cycle_dut) in
  exists w',
    measure 1 Bench.py_float 10 10 ["1.0000"%string] w = (Raise IndexError, w') /\
    bus w' = bus w ++ setup_events 10 10 1000000 /\
    dvm_pending w' = dvm_pending w.
Proof.
  intros w.
  exact (measure_single_carry_over 1 Bench.py_float 10 10 "1.0000" w 1000000 eq_refl).
Defined.

Lemma measure_detector_timeout_witness :
  let w := Bench.lab (Some 1000000) [] in
  exists w',
    measure 1 Bench.py_float 10 10 [] w = (Raise VisaIOError, w') /\
    bus w' = bus w ++ setup_events 10 10 1000000 ++
             [sw_write_raw ac; time_sleep (slices (inject_Z 1));
              dvm_write (SENS_CHAN 2); dvm_write (SENS_VOLT_RANG 2);
              dvm_write INIT_CONT_OFF; dvm_write READ].
Proof.
  intros w.
  exact (measure_detector_timeout 1 Bench.py_float 10 10 w 1000000 eq_refl eq_refl).
Defined.

(** Two turns of the loop on the bench: an accepted repetition, then a
    discarded one. *)
Lemma bench_turns :
  let w := Bench.lab (Some 1000000)
             (Bench.interleave Bench.flat Bench.balanced ++
              tl (tl (Bench.interleave Bench.flat Bench.off_balance))) in
  exists res1 res2 st w',
    turns 1 2 10 Bench.py_float Bench.N 10 (first_turn 10) w [res1; res2] st w' /\
    accepted res1 = true /\ accepted res2 = false /\ dvm_pending w' = [].
Proof.
  intros w.
  run_as st1 w1 (repeticao 1 10 Bench.py_float Bench.N 10 (first_turn 10) w).
  run_as st2 w2 (repeticao 1 10 Bench.py_float Bench.N 10 st1 w1).
  value_as res1 (match results st1 with Some r => Ok r | None => Raise IndexError end).
  value_as res2 (match results st2 with Some r => Ok r | None => Raise IndexError end).
  exists res1, res2, st2, w2. split; [|vm_compute; auto].
  apply (turns_step 1 2 10 Bench.py_float Bench.N 10 (first_turn 10) w st1 w1 res1 [res2]
           st2 w2); try (vm_compute; reflexivity).
  apply (turns_step 1 2 10 Bench.py_float Bench.N 10 st1 w1 st2 w2 res2 [] st2 w2);
    try (vm_compute; reflexivity).
  apply turns_done.
Defined.

Lemma loop_state_after_turns_witness :
  let w := Bench.lab (Some 1000000)
             (Bench.interleave Bench.flat Bench.balanced ++
              tl (tl (Bench.interleave Bench.flat Bench.off_balance))) in
  exists res1 res2 st w',
    turns 1 2 10 Bench.py_float Bench.N 10 (first_turn 10) w [res1; res2] st w' /\
    exists r x y earlier res,
      readings st = Some r /\
      nth_error (std_readings r) 4 = Some x /\
      nth_error (dut_readings r) 4 = Some y /\
      ciclo_ac st = Ok [x; y] /\
      [res1; res2] = earlier ++ [res] /\ results st = Some res /\
      vdc_atual st = adj_dc res /\
      (1.1 * vdc_nominal 10 <? vdc_atual st) = false.
Proof.
  intros w. destruct bench_turns as (res1 & res2 & st & w' & Ht & _).
  exists res1, res2, st, w'. split; [exact Ht|].
  apply (loop_state_after_turns 1 2 10 Bench.py_float Bench.N 10 (first_turn 10) w
           [res1; res2] st w' Ht).
  discriminate.
Defined.

Lemma main_returns_after_shutdown_witness :
  let w := Bench.lab None Bench.linearity in
  let w1 := snd (frequencies 1 2 10 Bench.py_float 5 ["1"%string] (started 2 10 "50" w)) in
  frequencies 1 2 10 Bench.py_float 5 ["1"%string] (started 2 10 "50" w)
    = (Raise VisaIOError, w1) /\
  exists w2,
    main 1 2 2 10 ["1"%string] "50" Bench.py_float 5 w = (Ok tt, w2) /\
    bus w2 = bus w1 ++ shutdown_events /\
    registro w2 = registro w1 /\
    dvm_pending w2 = dvm_pending w1.
Proof.
  intros w w1.
  assert (H : frequencies 1 2 10 Bench.py_float 5 ["1"%string] (started 2 10 "50" w)
              = (Raise VisaIOError, w1)) by (vm_compute; reflexivity).
  split; [exact H|].
  apply (main_returns_after_shutdown 1 2 2 10 ["1"%string] "50" Bench.py_float 5 w
           (Raise VisaIOError) w1 H).
  discriminate.
Defined.

Lemma frequencies_come_to_an_end_witness :
  let w := Bench.lab None Bench.point in
  let w' := snd (frequencies 1 2 10 Bench.py_float 5 ["1"%string] w) in
  (length (dvm_pending w) < 8 * 5)%nat /\
  frequencies 1 2 10 Bench.py_float 5 ["1"%string] w = (Ok tt, w') /\
  Ok tt <> @Diverge unit /\
  (length (dvm_pending w') <= length (dvm_pending w))%nat.
Proof.
  intros w w'.
  assert (Hfuel : (length (dvm_pending w) < 8 * 5)%nat)
    by (apply Nat.ltb_lt; vm_compute; reflexivity).
  assert (H : frequencies 1 2 10 Bench.py_float 5 ["1"%string] w = (Ok tt, w'))
    by (vm_compute; reflexivity).
  split; [exact Hfuel|]. split; [exact H|].
  exact (frequencies_come_to_an_end 1 2 10 Bench.py_float 5 ["1"%string] w (Ok tt) w'
           Hfuel H).
Defined.

Lemma acdc_calc_exceptions_witness :
  acdc_calc Bench.py_float Bench.cycle [100; 0.1] 10 = Raise IndexError /\
  acdc_calc Bench.py_float
    {| std_readings := Bench.cycle_std; dut_readings := ["0.9990"; "volts"]%string |}
    Bench.N 10 = Raise ValueError /\
  acdc_calc Bench.py_float
    {| std_readings := Bench.cycle_std; dut_readings := ["0.9990"; "0.9991"]%string |}
    Bench.N 10 = Raise IndexError.
Proof.
  split; [|split].
  - apply (proj1 (acdc_calc_exceptions Bench.py_float Bench.cycle [100; 0.1] 10)).
    simpl. lia.
  - apply (proj1 (proj2 (acdc_calc_exceptions Bench.py_float
                           {| std_readings := Bench.cycle_std;
                              dut_readings := ["0.9990"; "volts"]%string |}
                           Bench.N 10))).
    + simpl. lia.
    + apply Exists_exists. exists "volts"%string. split; [|reflexivity].
      simpl. auto 10.
  - apply (proj2 (proj2 (acdc_calc_exceptions Bench.py_float
                           {| std_readings := Bench.cycle_std;
                              dut_readings := ["0.9990"; "0.9991"]%string |}
                           Bench.N 10))).
    + simpl. lia.
    + repeat constructor; eexists; reflexivity.
    + repeat constructor; eexists; reflexivity.
    + right. simpl. lia.
Defined.

Lemma measure_bad_answer_witness :
  let w := Bench.lab (Some 1000000) ["volts"; "0.9990"; "1.0002"]%string in
  exists w',
    measure 1 Bench.py_float 10 10 [] w = (Raise ValueError, w') /\
    dvm_pending w' = ["1.0002"%string] /\
    bus w' = bus w ++ setup_events 10 10 1000000 ++ phase_events 1 ac.
Proof.
  intros w.
  exact (measure_bad_answer 1 Bench.py_float 10 10 w 1000000 "volts" "0.9990"
           ["1.0002"%string] eq_refl eq_refl eq_refl).
Defined.

Lemma main_bad_frequency_witness :
  let w := Bench.lab None (Bench.point ++ Bench.linearity) in
  let w1 := snd (frequencies 1 2 10 Bench.py_float 5 ["1"%string] (started 2 10 "50" w)) in
  frequencies 1 2 10 Bench.py_float 5 ["1"%string] (started 2 10 "50" w) = (Ok tt, w1) /\
  exists w2,
    main 1 2 2 10 ["1"; "MHz"; "1"]%string "50" Bench.py_float 5 w = (Ok tt, w2) /\
    bus w2 = bus w1 ++ shutdown_events /\
    registro w2 = registro w1 /\
    dvm_pending w2 = dvm_pending w1.
Proof.
  intros w w1.
  assert (H : frequencies 1 2 10 Bench.py_float 5 ["1"%string] (started 2 10 "50" w)
              = (Ok tt, w1)) by (vm_compute; reflexivity).
  split; [exact H|].
  exact (main_bad_frequency 1 2 2 10 ["1"; "MHz"; "1"]%string "50" Bench.py_float 5
           ["1"%string] "MHz" ["1"%string] w w1 eq_refl H eq_refl).
Defined.

Lemma frequency_point_completes_witness :
  let w := Bench.lab None Bench.point in
  let w' := snd (frequency_point 1 2 10 Bench.py_float 5 "1" w) in
  frequency_point 1 2 10 Bench.py_float 5 "1" w = (Ok tt, w') /\
  exists n vac cycles rows st,
    length (dvm_pending w) =
      (length (dvm_pending w') + 13 +
       match cycles with [] => 0 | _ :: later => 10 + 8 * length later end)%nat /\
    Z.of_nat (length (filter accepted cycles)) = Z.max 0 2 /\
    Forall2 (fun row res => exists v ca, row = linha res v ca) rows
      (filter accepted cycles) /\
    registro w' =
      registro w ++ [frequencia_rows "1" n vac] ++ rows ++
      [blank; Media (numpy.mean (diff_acdc st)); Desvio_padrao (numpy.std 1 (diff_acdc st));
       blank; blank] /\
    diff_acdc st = map dif (filter accepted cycles).
Proof.
  intros w w'.
  assert (H : frequency_point 1 2 10 Bench.py_float 5 "1" w = (Ok tt, w'))
    by (vm_compute; reflexivity).
  split; [exact H|].
  exact (frequency_point_completes 1 2 10 Bench.py_float 5 "1" w w' H).
Defined.

Lemma n_measure_without_perturbation_witness :
  let w := Bench.lab (Some 1000000) ["1"; "1"; "1.02"]%string in
  exists n w',
    n_measure 1 10 Bench.py_float 0 w = (Ok n, w') /\
    n_results n = [nan; nan; nan; nan] /\ k n = [] /\
    exists f x0 y0,
      freq w = Some f /\
      dvm_pending w = x0 :: y0 :: dvm_pending w' /\
      bus w' = bus w ++ baseline_events 1 10 f ++ [sw_write_raw ac].
Proof.
  intros w.
  run_as n w' (n_measure 1 10 Bench.py_float 0 w).
  assert (H : n_measure 1 10 Bench.py_float 0 w = (Ok n, w')) by (vm_compute; reflexivity).
  exists n, w'. split; [exact H|].
  exact (n_measure_without_perturbation 1 10 Bench.py_float 0 w n w' (Z.le_refl 0) H).
Defined.

Lemma nan_difference_is_accepted_witness :
  let w := Bench.lab (Some 1000000) (Bench.interleave Bench.flat Bench.blind) in
  exists st' w' res,
    repeticao 1 10 Bench.py_float_nan Bench.N 10 (first_turn 10) w = (Ok st', w') /\
    results st' = Some res /\
    is_nan (Delta res) = true /\
    i st' = (0 + 1)%Z /\
    diff_acdc st' = [] ++ [dif res] /\
    exists ca, registro w' = registro w ++ [linha res 10 ca].
Proof.
  intros w.
  run_as st' w' (repeticao 1 10 Bench.py_float_nan Bench.N 10 (first_turn 10) w).
  value_as res (match results st' with Some r => Ok r | None => Raise IndexError end).
  assert (H : repeticao 1 10 Bench.py_float_nan Bench.N 10 (first_turn 10) w = (Ok st', w'))
    by (vm_compute; reflexivity).
  assert (Hres : results st' = Some res) by (vm_compute; reflexivity).
  assert (Hnan : is_nan (Delta res) = true) by (vm_compute; reflexivity).
  exists st', w', res. split; [exact H|]. split; [exact Hres|]. split; [exact Hnan|].
  exact (nan_difference_is_accepted 1 10 Bench.py_float_nan Bench.N 10 (first_turn 10) w
           st' w' res H Hres Hnan).
Defined.

Lemma sampling_dc_within_bound_witness :
  let w := Bench.lab (Some 1000000)
             (Bench.interleave Bench.flat Bench.balanced ++
              tl (tl (Bench.interleave Bench.flat Bench.off_balance)) ++
              tl (tl (Bench.interleave Bench.flat Bench.even))) in
  let st := fst (sampling 1 2 10 Bench.py_float 5 Bench.N 10 (first_turn 10) w) in
  let w' := snd (sampling 1 2 10 Bench.py_float 5 Bench.N 10 (first_turn 10) w) in
  sampling 1 2 10 Bench.py_float 5 Bench.N 10 (first_turn 10) w = (st, w') /\
  dvm_pending w' = [] /\
  (exists t,
    bus w' = bus w ++ t /\
    forall u, In (ac_source_write (SOUR_VOLT 1 u)) t ->
      u = vdc_nominal 10 \/
      ((1.1 * vdc_nominal 10 <? u) = false /\
       forall sent bound : Z,
         thousandths u = Some sent ->
         thousandths (1.1 * vdc_nominal 10) = Some bound ->
         (sent <= bound)%Z)) /\
  (1.1 * vdc_nominal 1.2345 <? 1.3577031) = false /\
  thousandths 1.3577031 = Some 1358%Z /\
  thousandths (1.1 * vdc_nominal 1.2345) = Some 1358%Z /\
  option_map (fun v => (v * 1000 <? 1358 * 2 ^ 1074)%Z)
    (scaled (1.1 * vdc_nominal 1.2345)) = Some true.
Proof.
  intros w st w'.
  assert (H : sampling 1 2 10 Bench.py_float 5 Bench.N 10 (first_turn 10) w = (st, w'))
    by (vm_compute; reflexivity).
  split; [exact H|]. split; [vm_compute; reflexivity|].
  split; [exact (sampling_dc_within_bound 1 2 10 Bench.py_float 5 Bench.N 10 w st w' H)|].
  repeat split; vm_compute; reflexivity.
Defined.

Lemma sampling_ac_level_fixed_witness :
  let w := Bench.lab (Some 1000000)
             (Bench.interleave Bench.flat Bench.balanced ++
              tl (tl (Bench.interleave Bench.flat Bench.off_balance)) ++
              tl (tl (Bench.interleave Bench.flat Bench.even))) in
  let st := fst (sampling 1 2 10 Bench.py_float 5 Bench.N 9.995 (first_turn 10) w) in
  let w' := snd (sampling 1 2 10 Bench.py_float 5 Bench.N 9.995 (first_turn 10) w) in
  sampling 1 2 10 Bench.py_float 5 Bench.N 9.995 (first_turn 10) w = (st, w') /\
  dvm_pending w' = [] /\
  exists t,
    bus w' = bus w ++ t /\
    forall u, In (ac_source_write (SOUR_VOLT 2 u)) t -> u = 9.995.
Proof.
  intros w st w'.
  assert (H : sampling 1 2 10 Bench.py_float 5 Bench.N 9.995 (first_turn 10) w = (st, w'))
    by (vm_compute; reflexivity).
  split; [exact H|]. split; [vm_compute; reflexivity|].
  exact (sampling_ac_level_fixed 1 2 10 Bench.py_float 5 Bench.N 9.995 (first_turn 10) w
           st w' H).
Defined.

Lemma measure_returns_witness :
  let w := Bench.lab (Some 1000000) (Bench.interleave Bench.cycle_std Bench.cycle_dut) in
  let later := phase_events 1 dc ++ phase_events 1 ac ++ phase_events 1 dc ++
               phase_events 1 ac in
  (exists w',
     measure 1 Bench.py_float 10 10 [] w = (Ok Bench.cycle, w') /\ dvm_pending w' = [] /\
     bus w' = bus w ++ setup_events 10 10 1000000 ++ phase_events 1 ac ++ later) /\
  (exists w',
     measure 1 Bench.py_float 10 10 ["1.0000"; "0.9990"]%string
       (Bench.lab (Some 1000000) (tl (tl (dvm_pending w)))) = (Ok Bench.cycle, w') /\
     dvm_pending w' = [] /\
     bus w' = [] ++ setup_events 10 10 1000000 ++ later).
Proof.
  intros w later.
  assert (Hall : Forall (parses Bench.py_float)
                   ["1.0000"; "0.9990"; "1.0002"; "0.9991"; "1.0001"; "0.9989";
                    "1.0003"; "0.9992"; "1.0000"; "0.9990"]%string)
    by (repeat constructor; eexists; reflexivity).
  split.
  - exact (proj1 (measure_returns 1 Bench.py_float 10 10 w 1000000
                    "1.0000" "0.9990" "1.0002" "0.9991" "1.0001" "0.9989"
                    "1.0003" "0.9992" "1.0000" "0.9990" [] eq_refl Hall) eq_refl).
  - exact (proj2 (measure_returns 1 Bench.py_float 10 10
                    (Bench.lab (Some 1000000) (tl (tl (dvm_pending w)))) 1000000
                    "1.0000" "0.9990" "1.0002" "0.9991" "1.0001" "0.9989"
                    "1.0003" "0.9992" "1.0000" "0.9990" [] eq_refl Hall) eq_refl).
Defined.

Lemma equilibrio_returns_witness :
  let w := Bench.lab (Some 1000000) Bench.bracket in
  let reading := [dvm_write (SENS_CHAN 1); dvm_write (SENS_VOLT_RANG 1);
                  dvm_write INIT_CONT_OFF; dvm_write READ] in
  exists v w',
    equilibrio 1 10 Bench.py_float w = (Ok v, w') /\
    numpy.interp 1 [0.998; 1.002] [0.999 * vac_nominal 10; 1.001 * vac_nominal 10] = Ok v /\
    dvm_pending w' = [] /\
    bus w' = bus w ++ equilibrium_start 1 10 1000000 ++
             [sw_write_raw ac; time_sleep (slices (inject_Z 1))] ++ reading ++
             [sw_write_raw dc; time_sleep (slices 2);
              ac_source_write (SOUR_VOLT 2 (1.001 * vac_nominal 10)); time_sleep (slices 2);
              sw_write_raw ac; time_sleep (slices (inject_Z 1))] ++ reading ++
             [sw_write_raw dc].
Proof.
  intros w.
  exact (equilibrio_returns 1 10 Bench.py_float w 1000000 "1" "0.998" "1.002" []
           1 0.998 1.002 eq_refl eq_refl eq_refl eq_refl eq_refl).
Defined.

Lemma n_measure_returns_witness :
  let w := Bench.lab (Some 1000000) Bench.linearity in
  let pairs := [("1.02", "1.02"); ("0.98", "0.98"); ("1.02", "1.02"); ("0.98", "0.98")]%string in
  exists n w',
    n_measure 1 10 Bench.py_float 4 w = (Ok n, w') /\
    dvm_pending w' = [] /\
    length (nX n) = length pairs /\ length (nY n) = length pairs /\
    k n = map weight (range 1 (rounded_up 4 + 1)).
Proof.
  intros w pairs.
  apply (n_measure_returns 1 10 Bench.py_float 4 w 1000000 "1" "1" pairs []);
    try reflexivity; try (eexists; reflexivity).
  repeat constructor; eexists; reflexivity.
Defined.

Lemma frequency_point_without_repetition_witness :
  let w := Bench.lab None (Bench.linearity ++ Bench.bracket) in
  let w' := snd (frequency_point 1 0 10 Bench.py_float 0 "1" w) in
  frequency_point 1 0 10 Bench.py_float 0 "1" w = (Ok tt, w') /\
  length (dvm_pending w) = (length (dvm_pending w') + 13)%nat /\
  exists n vac,
    registro w' =
      registro w ++
      [frequencia_rows "1" n vac; blank; Media nan; Desvio_padrao nan; blank; blank].
Proof.
  intros w w'.
  assert (H : frequency_point 1 0 10 Bench.py_float 0 "1" w = (Ok tt, w'))
    by (vm_compute; reflexivity).
  split; [exact H|].
  exact (frequency_point_without_repetition 1 0 10 Bench.py_float 0 "1" w w'
           (Z.le_refl 0) H).
Defined.

Lemma sensor_failure_loses_the_cycle_witness :
  let w := {| dvm_pending := Bench.interleave Bench.cycle_std Bench.cycle_dut;
              bme_pending := []; freq := Some 1000000; bus := []; registro := [] |} in
  let w1 := snd (measure 1 Bench.py_float 10 10 [] w) in
  measure 1 Bench.py_float 10 10 [] w = (Ok Bench.cycle, w1) /\
  repeticao 1 10 Bench.py_float Bench.N 10 (first_turn 10) w = (Raise OSError, w1) /\
  registro w1 = registro w /\
  length (dvm_pending w) = (length (dvm_pending w1) + 10)%nat.
Proof.
  intros w w1.
  assert (H : measure 1 Bench.py_float 10 10 [] w = (Ok Bench.cycle, w1))
    by (vm_compute; reflexivity).
  value_as res (acdc_calc Bench.py_float Bench.cycle Bench.N 10).
  split; [exact H|].
  apply (sensor_failure_loses_the_cycle 1 10 Bench.py_float Bench.N 10 (first_turn 10) w
           [] Bench.cycle w1 res); first [exact H | vm_compute; reflexivity].
Defined.
